(** * Renumbering of a coloured mesh: [MeshRenumbering::renumber_by_color]

    A shallow embedding of [dolfin/mesh/MeshRenumbering.cpp] and the
    properties of the routine: the first-encounter numbering of the
    vertices, the rewritten connectivity and coordinate buffers, the
    rewritten colour data and the failure paths.

    Conventions.
    - A [uint] is a [Z] in [[0, 2^32)], an [int] a [Z] in [[-2^31, 2^31)];
      arithmetic that the code performs on them is followed by [to_uint],
      conversions between the two are [to_int] and [to_uint].
    - A [double] is only ever copied by the routine; it is represented by
      its 64-bit pattern.
    - A raw array ([uint*], [double*]) together with its length, and a
      [std::vector], are lists; an access outside the list is undefined
      behaviour and ends the run with [Undefined].
    - A [std::vector] holds fewer than [2^32] entries, so that a [uint]
      counter runs through it.
    - What [new uint[n]] and [new double[n]] hold before they are written
      is a parameter of the run.
    - [info], [warning] and [Timer] only produce diagnostics and are left
      out, and so is the assertion of line 105, which compares a [uint]
      with 0.
    - The assertions of lines 67 and 128 are not well-formed C++: the
      first names [num_collored_cells], which is declared nowhere, the
      second compares a size with a [std::vector].  The file can only be
      compiled with [NDEBUG], where [assert] expands to nothing, so these
      two lines have no counterpart here: line 68 dereferences the
      pointer unchecked, and the loop of lines 129-134 runs as many times
      as the recorded count says. *)

From stdpp Require Import base numbers option list gmap.

Set Warnings "-clear-no-such-hyp".
Local Open Scope Z_scope.

(** ** Machine integers *)

Definition to_uint (z : Z) : Z := z mod 2 ^ 32.

Definition to_int (z : Z) : Z :=
  if decide (z mod 2 ^ 32 < 2 ^ 31) then z mod 2 ^ 32 else z mod 2 ^ 32 - 2 ^ 32.

Definition double := Z.

(** ** Arrays *)

(** [a[i]] *)
Definition read {A} (a : list A) (i : Z) : option A :=
  if decide (0 ≤ i) then a !! Z.to_nat i else None.

(** [a[i] = x] *)
Definition write {A} (a : list A) (i : Z) (x : A) : option (list A) :=
  if decide (0 ≤ i < Z.of_nat (length a)) then Some (<[Z.to_nat i := x]> a) else None.

(** [std::copy(src + first, src + last, dst + out)] for arrays that do not
    overlap. *)
Definition std_copy {A} (src : list A) (first last : Z) (dst : list A) (out : Z)
  : option (list A) :=
  if decide (0 ≤ first ≤ last ∧ last ≤ Z.of_nat (length src)
             ∧ 0 ≤ out ∧ out + (last - first) ≤ Z.of_nat (length dst))
  then Some (take (Z.to_nat out) dst
             ++ take (Z.to_nat (last - first)) (drop (Z.to_nat first) src)
             ++ drop (Z.to_nat (out + (last - first))) dst)
  else None.

(** ** The mesh *)

(** Modelled from the spec: [MeshConnectivity] ([MeshConnectivity.h] and
    [Cell.h] are not part of the sources).  The connectivity buffer is a
    flat sequence of indices, cut into tuples of a constant number of
    entries per entity; [_size] is the length of the buffer. *)
Record MeshConnectivity := {
  connections : list Z;
  num_entities : Z
}.

Definition _size (c : MeshConnectivity) : Z := Z.of_nat (length (connections c)).

(** [topology(D, 0)] is kept apart from the other incidence relations
    [topology(d0, d1)], which the routine only clears. *)
Record MeshTopology := {
  tdim : Z;
  num_vertices : Z;
  num_cells : Z;
  cell_vertex : MeshConnectivity;
  derived : gmap (Z * Z) MeshConnectivity
}.

Record MeshGeometry := {
  gdim : Z;
  gsize : Z;
  coordinates : list double
}.

(** [mesh.data()]: the mesh function "cell colors", the array
    "num colored cells" and the arrays "colored cells" [color].  A null
    pointer is [None], and so is an array that is not stored. *)
Record MeshData := {
  cell_colors : option (list Z);
  num_colored_cells : option (list Z);
  colored_cells : gmap Z (list Z)
}.

Record Mesh := {
  topology : MeshTopology;
  geometry : MeshGeometry;
  data : MeshData
}.

(** Modelled from the spec: [Mesh::clean] ([Mesh.cpp] is not part of the
    sources) clears every incidence relation other than cell-vertex. *)
Definition clean (m : Mesh) : Mesh :=
  {| topology := {| tdim := tdim (topology m);
                    num_vertices := num_vertices (topology m);
                    num_cells := num_cells (topology m);
                    cell_vertex := cell_vertex (topology m);
                    derived := ∅ |};
     geometry := geometry m;
     data := data m |}.

(** ** Outcomes *)

(** The places where the routine gives up: the two calls of [error] and the
    assertions.  No run gives up at the assertions of lines 67 and 128,
    [assert_num_colored_cells] and [assert_colored_cells_size]. *)
Inductive failure :=
  | error_not_colored
  | assert_num_colored_cells
  | assert_num_colors
  | assert_colored_cells
  | error_not_all_renumbered
  | assert_colored_cells_size.

(** The error conditions of the specification. *)
Inductive condition :=
  | PreconditionError
  | RenumberingIncompleteError
  | MetadataInconsistencyError.

Definition condition_of (f : failure) : condition :=
  match f with
  | error_not_colored | assert_num_colored_cells
  | assert_num_colors | assert_colored_cells => PreconditionError
  | error_not_all_renumbered => RenumberingIncompleteError
  | assert_colored_cells_size => MetadataInconsistencyError
  end.

(** A run ends normally in a state, gives up in a state, or is undefined. *)
Inductive outcome (S : Type) :=
  | Done (s : S)
  | Failed (f : failure) (s : S)
  | Undefined.
Arguments Done {S} s.
Arguments Failed {S} f s.
Arguments Undefined {S}.

Fixpoint for_each {S A} (body : S → A → outcome S) (s : S) (l : list A) : outcome S :=
  match l with
  | [] => Done s
  | x :: l' =>
      match body s x with
      | Done s' => for_each body s' l'
      | o => o
      end
  end.

(** ** The temporaries of one call *)

Record scratch := {
  new_connections : list Z;
  new_coordinates : list double;
  new_vertex_indices : list Z;
  connections_offset : Z;
  current_vertex : Z
}.

(** The new index of a vertex as the routine reads it back from
    [new_vertex_indices] (line 104). *)
Definition new_vertex_index (st : scratch) (vertex_index : Z) : option Z :=
  to_uint <$> read (new_vertex_indices st) vertex_index.

(** [cell.entities(0)[j]] of the cell [cell_index]. *)
Definition cell_vertices (c : MeshConnectivity) (cell_index j : Z) : option Z :=
  read (connections c) (cell_index * num_entities c + j).

Definition set_connections (m : Mesh) (l : list Z) : Mesh :=
  {| topology := {| tdim := tdim (topology m);
                    num_vertices := num_vertices (topology m);
                    num_cells := num_cells (topology m);
                    cell_vertex := {| connections := l;
                                      num_entities := num_entities (cell_vertex (topology m)) |};
                    derived := derived (topology m) |};
     geometry := geometry m;
     data := data m |}.

Definition set_coordinates (m : Mesh) (l : list double) : Mesh :=
  {| topology := topology m;
     geometry := {| gdim := gdim (geometry m); gsize := gsize (geometry m);
                    coordinates := l |};
     data := data m |}.

Definition set_data (m : Mesh) (d : MeshData) : Mesh :=
  {| topology := topology m; geometry := geometry m; data := d |}.

Section renumber_by_color.

(** [NDEBUG]: whether [assert] is compiled out, as it is in every build
    of the file; with it a failing assertion goes unnoticed and the code
    after it runs.  The assertions of lines 69 and 76 are embedded as
    they are written. *)
Variable NDEBUG : bool.

(** What [new uint[n]] and [new double[n]] hold before they are written. *)
Variable uninit_uint : nat → Z.
Variable uninit_double : nat → double.

(** Lines 91-106: one vertex of one cell. *)
Definition renumber_vertex (m : Mesh) (st : scratch) (vertex_index : Z) : outcome scratch :=
  let coords := coordinates (geometry m) in
  match read (new_vertex_indices st) vertex_index with
  | None => Undefined
  | Some old =>
      (* lines 94-101 *)
      let st1 :=
        if decide (old = -1) then
          let d := gdim (geometry m) in
          match std_copy coords (to_uint (vertex_index * d))
                  (to_uint ((vertex_index + 1) * d))
                  (new_coordinates st) (to_uint (current_vertex st * d)),
                write (new_vertex_indices st) vertex_index (to_int (current_vertex st)) with
          | Some nc, Some nvi =>
              Some {| new_connections := new_connections st;
                      new_coordinates := nc;
                      new_vertex_indices := nvi;
                      connections_offset := connections_offset st;
                      current_vertex := to_uint (current_vertex st + 1) |}
          | _, _ => None
          end
        else Some st in
      (* lines 104-106 *)
      match st1 with
      | None => Undefined
      | Some st1 =>
          match new_vertex_index st1 vertex_index with
          | None => Undefined
          | Some new_vertex_index =>
              match write (new_connections st1) (connections_offset st1) new_vertex_index with
              | None => Undefined
              | Some nc =>
                  Done {| new_connections := nc;
                          new_coordinates := new_coordinates st1;
                          new_vertex_indices := new_vertex_indices st1;
                          connections_offset := to_uint (connections_offset st1 + 1);
                          current_vertex := current_vertex st1 |}
              end
          end
      end
  end.

(** Lines 81-107: one cell. *)
Definition renumber_cell (m : Mesh) (st : scratch) (cell_index : Z) : outcome scratch :=
  let c := cell_vertex (topology m) in
  for_each (λ st j,
      match cell_vertices c cell_index j with
      | None => Undefined
      | Some vertex_index => renumber_vertex m st vertex_index
      end)
    st (seqZ 0 (num_entities c)).

(** Lines 74-108: one colour.  Without the assertion a missing array is a
    null pointer that is dereferenced. *)
Definition renumber_color (m : Mesh) (st : scratch) (color : Z) : outcome scratch :=
  match colored_cells (data m) !! color with
  | None => if NDEBUG then Undefined else Failed assert_colored_cells st
  | Some cells => for_each (renumber_cell m) st cells
  end.

(** Lines 55-63, 70-71: the temporaries as they are allocated. *)
Definition allocate (m : Mesh) : scratch :=
  let connections_size := _size (cell_vertex (topology m)) in
  let coordinates_size := to_uint (gsize (geometry m) * gdim (geometry m)) in
  {| new_connections := uninit_uint <$> seq 0 (Z.to_nat connections_size);
     new_coordinates := uninit_double <$> seq 0 (Z.to_nat coordinates_size);
     new_vertex_indices := replicate (Z.to_nat (num_vertices (topology m))) (-1);
     connections_offset := 0;
     current_vertex := 0 |}.

(** Lines 72-109: the sweep over the colours. *)
Definition renumber_vertices (m : Mesh) (num_colors : Z) : outcome scratch :=
  for_each (renumber_color m) (allocate m) (seqZ 0 num_colors).

(** Lines 111-114. *)
Definition all_renumbered (st : scratch) : bool :=
  bool_decide (-1 ∉ new_vertex_indices st).

(** Lines 116-118. *)
Definition copy_data (m : Mesh) (st : scratch) : option Mesh :=
  let connections_size := _size (cell_vertex (topology m)) in
  let coordinates_size := to_uint (gsize (geometry m) * gdim (geometry m)) in
  match std_copy (new_connections st) 0 connections_size
          (connections (cell_vertex (topology m))) 0,
        std_copy (new_coordinates st) 0 coordinates_size
          (coordinates (geometry m)) 0 with
  | Some conn, Some coords => Some (set_coordinates (set_connections m conn) coords)
  | _, _ => None
  end.

(** Lines 131-133: one cell of one colour; the state is the mesh data and
    [current_cell]. *)
Definition update_cell (color : Z) (s : MeshData * Z) (i : Z) : outcome (MeshData * Z) :=
  let '(d, current_cell) := s in
  match colored_cells d !! color, cell_colors d with
  | Some cells, Some colors =>
      match write cells i current_cell, write colors current_cell color with
      | Some cells', Some colors' =>
          Done ({| cell_colors := Some colors';
                   num_colored_cells := num_colored_cells d;
                   colored_cells := <[color := cells']> (colored_cells d) |},
                to_uint (current_cell + 1))
      | _, _ => Undefined
      end
  | _, _ => Undefined
  end.

(** Lines 124-134: one colour.  The loop dereferences [colored_cells]
    only when it runs at least once. *)
Definition update_color (ncc : list Z) (s : MeshData * Z) (color : Z)
  : outcome (MeshData * Z) :=
  match read ncc color with
  | None => Undefined
  | Some count => for_each (update_cell color) s (seqZ 0 count)
  end.

(** Lines 120-135. *)
Definition update_renumbering_data (m : Mesh) (ncc : list Z) (num_colors : Z)
  : outcome Mesh :=
  match for_each (update_color ncc) (data m, 0) (seqZ 0 num_colors) with
  | Done s => Done (set_data m (fst s))
  | Failed f s => Failed f (set_data m (fst s))
  | Undefined => Undefined
  end.

(** The routine.  The mesh of a failure is the mesh as the routine leaves
    it. *)
Definition renumber_by_color (m : Mesh) : outcome Mesh :=
  (* lines 29-31 *)
  match cell_colors (data m) with
  | None => Failed error_not_colored m
  | Some _ =>
      (* line 45 *)
      let m := clean m in
      (* line 66; line 68 dereferences the pointer, null or not *)
      match num_colored_cells (data m) with
      | None => Undefined
      | Some ncc =>
          (* lines 68-69 *)
          let num_colors := to_uint (Z.of_nat (length ncc)) in
          if negb NDEBUG && negb (bool_decide (0 < num_colors))
          then Failed assert_num_colors m
          else
            match renumber_vertices m num_colors with
            | Undefined => Undefined
            | Failed f _ => Failed f m
            | Done st =>
                if all_renumbered st then
                  match copy_data m st with
                  | None => Undefined
                  | Some m => update_renumbering_data m ncc num_colors
                  end
                else Failed error_not_all_renumbered m
            end
      end
  end.

End renumber_by_color.

(** ** The sweep, as lists *)

Definition mesh_num_colors (d : MeshData) : Z :=
  match num_colored_cells d with
  | Some ncc => to_uint (Z.of_nat (length ncc))
  | None => 0
  end.

Definition color_cells (d : MeshData) (color : Z) : list Z :=
  default [] (colored_cells d !! color).

(** The cells in the order of the sweep: colour by colour, each colour in
    its stored order. *)
Definition sweep_cells (m : Mesh) : list Z :=
  mjoin (color_cells (data m) <$> seqZ 0 (mesh_num_colors (data m))).

(** The vertices of one cell, in their local order. *)
Definition cell_tuple (c : MeshConnectivity) (cell_index : Z) : list Z :=
  take (Z.to_nat (num_entities c))
    (drop (Z.to_nat (cell_index * num_entities c)) (connections c)).

(** The vertices in the order in which the sweep meets them, with
    repetitions. *)
Definition sweep_vertices (m : Mesh) : list Z :=
  mjoin (cell_tuple (cell_vertex (topology m)) <$> sweep_cells m).

(** The distinct entries of a list in the order of their first
    occurrence. *)
Definition first_seen (vs : list Z) : list Z :=
  foldl (λ seen v, if decide (v ∈ seen) then seen else seen ++ [v]) [] vs.

(** The number of cells of the colours before [color], from the recorded
    counts. *)
Definition first_cell (ncc : list Z) (color : Z) : Z :=
  foldr Z.add 0 (take (Z.to_nat color) ncc).

(** The cells of the colours before [color], in the order of the sweep. *)
Definition cells_before (d : MeshData) (color : Z) : list Z :=
  mjoin (color_cells d <$> seqZ 0 color).

(** The colour labels of the cells of the colours before [color], once
    these cells are numbered in the order of the sweep. *)
Definition color_labels (ncc : list Z) (color : Z) : list Z :=
  mjoin ((λ c, replicate (Z.to_nat (default 0 (read ncc c))) c) <$> seqZ 0 color).

(** ** Coloured meshes *)

Definition wf_geometry (m : Mesh) : Prop :=
  0 ≤ num_vertices (topology m) < 2 ^ 32
  ∧ 0 ≤ gdim (geometry m)
  ∧ gsize (geometry m) = num_vertices (topology m)
  ∧ num_vertices (topology m) * gdim (geometry m) < 2 ^ 32
  ∧ Z.of_nat (length (coordinates (geometry m)))
    = num_vertices (topology m) * gdim (geometry m).

Definition wf_connectivity (m : Mesh) : Prop :=
  0 ≤ num_cells (topology m) < 2 ^ 32
  ∧ 0 ≤ num_entities (cell_vertex (topology m))
  ∧ _size (cell_vertex (topology m))
    = num_cells (topology m) * num_entities (cell_vertex (topology m))
  ∧ _size (cell_vertex (topology m)) < 2 ^ 32
  ∧ Forall (λ v, 0 ≤ v < num_vertices (topology m))
      (connections (cell_vertex (topology m))).

(** The colour data is there, and no cell is listed twice. *)
Definition wf_coloring (m : Mesh) : Prop :=
  (Z.of_nat ∘ length) <$> cell_colors (data m) = Some (num_cells (topology m))
  ∧ is_Some (num_colored_cells (data m))
  ∧ 0 < mesh_num_colors (data m)
  ∧ Forall (λ color, is_Some (colored_cells (data m) !! color))
      (seqZ 0 (mesh_num_colors (data m)))
  ∧ NoDup (sweep_cells m)
  ∧ Forall (λ c, 0 ≤ c < num_cells (topology m)) (sweep_cells m).

Definition wf_colored_mesh (m : Mesh) : Prop :=
  wf_geometry m ∧ wf_connectivity m ∧ wf_coloring m.

(** The recorded counts of the colours before [color] are the lengths of
    their lists. *)
Definition counts_match_below (d : MeshData) (ncc : list Z) (color : Z) : Prop :=
  Forall (λ c, (Z.of_nat ∘ length) <$> colored_cells d !! c = read ncc c) (seqZ 0 color).

(** The recorded count of every colour is the length of its list. *)
Definition counts_match (d : MeshData) : Prop :=
  match num_colored_cells d with
  | Some ncc => counts_match_below d ncc (mesh_num_colors d)
  | None => False
  end.

(** The recorded counts of the colours before [color] are at most the
    lengths of their lists. *)
Definition counts_fit_below (d : MeshData) (ncc : list Z) (color : Z) : Prop :=
  Forall (λ c, match colored_cells d !! c, read ncc c with
               | Some cells, Some count => count ≤ Z.of_nat (length cells)
               | _, _ => False
               end) (seqZ 0 color).

(** A valid coloured mesh: every cell is in the list of exactly one
    colour. *)
Definition valid_colored_mesh (m : Mesh) : Prop :=
  wf_colored_mesh m
  ∧ counts_match (data m)
  ∧ Forall (λ c, c ∈ sweep_cells m) (seqZ 0 (num_cells (topology m))).

Definition all_vertices_referenced (m : Mesh) : Prop :=
  Forall (λ v, v ∈ sweep_vertices m) (seqZ 0 (num_vertices (topology m))).

#[global] Instance wf_geometry_dec m : Decision (wf_geometry m).
Proof. unfold wf_geometry. apply _. Defined.
#[global] Instance wf_connectivity_dec m : Decision (wf_connectivity m).
Proof. unfold wf_connectivity. apply _. Defined.
#[global] Instance wf_coloring_dec m : Decision (wf_coloring m).
Proof. unfold wf_coloring. apply _. Defined.
#[global] Instance wf_colored_mesh_dec m : Decision (wf_colored_mesh m).
Proof. unfold wf_colored_mesh. apply _. Defined.
#[global] Instance counts_match_below_dec d ncc color :
  Decision (counts_match_below d ncc color).
Proof. unfold counts_match_below. apply _. Defined.
#[global] Instance counts_fit_below_dec d ncc color :
  Decision (counts_fit_below d ncc color).
Proof.
  unfold counts_fit_below. apply Forall_dec. intros c.
  destruct (colored_cells d !! c), (read ncc c); apply _.
Defined.
#[global] Instance counts_match_dec d : Decision (counts_match d).
Proof. unfold counts_match. destruct (num_colored_cells d); apply _. Defined.
#[global] Instance valid_colored_mesh_dec m : Decision (valid_colored_mesh m).
Proof. unfold valid_colored_mesh. apply _. Defined.
#[global] Instance all_vertices_referenced_dec m : Decision (all_vertices_referenced m).
Proof. unfold all_vertices_referenced. apply _. Defined.

(** ** Runs that differ in the first contents of the temporaries *)

(** Two states of the sweep that agree in everything but the contents of
    the two new buffers. *)
Definition scratch_sim (st1 st2 : scratch) : Prop :=
  new_vertex_indices st1 = new_vertex_indices st2
  ∧ connections_offset st1 = connections_offset st2
  ∧ current_vertex st1 = current_vertex st2
  ∧ length (new_connections st1) = length (new_connections st2)
  ∧ length (new_coordinates st1) = length (new_coordinates st2).

(** Two runs end in the same way, in states that are related. *)
Definition outcome_sim {S} (R : S → S → Prop) (o1 o2 : outcome S) : Prop :=
  match o1, o2 with
  | Done s1, Done s2 => R s1 s2
  | Failed f1 s1, Failed f2 s2 => f1 = f2 ∧ R s1 s2
  | Undefined, Undefined => True
  | _, _ => False
  end.

(** Two meshes with the same colour data, the same derived connectivity and
    buffers of the same lengths. *)
Definition mesh_sim (m1 m2 : Mesh) : Prop :=
  data m1 = data m2
  ∧ derived (topology m1) = derived (topology m2)
  ∧ length (connections (cell_vertex (topology m1)))
    = length (connections (cell_vertex (topology m2)))
  ∧ length (coordinates (geometry m1)) = length (coordinates (geometry m2)).

(** ** Invariants of the two loops *)

(** The state of the pass after the sweep has met the vertices [vs]. *)
Record pass_inv (m : Mesh) (st : scratch) (vs : list Z) : Prop := {
  inv_indices_length :
    length (new_vertex_indices st) = Z.to_nat (num_vertices (topology m));
  inv_connections_length :
    length (new_connections st) = length (connections (cell_vertex (topology m)));
  inv_coordinates_length :
    length (new_coordinates st) = length (coordinates (geometry m));
  inv_offset : connections_offset st = Z.of_nat (length vs);
  inv_current : current_vertex st = Z.of_nat (length (first_seen vs));
  inv_range : Forall (λ v, 0 ≤ v < num_vertices (topology m)) vs;
  inv_assigned : ∀ k v,
    first_seen vs !! k = Some v →
    new_vertex_indices st !! Z.to_nat v = Some (to_int (Z.of_nat k));
  inv_unassigned : ∀ v,
    0 ≤ v < num_vertices (topology m) → v ∉ vs →
    new_vertex_indices st !! Z.to_nat v = Some (-1);
  inv_connections : ∀ p v,
    vs !! p = Some v →
    ∃ k, first_seen vs !! k = Some v ∧ new_connections st !! p = Some (Z.of_nat k);
  inv_coordinates : ∀ k v c,
    first_seen vs !! k = Some v → (c < Z.to_nat (gdim (geometry m)))%nat →
    new_coordinates st !! (k * Z.to_nat (gdim (geometry m)) + c)%nat
    = coordinates (geometry m) !! (Z.to_nat v * Z.to_nat (gdim (geometry m)) + c)%nat
}.

(** The state of the update after the colours before [color]. *)
Record update_inv (d0 : MeshData) (ncc : list Z) (color : nat)
    (s : MeshData * Z) : Prop := {
  ui_counts : num_colored_cells (fst s) = num_colored_cells d0;
  ui_current : snd s = first_cell ncc (Z.of_nat color);
  ui_cells : first_cell ncc (Z.of_nat color)
             = Z.of_nat (length (cells_before d0 (Z.of_nat color)));
  ui_labels : first_cell ncc (Z.of_nat color)
              = Z.of_nat (length (color_labels ncc (Z.of_nat color)));
  ui_done : ∀ (c : nat) cells,
    (c < color)%nat → colored_cells d0 !! Z.of_nat c = Some cells →
    colored_cells (fst s) !! Z.of_nat c
    = Some (seqZ (first_cell ncc (Z.of_nat c)) (Z.of_nat (length cells)));
  ui_todo : ∀ c : Z,
    ¬ (0 ≤ c < Z.of_nat color) →
    colored_cells (fst s) !! c = colored_cells d0 !! c;
  ui_colors : ∃ colors0,
    cell_colors d0 = Some colors0
    ∧ cell_colors (fst s)
      = Some (color_labels ncc (Z.of_nat color)
              ++ drop (Z.to_nat (first_cell ncc (Z.of_nat color))) colors0)
}.

(** The mesh after lines 116-118. *)
Definition committed (m : Mesh) (st : scratch) : Mesh :=
  set_coordinates (set_connections (clean m) (new_connections st)) (new_coordinates st).

(** ** What a run leaves behind *)

(** The mesh that a run leaves, when the run is defined. *)
Definition final_mesh (o : outcome Mesh) : option Mesh :=
  match o with
  | Done m | Failed _ m => Some m
  | Undefined => None
  end.

(** Two colour data of the same shape: the same counts, as many labels,
    and for every colour a list of the same length. *)
Definition data_shape (d d' : MeshData) : Prop :=
  num_colored_cells d' = num_colored_cells d
  ∧ length <$> cell_colors d' = length <$> cell_colors d
  ∧ ∀ color, length <$> colored_cells d' !! color = length <$> colored_cells d !! color.

(** Two meshes of the same shape: the same dimensions and sizes, buffers of
    the same lengths, colour data of the same shape. *)
Definition same_shape (m m' : Mesh) : Prop :=
  tdim (topology m') = tdim (topology m)
  ∧ num_vertices (topology m') = num_vertices (topology m)
  ∧ num_cells (topology m') = num_cells (topology m)
  ∧ num_entities (cell_vertex (topology m')) = num_entities (cell_vertex (topology m))
  ∧ length (connections (cell_vertex (topology m')))
    = length (connections (cell_vertex (topology m)))
  ∧ gdim (geometry m') = gdim (geometry m)
  ∧ gsize (geometry m') = gsize (geometry m)
  ∧ length (coordinates (geometry m')) = length (coordinates (geometry m))
  ∧ data_shape (data m) (data m').

(** Every cell in the list of a colour carries the label of that colour. *)
Definition labels_consistent (d : MeshData) : Prop :=
  ∀ color cells cell,
    0 ≤ color < mesh_num_colors d →
    colored_cells d !! color = Some cells → cell ∈ cells →
    cell_colors d ≫= (λ labels, read labels cell) = Some color.

(** The state of the update after the colours before [color], when no
    recorded count is larger than its list: of each list as many entries
    as the count says have been renumbered. *)
Record undercount_inv (d0 : MeshData) (ncc colors0 : list Z) (color : nat)
    (s : MeshData * Z) : Prop := {
  un_counts : num_colored_cells (fst s) = num_colored_cells d0;
  un_current : snd s = first_cell ncc (Z.of_nat color);
  un_room : 0 ≤ first_cell ncc (Z.of_nat color)
            ≤ Z.of_nat (length (cells_before d0 (Z.of_nat color)));
  un_labels : first_cell ncc (Z.of_nat color)
              = Z.of_nat (length (color_labels ncc (Z.of_nat color)));
  un_done : ∀ (c : nat) cells count,
    (c < color)%nat → colored_cells d0 !! Z.of_nat c = Some cells →
    read ncc (Z.of_nat c) = Some count →
    colored_cells (fst s) !! Z.of_nat c
    = Some (seqZ (first_cell ncc (Z.of_nat c)) count ++ drop (Z.to_nat count) cells);
  un_todo : ∀ c : Z,
    ¬ (0 ≤ c < Z.of_nat color) →
    colored_cells (fst s) !! c = colored_cells d0 !! c;
  un_colors :
    cell_colors (fst s)
    = Some (color_labels ncc (Z.of_nat color)
            ++ drop (Z.to_nat (first_cell ncc (Z.of_nat color))) colors0)
}.

(** The entries of [new_connections] from [connections_offset] on are
    those of [init], the buffer as it was allocated. *)
Definition unwritten (init : list Z) (st : scratch) : Prop :=
  0 ≤ connections_offset st
  ∧ length (new_connections st) = length init
  ∧ ∀ p : nat, connections_offset st ≤ Z.of_nat p → new_connections st !! p = init !! p.

(** ** Example meshes *)

(** Two colours, three triangles on five vertices: colour 0 holds the
    cells 2 and 0, colour 1 the cell 1; cell 0 = (v0,v1,v2),
    cell 1 = (v2,v3,v4), cell 2 = (v3,v1,v0). *)
Definition scale_mesh : Mesh :=
  {| topology :=
       {| tdim := 2; num_vertices := 5; num_cells := 3;
          cell_vertex := {| connections := [0; 1; 2; 2; 3; 4; 3; 1; 0];
                            num_entities := 3 |};
          derived := {[ (1, 0) := {| connections := [0; 1; 1; 2];
                                     num_entities := 2 |} ]} |};
     geometry := {| gdim := 2; gsize := 5;
                    coordinates := [10; 11; 20; 21; 30; 31; 40; 41; 50; 51] |};
     data := {| cell_colors := Some [0; 1; 0];
                num_colored_cells := Some [2; 1];
                colored_cells := {[ 0 := [2; 0]; 1 := [1] ]} |} |}.

(** Five vertices of which the two triangles use four; the edges have been
    computed. *)
Definition lonely_vertex_mesh : Mesh :=
  {| topology :=
       {| tdim := 2; num_vertices := 5; num_cells := 2;
          cell_vertex := {| connections := [0; 1; 2; 1; 2; 3]; num_entities := 3 |};
          derived := {[ (1, 0) := {| connections := [0; 1; 1; 2; 2; 0; 2; 3; 3; 1];
                                     num_entities := 2 |} ]} |};
     geometry := {| gdim := 2; gsize := 5;
                    coordinates := [0; 0; 1; 0; 0; 1; 1; 1; 2; 2] |};
     data := {| cell_colors := Some [0; 1];
                num_colored_cells := Some [1; 1];
                colored_cells := {[ 0 := [0]; 1 := [1] ]} |} |}.

(** A mesh with colour labels, but no colour. *)
Definition zero_colors_mesh : Mesh :=
  {| topology :=
       {| tdim := 2; num_vertices := 3; num_cells := 1;
          cell_vertex := {| connections := [0; 1; 2]; num_entities := 3 |};
          derived := {[ (1, 0) := {| connections := [0; 1; 1; 2; 2; 0];
                                     num_entities := 2 |} ]} |};
     geometry := {| gdim := 2; gsize := 3; coordinates := [0; 0; 1; 0; 0; 1] |};
     data := {| cell_colors := Some [0];
                num_colored_cells := Some [];
                colored_cells := ∅ |} |}.

(** [scale_mesh] with a wrong count for the colour 1. *)
Definition miscounted_mesh : Mesh :=
  set_data scale_mesh
    {| cell_colors := Some [0; 1; 0];
       num_colored_cells := Some [2; 2];
       colored_cells := {[ 0 := [2; 0]; 1 := [1] ]} |}.

(** [scale_mesh] with the count 0 for the colour 1. *)
Definition undercounted_mesh : Mesh :=
  set_data scale_mesh
    {| cell_colors := Some [0; 1; 0];
       num_colored_cells := Some [2; 0];
       colored_cells := {[ 0 := [2; 0]; 1 := [1] ]} |}.

(** [scale_mesh] without colour labels. *)
Definition uncolored_mesh : Mesh :=
  set_data scale_mesh
    {| cell_colors := None; num_colored_cells := None; colored_cells := ∅ |}.

(** [scale_mesh] without the array of counts. *)
Definition no_counts_mesh : Mesh :=
  set_data scale_mesh
    {| cell_colors := Some [0; 1; 0];
       num_colored_cells := None;
       colored_cells := {[ 0 := [2; 0]; 1 := [1] ]} |}.

(** [scale_mesh] without the lists of its colours. *)
Definition no_lists_mesh : Mesh :=
  set_data scale_mesh
    {| cell_colors := Some [0; 1; 0];
       num_colored_cells := Some [2; 1];
       colored_cells := ∅ |}.

(** Two triangles on the same three vertices; the partition lists only the
    first. *)
Definition partial_partition_mesh : Mesh :=
  {| topology :=
       {| tdim := 2; num_vertices := 3; num_cells := 2;
          cell_vertex := {| connections := [0; 1; 2; 2; 1; 0]; num_entities := 3 |};
          derived := ∅ |};
     geometry := {| gdim := 2; gsize := 3; coordinates := [0; 0; 1; 0; 0; 1] |};
     data := {| cell_colors := Some [0; 0];
                num_colored_cells := Some [1];
                colored_cells := {[ 0 := [0] ]} |} |}.

(** [scale_mesh] without the list of the colour 1. *)
Definition missing_list_mesh : Mesh :=
  set_data scale_mesh
    {| cell_colors := Some [0; 1; 0];
       num_colored_cells := Some [2; 1];
       colored_cells := {[ 0 := [2; 0] ]} |}.

(** [scale_mesh] after the renumbering. *)
Definition scale_mesh_renumbered : Mesh :=
  {| topology :=
       {| tdim := 2; num_vertices := 5; num_cells := 3;
          cell_vertex := {| connections := [0; 1; 2; 2; 1; 3; 3; 0; 4];
                            num_entities := 3 |};
          derived := ∅ |};
     geometry := {| gdim := 2; gsize := 5;
                    coordinates := [40; 41; 20; 21; 10; 11; 30; 31; 50; 51] |};
     data := {| cell_colors := Some [0; 0; 1];
                num_colored_cells := Some [2; 1];
                colored_cells := {[ 0 := [0; 1]; 1 := [2] ]} |} |}.

(** * Properties

    In the statements [nd] is the value of [NDEBUG], and [ju] and [jd] are
    what the two temporaries hold when they are allocated. *)

(** A decidable statement about concrete meshes, by computation. *)
Ltac by_computation := apply (bool_decide_unpack _); vm_compute; exact I.

(** ** Machine integers *)

Lemma to_uint_small z : 0 ≤ z < 2 ^ 32 → to_uint z = z.
Proof. intros. unfold to_uint. by rewrite Z.mod_small. Qed.

Lemma to_uint_to_int z : 0 ≤ z < 2 ^ 32 → to_uint (to_int z) = z.
Proof.
  intros Hz. unfold to_uint, to_int. rewrite (Z.mod_small z) by done.
  case_decide.
  - by rewrite Z.mod_small.
  - replace (z - 2 ^ 32) with (z + (-1) * 2 ^ 32) by lia.
    rewrite Z.mod_add by lia. by rewrite Z.mod_small.
Qed.

Lemma to_int_small z : 0 ≤ z < 2 ^ 31 → to_int z = z.
Proof.
  intros Hz. unfold to_int. rewrite (Z.mod_small z) by lia. by rewrite decide_True by lia.
Qed.

(** The sentinel is not the image of an index below [2^32 - 1]. *)
Lemma to_int_sentinel z : 0 ≤ z < 2 ^ 32 - 1 → to_int z ≠ -1.
Proof.
  intros Hz. unfold to_int. rewrite (Z.mod_small z) by lia.
  case_decide; lia.
Qed.

(** ** Arrays *)

Lemma read_Some {A} (a : list A) i x :
  read a i = Some x ↔ 0 ≤ i ∧ a !! Z.to_nat i = Some x.
Proof. unfold read. case_decide; [tauto|]. split; [done|tauto]. Qed.

Lemma read_of_nat {A} (a : list A) (i : nat) : read a (Z.of_nat i) = a !! i.
Proof. unfold read. rewrite decide_True by lia. by rewrite Nat2Z.id. Qed.

Lemma write_Some {A} (a : list A) i x a' :
  write a i x = Some a' ↔ (0 ≤ i < Z.of_nat (length a)) ∧ a' = <[Z.to_nat i := x]> a.
Proof.
  unfold write. case_decide.
  - split; [intros [= <-]; done|intros [_ ->]; done].
  - split; [done|tauto].
Qed.

Lemma write_of_nat {A} (a : list A) (i : nat) x :
  (i < length a)%nat → write a (Z.of_nat i) x = Some (<[i := x]> a).
Proof. intros. unfold write. rewrite decide_True by lia. by rewrite Nat2Z.id. Qed.

(** Copying a whole array over an array of the same length. *)
Lemma std_copy_all {A} (src dst : list A) :
  length src = length dst →
  std_copy src 0 (Z.of_nat (length src)) dst 0 = Some src.
Proof.
  intros Hlen. unfold std_copy. rewrite decide_True by lia.
  rewrite Z.sub_0_r, Z.add_0_l, Nat2Z.id.
  change (Z.to_nat 0) with 0%nat. rewrite take_0, drop_0. simpl.
  rewrite take_ge by done. rewrite drop_ge by lia. by rewrite app_nil_r.
Qed.

(** Copying [len] entries from [first] to [out], position by position. *)
Lemma std_copy_range {A} (src dst : list A) (first len out : nat) :
  (first + len ≤ length src)%nat → (out + len ≤ length dst)%nat →
  ∃ dst',
    std_copy src (Z.of_nat first) (Z.of_nat (first + len)) dst (Z.of_nat out) = Some dst'
    ∧ length dst' = length dst
    ∧ (∀ i, (i < len)%nat → dst' !! (out + i)%nat = src !! (first + i)%nat)
    ∧ (∀ i, (i < out)%nat → dst' !! i = dst !! i).
Proof.
  intros Hsrc Hdst. eexists. split.
  { unfold std_copy. rewrite decide_True by lia. reflexivity. }
  replace (Z.of_nat (first + len) - Z.of_nat first) with (Z.of_nat len) by lia.
  replace (Z.of_nat out + Z.of_nat len) with (Z.of_nat (out + len)) by lia.
  rewrite !Nat2Z.id.
  assert (length (take out dst) = out) as Hout by (rewrite length_take; lia).
  assert (length (take len (drop first src)) = len) as Hmid
    by (rewrite length_take, length_drop; lia).
  split; [|split].
  - rewrite !length_app, Hout, Hmid, length_drop. lia.
  - intros i Hi. rewrite lookup_app_r by lia. rewrite Hout.
    replace (out + i - out)%nat with i by lia.
    rewrite lookup_app_l by lia. rewrite lookup_take_lt by done.
    by rewrite lookup_drop.
  - intros i Hi. rewrite lookup_app_l by lia. by rewrite lookup_take_lt.
Qed.

(** ** Loops *)

Lemma for_each_app {S A} (body : S → A → outcome S) s l1 l2 :
  for_each body s (l1 ++ l2)
  = match for_each body s l1 with
    | Done s' => for_each body s' l2
    | o => o
    end.
Proof.
  revert s. induction l1 as [|x l1 IH]; intros s; simpl; [done|].
  destruct (body s x); auto.
Qed.

(** A loop whose body keeps an invariant that is indexed by the work done
    so far ends normally, in a state that satisfies it. *)
Lemma for_each_invariant {S A B} (body : S → A → outcome S)
    (I : S → list B → Prop) (work : A → list B) (P : list B → A → Prop) l :
  (∀ s done x, I s done → P done x →
     ∃ s', body s x = Done s' ∧ I s' (done ++ work x)) →
  ∀ s done,
    I s done →
    (∀ l1 x l2, l = l1 ++ x :: l2 → P (done ++ mjoin (work <$> l1)) x) →
    ∃ s', for_each body s l = Done s' ∧ I s' (done ++ mjoin (work <$> l)).
Proof.
  intros Hbody. induction l as [|x l IH]; intros s done HI HP; simpl.
  { exists s. by rewrite app_nil_r. }
  destruct (Hbody s done x HI) as (s' & -> & HI').
  { specialize (HP [] x l eq_refl). by rewrite app_nil_r in HP. }
  destruct (IH s' (done ++ work x) HI') as (s'' & -> & HI'').
  { intros l1 y l2 ->. specialize (HP (x :: l1) y l2 eq_refl).
    by rewrite <-(assoc_L (++)). }
  exists s''. split; [done|]. by rewrite (assoc_L (++)).
Qed.

(** ** First occurrences *)

Lemma first_seen_snoc vs v :
  first_seen (vs ++ [v])
  = if decide (v ∈ first_seen vs) then first_seen vs else first_seen vs ++ [v].
Proof. unfold first_seen. by rewrite foldl_snoc. Qed.

Lemma elem_of_first_seen vs v : v ∈ first_seen vs ↔ v ∈ vs.
Proof.
  induction vs as [|x vs IH] using rev_ind.
  { done. }
  rewrite first_seen_snoc. case_decide; set_solver.
Qed.

Lemma NoDup_first_seen vs : NoDup (first_seen vs).
Proof.
  induction vs as [|x vs IH] using rev_ind.
  { constructor. }
  rewrite first_seen_snoc. case_decide; [done|].
  apply NoDup_app. split_and!; [done| |apply NoDup_singleton].
  intros y Hy ->%list_elem_of_singleton. done.
Qed.

(** A list without repetitions of numbers below [n] has at most [n]
    entries. *)
Lemma NoDup_below_length (l : list Z) n :
  NoDup l → Forall (λ x, 0 ≤ x < n) l → Z.of_nat (length l) ≤ Z.max 0 n.
Proof.
  intros Hnd Hl.
  assert (l ⊆+ seqZ 0 n) as Hsub.
  { apply NoDup_submseteq; [done|]. intros x Hx. apply elem_of_seqZ.
    rewrite Forall_forall in Hl. specialize (Hl x Hx). lia. }
  apply submseteq_length in Hsub. rewrite length_seqZ in Hsub. lia.
Qed.

(** ** The vertex pass *)

Lemma first_seen_length_le m vs :
  Forall (λ v, 0 ≤ v < num_vertices (topology m)) vs →
  Z.of_nat (length (first_seen vs)) ≤ Z.max 0 (num_vertices (topology m)).
Proof.
  intros Hvs. apply NoDup_below_length; [apply NoDup_first_seen|].
  rewrite Forall_forall in Hvs |- *. intros x Hx. apply Hvs.
  by apply elem_of_first_seen.
Qed.

Lemma pass_inv_allocate ju jd m : wf_geometry m → pass_inv m (allocate ju jd m) [].
Proof.
  intros (Hn & Hd & Hgs & Hnd & Hlen). constructor; simpl.
  - by rewrite length_replicate.
  - rewrite length_fmap, length_seq. unfold _size. lia.
  - rewrite length_fmap, length_seq, Hgs, to_uint_small by lia. lia.
  - done.
  - done.
  - constructor.
  - intros k v Hk. change (first_seen []) with (@nil Z) in Hk.
    by rewrite lookup_nil in Hk.
  - intros v Hv _. apply lookup_replicate_2. lia.
  - intros p v Hp. by rewrite lookup_nil in Hp.
  - intros k v c Hk. change (first_seen []) with (@nil Z) in Hk.
    by rewrite lookup_nil in Hk.
Qed.

(** A vertex that the sweep has met before: only the connectivity slot is
    written. *)
Lemma renumber_vertex_seen m st vs v :
  wf_geometry m → pass_inv m st vs → v ∈ vs →
  (length vs < length (connections (cell_vertex (topology m))))%nat →
  _size (cell_vertex (topology m)) < 2 ^ 32 →
  ∃ st', renumber_vertex m st v = Done st' ∧ pass_inv m st' (vs ++ [v]).
Proof.
  intros (Hn & Hd & Hgs & Hnd & Hlen) Hinv Hin Hoff Hsz.
  pose proof (first_seen_length_le m vs (inv_range _ _ _ Hinv)) as Hle.
  assert (0 ≤ v < num_vertices (topology m)) as Hv.
  { pose proof (inv_range _ _ _ Hinv) as Hr. rewrite Forall_forall in Hr. auto. }
  pose proof Hin as Hin'. apply elem_of_first_seen, list_elem_of_lookup in Hin' as [k Hk].
  pose proof (lookup_lt_Some _ _ _ Hk) as Hklt.
  pose proof (inv_assigned _ _ _ Hinv k v Hk) as Hnvi.
  assert (read (new_vertex_indices st) v = Some (to_int (Z.of_nat k))) as Hread.
  { apply read_Some. split; [lia|done]. }
  unfold renumber_vertex. rewrite Hread.
  rewrite decide_False by (apply to_int_sentinel; lia).
  unfold new_vertex_index. rewrite Hread. simpl.
  rewrite to_uint_to_int by lia.
  rewrite (inv_offset _ _ _ Hinv).
  rewrite write_of_nat by (rewrite (inv_connections_length _ _ _ Hinv); done).
  eexists. split; [reflexivity|].
  assert (first_seen (vs ++ [v]) = first_seen vs) as Hfs.
  { rewrite first_seen_snoc. rewrite decide_True; [done|]. by apply elem_of_first_seen. }
  unfold _size in Hsz.
  constructor; simpl; rewrite ?Hfs.
  - apply Hinv.
  - rewrite length_insert. apply Hinv.
  - apply Hinv.
  - rewrite length_app. simpl. rewrite to_uint_small by lia. lia.
  - apply Hinv.
  - apply Forall_app. split; [apply Hinv|]. by constructor.
  - apply Hinv.
  - intros u Hu Hnin. apply Hinv; [done|]. set_solver.
  - intros p u Hp. apply lookup_app_Some in Hp as [Hp|[Hge Hp]].
    + destruct (inv_connections _ _ _ Hinv p u Hp) as (k' & Hk' & Hc).
      exists k'. split; [done|]. rewrite list_lookup_insert_ne; [done|].
      apply lookup_lt_Some in Hp. lia.
    + apply list_lookup_singleton_Some in Hp as [Hp <-].
      exists k. split; [done|].
      replace p with (length vs) by lia.
      apply list_lookup_insert_eq. rewrite (inv_connections_length _ _ _ Hinv). done.
  - apply Hinv.
Qed.

(** A vertex that the sweep meets for the first time: it gets the next
    index and its coordinates are copied. *)
Lemma renumber_vertex_new m st vs v :
  wf_geometry m → pass_inv m st vs →
  0 ≤ v < num_vertices (topology m) → v ∉ vs →
  (length vs < length (connections (cell_vertex (topology m))))%nat →
  _size (cell_vertex (topology m)) < 2 ^ 32 →
  ∃ st', renumber_vertex m st v = Done st' ∧ pass_inv m st' (vs ++ [v]).
Proof.
  intros (Hn & Hd & Hgs & Hnd & Hlen) Hinv Hv Hnin Hoff Hsz.
  assert (first_seen (vs ++ [v]) = first_seen vs ++ [v]) as Hfs.
  { rewrite first_seen_snoc. rewrite decide_False; [done|]. by rewrite elem_of_first_seen. }
  assert (Forall (λ v, 0 ≤ v < num_vertices (topology m)) (vs ++ [v])) as Hrange.
  { apply Forall_app. split; [apply Hinv|]. by constructor. }
  pose proof (first_seen_length_le m _ Hrange) as Hle.
  rewrite Hfs, length_app in Hle. simpl in Hle.
  set (cur := length (first_seen vs)) in *.
  set (dn := Z.to_nat (gdim (geometry m))).
  assert (gdim (geometry m) = Z.of_nat dn) as Hdn by lia.
  assert (read (new_vertex_indices st) v = Some (-1)) as Hread.
  { apply read_Some. split; [lia|]. by apply Hinv. }
  destruct (std_copy_range (coordinates (geometry m)) (new_coordinates st)
              (Z.to_nat v * dn) dn (cur * dn))
    as (nc & Hcopy & Hnclen & Hncnew & Hncold).
  { nia. }
  { rewrite (inv_coordinates_length _ _ _ Hinv). nia. }
  assert (to_uint (v * gdim (geometry m)) = Z.of_nat (Z.to_nat v * dn)) as Hfirst.
  { rewrite to_uint_small; nia. }
  assert (to_uint ((v + 1) * gdim (geometry m)) = Z.of_nat (Z.to_nat v * dn + dn)) as Hlast.
  { rewrite to_uint_small; nia. }
  assert (to_uint (Z.of_nat cur * gdim (geometry m)) = Z.of_nat (cur * dn)) as Hout.
  { rewrite to_uint_small; nia. }
  unfold renumber_vertex. rewrite Hread. rewrite decide_True by done.
  rewrite (inv_current _ _ _ Hinv). fold cur.
  rewrite Hfirst, Hlast, Hout, Hcopy.
  assert (write (new_vertex_indices st) v (to_int (Z.of_nat cur))
          = Some (<[Z.to_nat v := to_int (Z.of_nat cur)]> (new_vertex_indices st))) as ->.
  { apply write_Some. split; [|done]. rewrite (inv_indices_length _ _ _ Hinv). lia. }
  unfold new_vertex_index. simpl.
  assert (read (<[Z.to_nat v := to_int (Z.of_nat cur)]> (new_vertex_indices st)) v
          = Some (to_int (Z.of_nat cur))) as ->.
  { apply read_Some. split; [lia|]. apply list_lookup_insert_eq.
    rewrite (inv_indices_length _ _ _ Hinv). lia. }
  simpl. rewrite to_uint_to_int by lia.
  rewrite (inv_offset _ _ _ Hinv).
  rewrite write_of_nat by (rewrite (inv_connections_length _ _ _ Hinv); done).
  eexists. split; [reflexivity|].
  unfold _size in Hsz.
  constructor; simpl; rewrite ?Hfs.
  - rewrite length_insert. apply Hinv.
  - rewrite length_insert. apply Hinv.
  - rewrite Hnclen. apply Hinv.
  - rewrite length_app. simpl. rewrite to_uint_small by lia. lia.
  - rewrite length_app. simpl. fold cur. rewrite to_uint_small by lia. lia.
  - done.
  - intros k u Hk. apply lookup_app_Some in Hk as [Hk|[Hge Hk]].
    + assert (u ∈ vs) as Hu by (apply elem_of_first_seen; by eapply list_elem_of_lookup_2).
      assert (0 ≤ u) as Hu0.
      { pose proof (inv_range _ _ _ Hinv) as Hr. rewrite Forall_forall in Hr.
        specialize (Hr u Hu). lia. }
      rewrite list_lookup_insert_ne.
      * by apply Hinv.
      * intros Heq. apply Hnin. by replace v with u by lia.
    + apply list_lookup_singleton_Some in Hk as [Hk <-].
      fold cur in Hge, Hk. replace k with cur by lia.
      apply list_lookup_insert_eq. rewrite (inv_indices_length _ _ _ Hinv). lia.
  - intros u Hu Hunin. rewrite list_lookup_insert_ne.
    + apply Hinv; [done|]. set_solver.
    + intros Heq. apply Hunin. apply elem_of_app. right.
      apply list_elem_of_singleton. lia.
  - intros p u Hp. apply lookup_app_Some in Hp as [Hp|[Hge Hp]].
    + destruct (inv_connections _ _ _ Hinv p u Hp) as (k & Hk & Hc).
      exists k. split; [by apply lookup_app_l_Some|].
      rewrite list_lookup_insert_ne; [done|]. apply lookup_lt_Some in Hp. lia.
    + apply list_lookup_singleton_Some in Hp as [Hp <-].
      exists cur. split.
      * by rewrite lookup_app_r, Nat.sub_diag.
      * replace p with (length vs) by lia. apply list_lookup_insert_eq.
        rewrite (inv_connections_length _ _ _ Hinv). done.
  - intros k u c Hk Hc. fold dn in Hc |- *.
    apply lookup_app_Some in Hk as [Hk|[Hge Hk]].
    + rewrite Hncold.
      * by apply Hinv.
      * apply lookup_lt_Some in Hk. fold cur in Hk. nia.
    + apply list_lookup_singleton_Some in Hk as [Hk <-].
      fold cur in Hge, Hk. replace k with cur by lia. by apply Hncnew.
Qed.

Lemma renumber_vertex_spec m st vs v :
  wf_geometry m → pass_inv m st vs →
  0 ≤ v < num_vertices (topology m) →
  (length vs < length (connections (cell_vertex (topology m))))%nat →
  _size (cell_vertex (topology m)) < 2 ^ 32 →
  ∃ st', renumber_vertex m st v = Done st' ∧ pass_inv m st' (vs ++ [v]).
Proof.
  intros. destruct (decide (v ∈ vs)).
  - by apply renumber_vertex_seen.
  - by apply renumber_vertex_new.
Qed.

Lemma mjoin_singletons {A} (l : list A) : mjoin ((λ x, [x]) <$> l) = l.
Proof. induction l as [|x l IH]; [done|]. csimpl. by rewrite IH. Qed.

Lemma mjoin_fmap_mjoin {A B} (f : A → list B) (ls : list (list A)) :
  mjoin (f <$> mjoin ls) = mjoin ((λ l, mjoin (f <$> l)) <$> ls).
Proof.
  induction ls as [|l ls IH]; [done|]. csimpl.
  by rewrite fmap_app, join_app, IH.
Qed.

(** A loop that reads its items through an index runs like the loop over
    the items, as long as every read is in range. *)
Lemma for_each_read {S A} (f : Z → option A) (body : S → A → outcome S) s js xs :
  f <$> js = Some <$> xs →
  for_each (λ s j, match f j with None => Undefined | Some x => body s x end) s js
  = for_each body s xs.
Proof.
  revert s xs. induction js as [|j js IH]; intros s [|x xs] Heq; try done.
  simpl in *. injection Heq as Hj Hjs. rewrite Hj.
  destruct (body s x); auto.
Qed.

Lemma cell_tuple_length m cell :
  wf_connectivity m → 0 ≤ cell < num_cells (topology m) →
  length (cell_tuple (cell_vertex (topology m)) cell)
  = Z.to_nat (num_entities (cell_vertex (topology m))).
Proof.
  intros (Hnc & Ha & Hsz & Hlt & Hconn) Hcell. unfold cell_tuple, _size in *.
  rewrite length_take, length_drop. nia.
Qed.

Lemma cell_tuple_lookup m cell (j : nat) :
  wf_connectivity m → 0 ≤ cell < num_cells (topology m) →
  Z.of_nat j < num_entities (cell_vertex (topology m)) →
  cell_tuple (cell_vertex (topology m)) cell !! j
  = cell_vertices (cell_vertex (topology m)) cell (Z.of_nat j)
  ∧ is_Some (cell_tuple (cell_vertex (topology m)) cell !! j).
Proof.
  intros Hwf Hcell Hj. pose proof (cell_tuple_length m cell Hwf Hcell) as Hlen.
  destruct Hwf as (Hnc & Ha & Hsz & Hlt & Hconn).
  split; [|apply lookup_lt_is_Some; lia].
  unfold cell_tuple, cell_vertices, read.
  rewrite decide_True by nia.
  rewrite lookup_take_lt by lia. rewrite lookup_drop. f_equal. nia.
Qed.

Lemma cell_tuple_range m cell :
  wf_connectivity m →
  Forall (λ v, 0 ≤ v < num_vertices (topology m))
    (cell_tuple (cell_vertex (topology m)) cell).
Proof.
  intros (Hnc & Ha & Hsz & Hlt & Hconn). unfold cell_tuple.
  by apply Forall_take, Forall_drop.
Qed.

Lemma cell_vertices_tuple m cell :
  wf_connectivity m → 0 ≤ cell < num_cells (topology m) →
  cell_vertices (cell_vertex (topology m)) cell
    <$> seqZ 0 (num_entities (cell_vertex (topology m)))
  = Some <$> cell_tuple (cell_vertex (topology m)) cell.
Proof.
  intros Hwf Hcell. apply list_eq. intros j. rewrite !list_lookup_fmap.
  destruct (decide (Z.of_nat j < num_entities (cell_vertex (topology m)))) as [Hj|Hj].
  - rewrite lookup_seqZ_lt by done. simpl.
    destruct (cell_tuple_lookup m cell j Hwf Hcell Hj) as [Heq [v Hv]].
    rewrite Z.add_0_l, <-Heq, Hv. done.
  - rewrite lookup_seqZ_ge by lia.
    rewrite lookup_ge_None_2; [done|]. rewrite cell_tuple_length by done. lia.
Qed.

(** One cell: the sweep meets the vertices of the cell. *)
Lemma renumber_cell_spec m st vs cell :
  wf_geometry m → wf_connectivity m → pass_inv m st vs →
  0 ≤ cell < num_cells (topology m) →
  (length vs + length (cell_tuple (cell_vertex (topology m)) cell)
   ≤ length (connections (cell_vertex (topology m))))%nat →
  ∃ st', renumber_cell m st cell = Done st'
         ∧ pass_inv m st' (vs ++ cell_tuple (cell_vertex (topology m)) cell).
Proof.
  intros Hg Hc Hinv Hcell Hroom. unfold renumber_cell.
  rewrite (for_each_read _ _ _ _ _ (cell_vertices_tuple m cell Hc Hcell)).
  pose proof (cell_tuple_range m cell Hc) as Hrange.
  set (tuple := cell_tuple (cell_vertex (topology m)) cell) in *.
  destruct (for_each_invariant (renumber_vertex m) (pass_inv m) (λ v, [v])
              (λ done v, 0 ≤ v < num_vertices (topology m)
                         ∧ (length done
                            < length (connections (cell_vertex (topology m))))%nat)
              tuple) with (s := st) (done := vs) as (st' & Hrun & Hinv'); [|done| |].
  - intros s done v Hs [Hv Hlt]. apply renumber_vertex_spec; try done.
    by destruct Hc as (_ & _ & _ & ? & _).
  - intros l1 v l2 Heq. split.
    + rewrite Forall_forall in Hrange. apply Hrange. rewrite Heq. set_solver.
    + rewrite mjoin_singletons, length_app. rewrite Heq, length_app in Hroom.
      simpl in Hroom. lia.
  - exists st'. split; [done|]. by rewrite mjoin_singletons in Hinv'.
Qed.

(** One colour: the sweep meets the vertices of its cells, cell by cell. *)
Lemma renumber_color_spec nd m st vs color cells :
  wf_geometry m → wf_connectivity m → pass_inv m st vs →
  colored_cells (data m) !! color = Some cells →
  Forall (λ c, 0 ≤ c < num_cells (topology m)) cells →
  (length vs + length (mjoin (cell_tuple (cell_vertex (topology m)) <$> cells))
   ≤ length (connections (cell_vertex (topology m))))%nat →
  ∃ st', renumber_color nd m st color = Done st'
         ∧ pass_inv m st' (vs ++ mjoin (cell_tuple (cell_vertex (topology m)) <$> cells)).
Proof.
  intros Hg Hc Hinv Hcells Hrange Hroom. unfold renumber_color. rewrite Hcells.
  apply (for_each_invariant (renumber_cell m) (pass_inv m)
           (cell_tuple (cell_vertex (topology m)))
           (λ done c, 0 ≤ c < num_cells (topology m)
                      ∧ (length done + length (cell_tuple (cell_vertex (topology m)) c)
                         ≤ length (connections (cell_vertex (topology m))))%nat));
    [|done|].
  - intros s done c Hs [Hcell Hlt]. by apply renumber_cell_spec.
  - intros l1 c l2 Heq. split.
    + rewrite Forall_forall in Hrange. apply Hrange. rewrite Heq. set_solver.
    + rewrite Heq, fmap_app, join_app, fmap_cons, !length_app in Hroom.
      csimpl in Hroom. rewrite !length_app in Hroom. rewrite length_app. lia.
Qed.

(** ** The whole sweep *)

Lemma sweep_vertices_colors m :
  sweep_vertices m
  = mjoin ((λ color, mjoin (cell_tuple (cell_vertex (topology m))
                              <$> color_cells (data m) color))
             <$> seqZ 0 (mesh_num_colors (data m))).
Proof.
  unfold sweep_vertices, sweep_cells. rewrite mjoin_fmap_mjoin.
  by rewrite <-list_fmap_compose.
Qed.

Lemma cell_tuples_length m cells :
  wf_connectivity m → Forall (λ c, 0 ≤ c < num_cells (topology m)) cells →
  length (mjoin (cell_tuple (cell_vertex (topology m)) <$> cells))
  = (length cells * Z.to_nat (num_entities (cell_vertex (topology m))))%nat.
Proof.
  intros Hc Hcells. induction Hcells as [|c cells Hcell _ IH]; [done|].
  csimpl. rewrite length_app, IH, cell_tuple_length by done. lia.
Qed.

Lemma sweep_cells_length_le m :
  wf_colored_mesh m → Z.of_nat (length (sweep_cells m)) ≤ num_cells (topology m).
Proof.
  intros (_ & (Hnc & _) & (_ & _ & _ & _ & Hnd & Hrange)).
  pose proof (NoDup_below_length _ _ Hnd Hrange). lia.
Qed.

Lemma sweep_vertices_length m :
  wf_colored_mesh m →
  length (sweep_vertices m)
  = (length (sweep_cells m) * Z.to_nat (num_entities (cell_vertex (topology m))))%nat.
Proof.
  intros (_ & Hc & (_ & _ & _ & _ & _ & Hrange)). by apply cell_tuples_length.
Qed.

Lemma sweep_vertices_length_le m :
  wf_colored_mesh m →
  (length (sweep_vertices m) ≤ length (connections (cell_vertex (topology m))))%nat.
Proof.
  intros Hwf. rewrite sweep_vertices_length by done.
  pose proof (sweep_cells_length_le m Hwf).
  destruct Hwf as (_ & (Hnc & Ha & Hsz & _) & _). unfold _size in Hsz. nia.
Qed.

(** On a well-formed coloured mesh the sweep ends normally, having met the
    vertices of [sweep_vertices]. *)
Lemma renumber_vertices_spec nd ju jd m :
  wf_colored_mesh m →
  ∃ st, renumber_vertices nd ju jd m (mesh_num_colors (data m)) = Done st
        ∧ pass_inv m st (sweep_vertices m).
Proof.
  intros Hwf. pose proof (sweep_vertices_length_le m Hwf) as Hroom.
  pose proof Hwf as (Hg & Hc & (Hcols & Hncc & Hpos & Hlists & Hnd & Hrange)).
  unfold renumber_vertices.
  set (work := λ color, mjoin (cell_tuple (cell_vertex (topology m))
                                 <$> color_cells (data m) color)).
  destruct (for_each_invariant (renumber_color nd m) (pass_inv m) work
              (λ done color,
                 is_Some (colored_cells (data m) !! color)
                 ∧ Forall (λ c, 0 ≤ c < num_cells (topology m))
                     (color_cells (data m) color)
                 ∧ (length done + length (work color)
                    ≤ length (connections (cell_vertex (topology m))))%nat)
              (seqZ 0 (mesh_num_colors (data m))))
    with (s := allocate ju jd m) (done := @nil Z) as (st & Hrun & Hinv).
  - intros s done color Hs ([cells Hcells] & Hcr & Hlen).
    unfold work, color_cells in *. rewrite Hcells in *. simpl in *.
    by eapply renumber_color_spec.
  - by apply pass_inv_allocate.
  - intros l1 color l2 Heq. split_and!.
    + rewrite Forall_forall in Hlists. apply Hlists. rewrite Heq. set_solver.
    + unfold sweep_cells in Hrange. rewrite Heq, fmap_app, join_app in Hrange.
      csimpl in Hrange. by apply Forall_app in Hrange as [_ [? _]%Forall_app].
    + rewrite sweep_vertices_colors in Hroom. fold work in Hroom.
      rewrite Heq, fmap_app, join_app in Hroom. csimpl in Hroom.
      rewrite !length_app in Hroom. simpl. lia.
  - exists st. split; [done|]. by rewrite sweep_vertices_colors.
Qed.

(** The completeness check passes exactly when the sweep has met every
    vertex. *)
Lemma all_renumbered_spec m st vs :
  wf_geometry m → pass_inv m st vs →
  all_renumbered st = true
  ↔ Forall (λ v, v ∈ vs) (seqZ 0 (num_vertices (topology m))).
Proof.
  intros (Hn & _) Hinv. unfold all_renumbered. rewrite bool_decide_eq_true.
  rewrite Forall_forall. split.
  - intros Hall v Hv%elem_of_seqZ. destruct (decide (v ∈ vs)) as [|Hnin]; [done|].
    exfalso. apply Hall. eapply list_elem_of_lookup_2.
    apply (inv_unassigned _ _ _ Hinv v); [lia|done].
  - intros Hall [i Hi]%list_elem_of_lookup_1.
    pose proof (lookup_lt_Some _ _ _ Hi) as Hlt.
    rewrite (inv_indices_length _ _ _ Hinv) in Hlt.
    assert (Z.of_nat i ∈ vs) as Hin by (apply Hall, elem_of_seqZ; lia).
    apply elem_of_first_seen, list_elem_of_lookup_1 in Hin as [k Hk].
    pose proof (inv_assigned _ _ _ Hinv k _ Hk) as Hnvi.
    rewrite Nat2Z.id, Hi in Hnvi. injection Hnvi as Hnvi.
    pose proof (first_seen_length_le m vs (inv_range _ _ _ Hinv)).
    apply lookup_lt_Some in Hk.
    symmetry in Hnvi. revert Hnvi. apply to_int_sentinel. lia.
Qed.

(** ** The update of the colour data *)

Lemma insert_seqZ_drop (cells : list Z) (start : Z) (k : nat) :
  (k < length cells)%nat →
  <[k := start + Z.of_nat k]> (seqZ start (Z.of_nat k) ++ drop k cells)
  = seqZ start (Z.of_nat (S k)) ++ drop (S k) cells.
Proof.
  intros Hk. destruct (lookup_lt_is_Some_2 cells k Hk) as [y Hy].
  rewrite insert_app_r_alt by (rewrite length_seqZ; lia).
  rewrite length_seqZ, Nat2Z.id, Nat.sub_diag.
  rewrite (drop_S _ _ _ Hy). simpl.
  by rewrite seqZ_S, <-(assoc_L (++)).
Qed.

Lemma insert_replicate_drop (colors : list Z) (start k : nat) (color : Z) :
  (start + k < length colors)%nat →
  <[(start + k)%nat := color]>
    (take start colors ++ replicate k color ++ drop (start + k) colors)
  = take start colors ++ replicate (S k) color ++ drop (start + S k) colors.
Proof.
  intros Hk. destruct (lookup_lt_is_Some_2 colors _ Hk) as [y Hy].
  assert (length (take start colors) = start) as Hlen by (rewrite length_take; lia).
  rewrite insert_app_r_alt by lia. rewrite Hlen.
  replace (start + k - start)%nat with (length (replicate k color) + 0)%nat
    by (rewrite length_replicate; lia).
  rewrite insert_app_r. rewrite (drop_S _ _ _ Hy). simpl.
  replace (start + S k)%nat with (S (start + k)) by lia.
  f_equal. by rewrite app_comm_cons, replicate_cons_app, <-(assoc_L (++)).
Qed.

(** Lines 129-134: the cells of one colour get consecutive numbers, and
    these numbers get the colour. *)
Lemma update_cells_spec color d (start : nat) cells colors (k : nat) :
  colored_cells d !! color = Some cells →
  cell_colors d = Some colors →
  (k ≤ length cells)%nat → (start + k ≤ length colors)%nat →
  Z.of_nat (start + k) < 2 ^ 32 →
  for_each (update_cell color) (d, Z.of_nat start) (seqZ 0 (Z.of_nat k))
  = Done ({| cell_colors :=
               Some (take start colors ++ replicate k color ++ drop (start + k) colors);
             num_colored_cells := num_colored_cells d;
             colored_cells :=
               <[color := seqZ (Z.of_nat start) (Z.of_nat k) ++ drop k cells]>
                 (colored_cells d) |},
          Z.of_nat (start + k)).
Proof.
  intros Hcells Hcolors. induction k as [|k IH]; intros Hk Hroom Hlt.
  - simpl. destruct d as [cc ncc cells_map]. simpl in *. subst cc.
    rewrite Nat.add_0_r, take_drop, drop_0. simpl.
    by rewrite insert_id.
  - rewrite seqZ_S, for_each_app, IH by lia.
    cbn [for_each]. unfold update_cell.
    cbn [colored_cells cell_colors num_colored_cells]. rewrite Z.add_0_l.
    rewrite lookup_insert_eq.
    assert (write (seqZ (Z.of_nat start) (Z.of_nat k) ++ drop k cells)
              (Z.of_nat k) (Z.of_nat (start + k))
            = Some (seqZ (Z.of_nat start) (Z.of_nat (S k)) ++ drop (S k) cells)) as ->.
    { rewrite write_of_nat by (rewrite length_app, length_seqZ, length_drop; lia).
      replace (Z.of_nat (start + k)) with (Z.of_nat start + Z.of_nat k) by lia.
      by rewrite insert_seqZ_drop by lia. }
    rewrite write_of_nat
      by (rewrite !length_app, length_take, length_replicate, length_drop; lia).
    rewrite insert_replicate_drop by lia.
    rewrite insert_insert_eq, to_uint_small by lia.
    do 2 f_equal. lia.
Qed.

Lemma foldr_add_acc (l : list Z) a : foldr Z.add a l = foldr Z.add 0 l + a.
Proof. induction l as [|x l IH]; simpl; lia. Qed.

Lemma first_cell_S ncc (c : nat) count :
  read ncc (Z.of_nat c) = Some count →
  first_cell ncc (Z.of_nat (S c)) = first_cell ncc (Z.of_nat c) + count.
Proof.
  rewrite read_of_nat. intros Hc. unfold first_cell. rewrite !Nat2Z.id.
  rewrite (take_S_r _ _ _ Hc), foldr_app. simpl.
  rewrite foldr_add_acc. lia.
Qed.

Lemma cells_before_S d (c : nat) :
  cells_before d (Z.of_nat (S c))
  = cells_before d (Z.of_nat c) ++ color_cells d (Z.of_nat c).
Proof.
  unfold cells_before. rewrite seqZ_S, fmap_app, join_app. csimpl.
  by rewrite app_nil_r.
Qed.

Lemma color_labels_S ncc (c : nat) :
  color_labels ncc (Z.of_nat (S c))
  = color_labels ncc (Z.of_nat c)
    ++ replicate (Z.to_nat (default 0 (read ncc (Z.of_nat c)))) (Z.of_nat c).
Proof.
  unfold color_labels. rewrite seqZ_S, fmap_app, join_app. csimpl.
  by rewrite app_nil_r.
Qed.

Lemma counts_match_below_S d ncc (c : nat) :
  counts_match_below d ncc (Z.of_nat (S c))
  ↔ counts_match_below d ncc (Z.of_nat c)
    ∧ (Z.of_nat ∘ length) <$> colored_cells d !! Z.of_nat c = read ncc (Z.of_nat c).
Proof.
  unfold counts_match_below. rewrite seqZ_S, Forall_app, Forall_singleton. done.
Qed.

Lemma update_inv_init d0 ncc colors0 :
  cell_colors d0 = Some colors0 → update_inv d0 ncc 0 (d0, 0).
Proof.
  intros Hcolors. constructor; simpl; try done.
  - intros c cells Hc. lia.
  - exists colors0. done.
Qed.

(** One colour whose recorded count is the length of its list. *)
Lemma update_color_match d0 ncc (c : nat) s cells colors0 :
  update_inv d0 ncc c s →
  colored_cells d0 !! Z.of_nat c = Some cells →
  read ncc (Z.of_nat c) = Some (Z.of_nat (length cells)) →
  cell_colors d0 = Some colors0 →
  (length (cells_before d0 (Z.of_nat (S c))) ≤ length colors0)%nat →
  Z.of_nat (length (cells_before d0 (Z.of_nat (S c)))) < 2 ^ 32 →
  ∃ s', update_color ncc s (Z.of_nat c) = Done s' ∧ update_inv d0 ncc (S c) s'.
Proof.
  intros Hinv Hcells Hcount Hcolors0 Hroom Hlt. destruct s as [d cur].
  pose proof (ui_current _ _ _ _ Hinv) as Hcur.
  pose proof (ui_cells _ _ _ _ Hinv) as Hstart.
  pose proof (ui_labels _ _ _ _ Hinv) as Hlabels.
  destruct (ui_colors _ _ _ _ Hinv) as (colors0' & Hc0 & Hcolors).
  rewrite Hcolors0 in Hc0. injection Hc0 as <-.
  simpl in Hcur, Hcolors.
  set (start := length (cells_before d0 (Z.of_nat c))) in *.
  rewrite cells_before_S, length_app in Hroom, Hlt. fold start in Hroom, Hlt.
  unfold color_cells in Hroom, Hlt. rewrite Hcells in Hroom, Hlt.
  simpl in Hroom, Hlt.
  rewrite Hstart in Hcur, Hcolors, Hlabels. rewrite Nat2Z.id in Hcolors.
  apply Nat2Z.inj in Hlabels.
  assert (colored_cells d !! Z.of_nat c = Some cells) as Hcells'.
  { rewrite <-Hcells. apply (ui_todo _ _ _ _ Hinv). lia. }
  set (colors := color_labels ncc (Z.of_nat c) ++ drop start colors0) in *.
  assert (length colors = length colors0) as Hlen.
  { unfold colors. rewrite length_app, length_drop, <-Hlabels. lia. }
  pose proof (update_cells_spec (Z.of_nat c) d start cells colors (length cells)
                Hcells' Hcolors) as Hloop.
  rewrite <-Hcur in Hloop. specialize (Hloop ltac:(lia) ltac:(lia) ltac:(lia)).
  eexists. split.
  { unfold update_color. rewrite Hcount. exact Hloop. }
  assert (first_cell ncc (Z.of_nat (S c)) = Z.of_nat (start + length cells)) as Hnext.
  { rewrite (first_cell_S _ _ _ Hcount), Hstart. lia. }
  constructor; simpl.
  - apply Hinv.
  - by rewrite Hnext.
  - rewrite Hnext, cells_before_S, length_app. unfold color_cells. by rewrite Hcells.
  - rewrite Hnext, color_labels_S, Hcount, length_app, length_replicate. simpl. lia.
  - intros c' cells' Hc' Hcells0. destruct (decide (c' = c)) as [->|Hne].
    + rewrite lookup_insert_eq. rewrite Hcells in Hcells0. injection Hcells0 as <-.
      by rewrite drop_all, app_nil_r, Hstart, Hcur.
    + rewrite lookup_insert_ne by lia.
      apply (ui_done _ _ _ _ Hinv); [lia|done].
  - intros c' Hc'. rewrite lookup_insert_ne by lia.
    apply (ui_todo _ _ _ _ Hinv). lia.
  - exists colors0. split; [done|]. f_equal.
    rewrite Hnext, Nat2Z.id, color_labels_S, Hcount. simpl. rewrite Nat2Z.id.
    unfold colors. rewrite take_app_length' by done.
    rewrite drop_app_ge by lia. rewrite drop_drop, <-Hlabels.
    rewrite <-(assoc_L (++)). do 3 f_equal. lia.
Qed.

(** Lines 120-135, when every recorded count is the length of its list. *)
Lemma update_colors_spec d0 ncc colors0 (nc : nat) :
  cell_colors d0 = Some colors0 →
  (nc ≤ length ncc)%nat →
  Forall (λ c, is_Some (colored_cells d0 !! c)) (seqZ 0 (Z.of_nat nc)) →
  (length (cells_before d0 (Z.of_nat nc)) ≤ length colors0)%nat →
  Z.of_nat (length (cells_before d0 (Z.of_nat nc))) < 2 ^ 32 →
  counts_match_below d0 ncc (Z.of_nat nc) →
  ∃ s, for_each (update_color ncc) (d0, 0) (seqZ 0 (Z.of_nat nc)) = Done s
       ∧ update_inv d0 ncc nc s.
Proof.
  intros Hcolors0. induction nc as [|nc IH]; intros Hnc Hlists Hroom Hlt Hm.
  { exists (d0, 0). split; [done|]. by eapply update_inv_init. }
  rewrite seqZ_S, Forall_app, Forall_singleton in Hlists.
  destruct Hlists as [Hlists [cells Hcells]]. rewrite Z.add_0_l in Hcells.
  pose proof Hroom as Hroom'. pose proof Hlt as Hlt'.
  rewrite cells_before_S, length_app in Hroom', Hlt'.
  apply counts_match_below_S in Hm as [Hm Hcount].
  rewrite Hcells in Hcount. simpl in Hcount. symmetry in Hcount.
  rewrite seqZ_S, for_each_app, Z.add_0_l.
  destruct IH as (s & Hrun & Hinv); [lia|done|lia|lia|done|].
  rewrite Hrun. cbn [for_each].
  destruct (update_color_match d0 ncc nc s cells colors0)
    as (s' & Hstep & Hinv'); try done.
  exists s'. by rewrite Hstep.
Qed.

(** ** The routine as a whole *)

Lemma copy_data_committed m st vs :
  wf_geometry m → pass_inv (clean m) st vs →
  copy_data (clean m) st = Some (committed m st).
Proof.
  intros (Hn & Hd & Hgs & Hnd & Hlen) Hinv. unfold copy_data, _size.
  pose proof (inv_connections_length _ _ _ Hinv) as Hc.
  pose proof (inv_coordinates_length _ _ _ Hinv) as Hg. simpl in Hc, Hg |- *.
  rewrite <-Hc, std_copy_all by done.
  rewrite Hgs, to_uint_small, <-Hlen, <-Hg by lia.
  by rewrite std_copy_all.
Qed.

Lemma mesh_num_colors_eq d ncc :
  num_colored_cells d = Some ncc →
  mesh_num_colors d = to_uint (Z.of_nat (length ncc)).
Proof. unfold mesh_num_colors. by intros ->. Qed.

Lemma to_uint_range z : 0 ≤ to_uint z < 2 ^ 32.
Proof. unfold to_uint. apply Z.mod_pos_bound. lia. Qed.

Lemma to_uint_le z : 0 ≤ z → to_uint z ≤ z.
Proof. intros. unfold to_uint. apply Z.mod_le; lia. Qed.

(** On a well-formed coloured mesh the routine gets as far as the
    completeness check. *)
Lemma renumber_by_color_wf nd ju jd m :
  wf_colored_mesh m →
  ∃ st ncc,
    num_colored_cells (data m) = Some ncc
    ∧ renumber_vertices nd ju jd (clean m) (mesh_num_colors (data m)) = Done st
    ∧ pass_inv (clean m) st (sweep_vertices m)
    ∧ renumber_by_color nd ju jd m
      = if all_renumbered st
        then update_renumbering_data (committed m st) ncc (mesh_num_colors (data m))
        else Failed error_not_all_renumbered (clean m).
Proof.
  intros Hwf.
  destruct (renumber_vertices_spec nd ju jd (clean m) Hwf) as (st & Hrun & Hinv).
  destruct Hwf as (Hg & Hc & (Hcols & [ncc Hncc] & Hpos & Hlists & Hnd & Hrange)).
  exists st, ncc. split_and!; [done|done|done|].
  unfold renumber_by_color.
  destruct (cell_colors (data m)) as [colors|] eqn:Hcolors; [|done].
  cbn [data clean] in Hrun |- *. rewrite Hncc.
  rewrite (mesh_num_colors_eq _ _ Hncc) in Hpos, Hrun |- *.
  rewrite bool_decide_eq_true_2 by done. rewrite andb_false_r.
  rewrite Hrun.
  destruct (all_renumbered st); [|done].
  by rewrite (copy_data_committed m st _ Hg Hinv).
Qed.

Lemma update_renumbering_data_Done m ncc nc m' :
  update_renumbering_data m ncc nc = Done m' →
  topology m' = topology m ∧ geometry m' = geometry m.
Proof.
  unfold update_renumbering_data.
  destruct (for_each _ _ _); intros [= <-]. done.
Qed.

(** What a normal end of the routine on a well-formed coloured mesh
    means. *)
Lemma renumber_by_color_Done nd ju jd m m' :
  wf_colored_mesh m →
  renumber_by_color nd ju jd m = Done m' →
  ∃ st ncc,
    num_colored_cells (data m) = Some ncc
    ∧ renumber_vertices nd ju jd (clean m) (mesh_num_colors (data m)) = Done st
    ∧ pass_inv (clean m) st (sweep_vertices m)
    ∧ all_vertices_referenced m
    ∧ update_renumbering_data (committed m st) ncc (mesh_num_colors (data m)) = Done m'
    ∧ connections (cell_vertex (topology m')) = new_connections st
    ∧ num_entities (cell_vertex (topology m')) = num_entities (cell_vertex (topology m))
    ∧ coordinates (geometry m') = new_coordinates st.
Proof.
  intros Hwf Hdone.
  destruct (renumber_by_color_wf nd ju jd m Hwf) as (st & ncc & Hncc & Hrun & Hinv & Heq).
  rewrite Heq in Hdone. destruct (all_renumbered st) eqn:Hall; [|done].
  exists st, ncc. split_and!; try done.
  - destruct Hwf as (Hg & _). by apply (all_renumbered_spec (clean m) st _ Hg Hinv).
  - apply update_renumbering_data_Done in Hdone as [-> _]. done.
  - apply update_renumbering_data_Done in Hdone as [-> _]. done.
  - apply update_renumbering_data_Done in Hdone as [_ ->]. done.
Qed.

(** The new index of a vertex is its position among the first
    occurrences. *)
Lemma new_vertex_index_first_seen m st vs (k : nat) v :
  wf_geometry m → pass_inv m st vs →
  first_seen vs !! k = Some v →
  new_vertex_index st v = Some (Z.of_nat k).
Proof.
  intros (Hn & _) Hinv Hk.
  pose proof (first_seen_length_le m vs (inv_range _ _ _ Hinv)).
  pose proof (lookup_lt_Some _ _ _ Hk).
  assert (0 ≤ v).
  { pose proof (inv_range _ _ _ Hinv) as Hr. rewrite Forall_forall in Hr.
    apply list_elem_of_lookup_2, elem_of_first_seen, Hr in Hk. lia. }
  unfold new_vertex_index, read. rewrite decide_True by done.
  rewrite (inv_assigned _ _ _ Hinv k v Hk). simpl.
  by rewrite to_uint_to_int by lia.
Qed.

Lemma new_vertex_index_inv m st vs (k : nat) v :
  wf_geometry m → pass_inv m st vs →
  Forall (λ v, v ∈ vs) (seqZ 0 (num_vertices (topology m))) →
  new_vertex_index st v = Some (Z.of_nat k) →
  first_seen vs !! k = Some v.
Proof.
  intros Hg Hinv Hall Hk. unfold new_vertex_index in Hk.
  destruct (read (new_vertex_indices st) v) as [x|] eqn:Hread; [|done].
  apply read_Some in Hread as [Hv Hx]. pose proof (lookup_lt_Some _ _ _ Hx) as Hlt.
  rewrite (inv_indices_length _ _ _ Hinv) in Hlt.
  assert (v ∈ vs) as Hin.
  { rewrite Forall_forall in Hall. apply Hall, elem_of_seqZ. lia. }
  apply elem_of_first_seen, list_elem_of_lookup_1 in Hin as [k' Hk'].
  pose proof (new_vertex_index_first_seen m st vs k' v Hg Hinv Hk') as Hk''.
  unfold new_vertex_index, read in Hk''. rewrite decide_True, Hx in Hk'' by done.
  rewrite Hk in Hk''. injection Hk'' as Hk''. by replace k with k' by lia.
Qed.

(** When the sweep has met every vertex, the first occurrences are the
    vertices, each exactly once. *)
Lemma first_seen_complete m vs :
  Forall (λ v, 0 ≤ v < num_vertices (topology m)) vs →
  Forall (λ v, v ∈ vs) (seqZ 0 (num_vertices (topology m))) →
  first_seen vs ≡ₚ seqZ 0 (num_vertices (topology m)).
Proof.
  intros Hrange Hall. apply NoDup_Permutation.
  - apply NoDup_first_seen.
  - apply NoDup_seqZ.
  - intros v. rewrite elem_of_first_seen. rewrite Forall_forall in Hrange, Hall.
    split; [|by apply Hall]. intros Hv%Hrange. apply elem_of_seqZ. lia.
Qed.
(** ** The colour data after the update *)

Lemma color_labels_range ncc (c : nat) x :
  x ∈ color_labels ncc (Z.of_nat c) → 0 ≤ x < Z.of_nat c.
Proof.
  induction c as [|c IH]; [by intros ?%elem_of_nil|].
  rewrite color_labels_S, elem_of_app. intros [Hx|Hx%elem_of_replicate_inv].
  - specialize (IH Hx). lia.
  - lia.
Qed.

(** The labels are in non-decreasing order. *)
Lemma color_labels_sorted ncc (c i j : nat) ci cj :
  (i ≤ j)%nat →
  color_labels ncc (Z.of_nat c) !! i = Some ci →
  color_labels ncc (Z.of_nat c) !! j = Some cj →
  ci ≤ cj.
Proof.
  revert i j ci cj. induction c as [|c IH]; intros i j ci cj Hij; [done|].
  rewrite color_labels_S, !lookup_app_Some.
  intros [Hi|[Hige Hi]] [Hj|[Hjge Hj]].
  - by eapply IH.
  - apply list_elem_of_lookup_2, color_labels_range in Hi.
    apply list_elem_of_lookup_2, elem_of_replicate_inv in Hj. lia.
  - apply lookup_lt_Some in Hj. lia.
  - apply list_elem_of_lookup_2, elem_of_replicate_inv in Hi.
    apply list_elem_of_lookup_2, elem_of_replicate_inv in Hj. lia.
Qed.

Lemma first_cell_lengths d ncc (c : nat) :
  counts_match_below d ncc (Z.of_nat c) →
  first_cell ncc (Z.of_nat c) = Z.of_nat (length (cells_before d (Z.of_nat c)))
  ∧ first_cell ncc (Z.of_nat c) = Z.of_nat (length (color_labels ncc (Z.of_nat c))).
Proof.
  induction c as [|c IH]; [done|].
  intros [Hm Hc]%counts_match_below_S. destruct (IH Hm) as [IH1 IH2].
  destruct (colored_cells d !! Z.of_nat c) as [cells|] eqn:Hcells; simpl in Hc.
  - symmetry in Hc. rewrite (first_cell_S _ _ _ Hc), cells_before_S, color_labels_S.
    rewrite Hc, !length_app, length_replicate. unfold color_cells. rewrite Hcells.
    simpl. lia.
  - symmetry in Hc. unfold first_cell in *. rewrite read_of_nat in Hc.
    apply lookup_ge_None in Hc. rewrite Nat2Z.id in *.
    rewrite cells_before_S, color_labels_S, read_of_nat, (lookup_ge_None_2 ncc c) by done.
    rewrite (take_ge ncc (S c)) by lia. rewrite (take_ge ncc c) in IH1, IH2 by lia.
    unfold color_cells. rewrite Hcells. simpl. rewrite !app_nil_r. done.
Qed.

Lemma counts_match_below_le d ncc (c c' : nat) :
  (c ≤ c')%nat → counts_match_below d ncc (Z.of_nat c') →
  counts_match_below d ncc (Z.of_nat c).
Proof.
  intros Hle. unfold counts_match_below.
  replace (Z.of_nat c') with (Z.of_nat c + Z.of_nat (c' - c)) by lia.
  rewrite seqZ_app by lia. by intros [? _]%Forall_app.
Qed.

Lemma cells_before_app d (c c' : nat) :
  (c ≤ c')%nat →
  ∃ rest, cells_before d (Z.of_nat c') = cells_before d (Z.of_nat c) ++ rest.
Proof.
  intros Hle. unfold cells_before.
  replace (Z.of_nat c') with (Z.of_nat c + Z.of_nat (c' - c)) by lia.
  rewrite seqZ_app, fmap_app, join_app by lia. eauto.
Qed.

Lemma color_labels_app ncc (c c' : nat) :
  (c ≤ c')%nat →
  ∃ rest, color_labels ncc (Z.of_nat c') = color_labels ncc (Z.of_nat c) ++ rest.
Proof.
  intros Hle. unfold color_labels.
  replace (Z.of_nat c') with (Z.of_nat c + Z.of_nat (c' - c)) by lia.
  rewrite seqZ_app, fmap_app, join_app by lia. eauto.
Qed.

(** The cell [i] of the colour [c] is the cell number
    [first_cell ncc c + i] of the sweep, and this number gets the label
    [c]. *)
Lemma sweep_position d ncc (nc c i : nat) cells cell :
  counts_match_below d ncc (Z.of_nat nc) → (c < nc)%nat →
  colored_cells d !! Z.of_nat c = Some cells → cells !! i = Some cell →
  read ncc (Z.of_nat c) = Some (Z.of_nat (length cells))
  ∧ cells_before d (Z.of_nat nc) !! Z.to_nat (first_cell ncc (Z.of_nat c) + Z.of_nat i)
    = Some cell
  ∧ color_labels ncc (Z.of_nat nc) !! Z.to_nat (first_cell ncc (Z.of_nat c) + Z.of_nat i)
    = Some (Z.of_nat c).
Proof.
  intros Hm Hc Hcells Hi.
  pose proof (counts_match_below_le d ncc (S c) nc ltac:(lia) Hm) as HmS.
  pose proof HmS as [Hmc Hcount]%counts_match_below_S.
  rewrite Hcells in Hcount. simpl in Hcount. symmetry in Hcount.
  destruct (first_cell_lengths d ncc c Hmc) as [Hlen1 Hlen2].
  destruct (cells_before_app d (S c) nc ltac:(lia)) as [rest1 ->].
  destruct (color_labels_app ncc (S c) nc ltac:(lia)) as [rest2 ->].
  rewrite cells_before_S, color_labels_S, Hcount. unfold color_cells. rewrite Hcells.
  simpl. rewrite Nat2Z.id. pose proof (lookup_lt_Some _ _ _ Hi) as Hlt.
  split_and!; [done| |].
  - rewrite Hlen1. replace (Z.to_nat _) with (length (cells_before d (Z.of_nat c)) + i)%nat by lia.
    apply lookup_app_l_Some. by rewrite lookup_app_r, Nat.add_sub' by lia.
  - rewrite Hlen2. replace (Z.to_nat _) with (length (color_labels ncc (Z.of_nat c)) + i)%nat by lia.
    apply lookup_app_l_Some. rewrite lookup_app_r, Nat.add_sub' by lia.
    by apply lookup_replicate_2.
Qed.

Lemma valid_colored_mesh_wf m : valid_colored_mesh m → wf_colored_mesh m.
Proof. by intros (? & _). Qed.

Lemma valid_sweep_cells m :
  valid_colored_mesh m → sweep_cells m ≡ₚ seqZ 0 (num_cells (topology m)).
Proof.
  intros ((_ & _ & (_ & _ & _ & _ & Hnd & Hrange)) & _ & Hall).
  apply NoDup_Permutation; [done|apply NoDup_seqZ|].
  intros c. rewrite Forall_forall in Hrange, Hall. split.
  - intros Hc%Hrange. apply elem_of_seqZ. lia.
  - apply Hall.
Qed.

Lemma valid_counts_match m ncc :
  valid_colored_mesh m → num_colored_cells (data m) = Some ncc →
  counts_match_below (data m) ncc (mesh_num_colors (data m)).
Proof.
  intros (_ & Hm & _) Hncc. unfold counts_match in Hm. by rewrite Hncc in Hm.
Qed.

Lemma mesh_num_colors_nat d :
  Z.of_nat (Z.to_nat (mesh_num_colors d)) = mesh_num_colors d.
Proof.
  unfold mesh_num_colors. destruct (num_colored_cells d); [|done].
  pose proof (to_uint_range (Z.of_nat (length l))). lia.
Qed.

(** On a well-formed coloured mesh the update of the colour data ends
    normally when the recorded counts are the lengths of the lists. *)
Lemma update_renumbering_data_wf m st ncc :
  wf_colored_mesh m → num_colored_cells (data m) = Some ncc →
  counts_match_below (data m) ncc (mesh_num_colors (data m)) →
  ∃ s : MeshData * Z,
    update_renumbering_data (committed m st) ncc (mesh_num_colors (data m))
    = Done (set_data (committed m st) (fst s))
    ∧ update_inv (data m) ncc (Z.to_nat (mesh_num_colors (data m))) s.
Proof.
  intros Hwf Hncc Hm. pose proof (sweep_cells_length_le m Hwf) as Hle.
  destruct Hwf as (_ & (Hnc & _) & (Hcols & _ & _ & Hlists & _)).
  destruct (cell_colors (data m)) as [colors0|] eqn:Hcolors0; [|done].
  simpl in Hcols. injection Hcols as Hcols.
  unfold sweep_cells in Hle. fold (cells_before (data m) (mesh_num_colors (data m))) in Hle.
  assert (Z.to_nat (mesh_num_colors (data m)) ≤ length ncc)%nat as Hlen.
  { rewrite (mesh_num_colors_eq _ _ Hncc).
    pose proof (to_uint_le (Z.of_nat (length ncc))). lia. }
  pose proof (mesh_num_colors_nat (data m)) as Hnat.
  set (nc := Z.to_nat (mesh_num_colors (data m))) in *. clearbody nc.
  rewrite <-Hnat in Hlists, Hle, Hm |- *.
  unfold update_renumbering_data. cbn [data committed set_coordinates set_connections clean].
  destruct (update_colors_spec (data m) ncc colors0 nc Hcolors0)
    as (s & Hrun & Hinv); [done|done|lia|lia|done|].
  exists s. by rewrite Hrun.
Qed.

(** On a valid coloured mesh in which every vertex belongs to a cell the
    routine ends normally. *)
Lemma renumber_by_color_succeeds nd ju jd m :
  valid_colored_mesh m → all_vertices_referenced m →
  ∃ m', renumber_by_color nd ju jd m = Done m'.
Proof.
  intros Hvalid Hall. pose proof (valid_colored_mesh_wf m Hvalid) as Hwf.
  destruct (renumber_by_color_wf nd ju jd m Hwf) as (st & ncc & Hncc & Hrun & Hinv & ->).
  pose proof Hwf as (Hg & _).
  rewrite (proj2 (all_renumbered_spec (clean m) st _ Hg Hinv)) by done.
  destruct (update_renumbering_data_wf m st ncc Hwf Hncc) as (s & -> & _); [|eauto].
  by apply valid_counts_match.
Qed.

(** ** Failures *)

Lemma for_each_Failed {S A} (body : S → A → outcome S) (P : failure → Prop) l :
  (∀ s x f s', body s x = Failed f s' → P f) →
  ∀ s f s', for_each body s l = Failed f s' → P f.
Proof.
  intros Hbody. induction l as [|x l IH]; intros s f s'; simpl; [done|].
  destruct (body s x) as [s1|f1 s1|] eqn:Hx; [apply IH| |done].
  intros [= <- <-]. by eapply Hbody.
Qed.

Lemma update_cell_not_Failed color s i f s' : update_cell color s i ≠ Failed f s'.
Proof.
  unfold update_cell. destruct s as [d cur].
  destruct (colored_cells d !! color); [|done]. destruct (cell_colors d); [|done].
  destruct (write _ i cur); [|done]. by destruct (write _ cur color).
Qed.

(** The update of the colour data never gives up. *)
Lemma update_renumbering_data_Failed m ncc nc f m' :
  update_renumbering_data m ncc nc ≠ Failed f m'.
Proof.
  unfold update_renumbering_data.
  destruct (for_each _ _ _) as [s|f' s|] eqn:Hloop; [done| |done].
  intros _. revert Hloop. apply (for_each_Failed _ (λ _, False)).
  clear. intros s color f s'. unfold update_color.
  destruct (read ncc color) as [count|]; [|done].
  apply (for_each_Failed _ (λ _, False)).
  intros s1 i f1 s1'. apply update_cell_not_Failed.
Qed.

(** ** What the temporaries hold after a complete sweep *)

Lemma pass_indices_unique m st1 st2 vs :
  pass_inv m st1 vs → pass_inv m st2 vs →
  new_vertex_indices st1 = new_vertex_indices st2.
Proof.
  intros H1 H2.
  apply (list_eq_same_length _ _ (Z.to_nat (num_vertices (topology m))));
    [apply H2|apply H1|].
  intros i x y Hi Hx Hy.
  destruct (decide (Z.of_nat i ∈ vs)) as [Hin|Hnin].
  - apply elem_of_first_seen, list_elem_of_lookup_1 in Hin as [k Hk].
    pose proof (inv_assigned _ _ _ H1 k _ Hk) as Hx'.
    pose proof (inv_assigned _ _ _ H2 k _ Hk) as Hy'.
    rewrite Nat2Z.id in Hx', Hy'. congruence.
  - pose proof (inv_unassigned _ _ _ H1 (Z.of_nat i) ltac:(lia) Hnin) as Hx'.
    pose proof (inv_unassigned _ _ _ H2 (Z.of_nat i) ltac:(lia) Hnin) as Hy'.
    rewrite Nat2Z.id in Hx', Hy'. congruence.
Qed.

Lemma pass_connections_unique m st1 st2 vs :
  pass_inv m st1 vs → pass_inv m st2 vs →
  length vs = length (connections (cell_vertex (topology m))) →
  new_connections st1 = new_connections st2.
Proof.
  intros H1 H2 Hlen.
  apply (list_eq_same_length _ _ (length vs));
    [rewrite Hlen; apply H2|rewrite Hlen; apply H1|].
  intros p x y Hp Hx Hy.
  destruct (lookup_lt_is_Some_2 vs p Hp) as [v Hv].
  destruct (inv_connections _ _ _ H1 p v Hv) as (k1 & Hk1 & Hx').
  destruct (inv_connections _ _ _ H2 p v Hv) as (k2 & Hk2 & Hy').
  pose proof (NoDup_lookup _ _ _ _ (NoDup_first_seen vs) Hk1 Hk2). congruence.
Qed.

Lemma pass_coordinates_unique m st1 st2 vs :
  wf_geometry m → pass_inv m st1 vs → pass_inv m st2 vs →
  Z.of_nat (length (first_seen vs)) = num_vertices (topology m) →
  new_coordinates st1 = new_coordinates st2.
Proof.
  intros (Hn & Hd & Hgs & Hnd & Hlen) H1 H2 Hall.
  apply (list_eq_same_length _ _ (length (coordinates (geometry m))));
    [apply H2|apply H1|].
  intros q x y Hq Hx Hy.
  set (d := Z.to_nat (gdim (geometry m))).
  assert (d ≠ 0)%nat as Hd0 by (unfold d; nia).
  pose proof (Nat.div_mod q d Hd0) as Hdiv.
  pose proof (Nat.mod_upper_bound q d Hd0) as Hmod.
  assert (q `div` d < length (first_seen vs))%nat as Hk.
  { apply Nat.Div0.div_lt_upper_bound. unfold d. nia. }
  destruct (lookup_lt_is_Some_2 _ _ Hk) as [v Hv].
  pose proof (inv_coordinates _ _ _ H1 _ v _ Hv Hmod) as Hx'.
  pose proof (inv_coordinates _ _ _ H2 _ v _ Hv Hmod) as Hy'.
  fold d in Hx', Hy'.
  replace (q `div` d * d + q `mod` d)%nat with q in Hx', Hy' by lia.
  congruence.
Qed.

(** ** Runs that differ in the first contents of the temporaries *)

Lemma for_each_sim {S A} (R : S → S → Prop) (body1 body2 : S → A → outcome S) l :
  (∀ s1 s2 x, R s1 s2 → outcome_sim R (body1 s1 x) (body2 s2 x)) →
  ∀ s1 s2, R s1 s2 → outcome_sim R (for_each body1 s1 l) (for_each body2 s2 l).
Proof.
  intros Hbody. induction l as [|x l IH]; intros s1 s2 HR; simpl; [done|].
  specialize (Hbody s1 s2 x HR).
  destruct (body1 s1 x), (body2 s2 x); simpl in Hbody; try done. by apply IH.
Qed.

Lemma std_copy_sim {A} (src dst1 dst2 : list A) first last out :
  length dst1 = length dst2 →
  match std_copy src first last dst1 out, std_copy src first last dst2 out with
  | Some r1, Some r2 => length r1 = length r2
  | None, None => True
  | _, _ => False
  end.
Proof.
  intros Hlen. unfold std_copy. rewrite Hlen. case_decide; [|done].
  rewrite !length_app, !length_take, !length_drop. lia.
Qed.

Lemma write_sim {A} (a1 a2 : list A) i x :
  length a1 = length a2 →
  match write a1 i x, write a2 i x with
  | Some r1, Some r2 => length r1 = length r2
  | None, None => True
  | _, _ => False
  end.
Proof.
  intros Hlen. unfold write. rewrite Hlen. case_decide; [|done].
  by rewrite !length_insert.
Qed.

Lemma renumber_vertex_sim m st1 st2 v :
  scratch_sim st1 st2 →
  outcome_sim scratch_sim (renumber_vertex m st1 v) (renumber_vertex m st2 v).
Proof.
  destruct st1 as [nc1 ng1 nvi1 off1 cur1], st2 as [nc2 ng2 nvi2 off2 cur2].
  unfold scratch_sim. simpl. intros (-> & -> & -> & Hc & Hg).
  unfold renumber_vertex, new_vertex_index. simpl.
  destruct (read nvi2 v) as [old|] eqn:Hold; [|done].
  case_decide.
  - pose proof (std_copy_sim (coordinates (geometry m))
                  ng1 ng2 (to_uint (v * gdim (geometry m)))
                  (to_uint ((v + 1) * gdim (geometry m)))
                  (to_uint (cur2 * gdim (geometry m))) Hg) as Hcopy.
    destruct (std_copy _ _ _ ng1 _), (std_copy _ _ _ ng2 _); try done.
    destruct (write nvi2 v (to_int cur2)) as [nvi|]; [|done]. simpl.
    destruct (read nvi v) as [x|]; [|done]. simpl.
    pose proof (write_sim nc1 nc2 off2 (to_uint x) Hc) as Hw.
    destruct (write nc1 _ _), (write nc2 _ _); try done.
  - simpl. rewrite Hold. simpl.
    pose proof (write_sim nc1 nc2 off2 (to_uint old) Hc) as Hw.
    destruct (write nc1 _ _), (write nc2 _ _); try done.
Qed.

Lemma renumber_vertices_sim nd ju jd ju' jd' m nc :
  outcome_sim scratch_sim
    (renumber_vertices nd ju jd m nc) (renumber_vertices nd ju' jd' m nc).
Proof.
  unfold renumber_vertices. apply for_each_sim.
  - intros s1 s2 color Hs. unfold renumber_color.
    destruct (colored_cells (data m) !! color); [|by destruct nd].
    apply for_each_sim; [|done]. clear. intros s1 s2 cell Hs.
    unfold renumber_cell. apply for_each_sim; [|done]. clear. intros s1 s2 j Hs.
    destruct (cell_vertices _ _ _); [|done]. by apply renumber_vertex_sim.
  - unfold scratch_sim, allocate. simpl.
    by rewrite !length_fmap, !length_seq.
Qed.

Lemma copy_data_sim m st1 st2 :
  scratch_sim st1 st2 →
  match copy_data m st1, copy_data m st2 with
  | Some m1, Some m2 => mesh_sim m1 m2
  | None, None => True
  | _, _ => False
  end.
Proof.
  intros (_ & _ & _ & Hc & Hg). unfold copy_data, std_copy.
  rewrite Hc, Hg. repeat case_decide; try done.
  unfold mesh_sim. simpl. split_and!; [done|done| |].
  - rewrite !length_app, !length_take, !length_drop. lia.
  - rewrite !length_app, !length_take, !length_drop. lia.
Qed.

Lemma update_renumbering_data_sim m1 m2 ncc nc :
  mesh_sim m1 m2 →
  outcome_sim mesh_sim
    (update_renumbering_data m1 ncc nc) (update_renumbering_data m2 ncc nc).
Proof.
  intros (Hd & Hder & Hc & Hg). unfold update_renumbering_data. rewrite Hd.
  destruct (for_each _ _ _); simpl; done.
Qed.

(** Two runs on the same mesh end in the same way: both normally, both
    with the same failure, or both undefined; the meshes they leave have
    the same colour data and buffers of the same lengths. *)
Lemma renumber_by_color_sim nd ju jd ju' jd' m :
  outcome_sim mesh_sim
    (renumber_by_color nd ju jd m) (renumber_by_color nd ju' jd' m).
Proof.
  assert (∀ m, mesh_sim m m) as Hrefl by done.
  unfold renumber_by_color. destruct (cell_colors (data m)); [|done].
  cbn [data clean]. destruct (num_colored_cells (data m)) as [ncc|]; [|done].
  destruct (negb nd && _); [done|].
  pose proof (renumber_vertices_sim nd ju jd ju' jd' (clean m)
                (to_uint (Z.of_nat (length ncc)))) as Hpass.
  destruct (renumber_vertices nd ju jd _ _) as [st1|f1 st1|],
           (renumber_vertices nd ju' jd' _ _) as [st2|f2 st2|]; try done.
  - pose proof Hpass as (Hnvi & _). unfold all_renumbered. rewrite Hnvi.
    case_bool_decide; [|done].
    pose proof (copy_data_sim (clean m) st1 st2 Hpass) as Hcopy.
    destruct (copy_data _ st1), (copy_data _ st2); try done.
    by apply update_renumbering_data_sim.
  - by destruct Hpass as [-> _].
Qed.

(** * The properties of the specification *)

(** C1.  On every well-formed coloured mesh, and so on every valid one,
    on which [renumber_by_color] ends normally, the map
    [new_vertex_indices] has one entry per vertex and is a bijection from
    the vertices [[0, num_vertices)] onto the new indices
    [[0, num_vertices)]: every vertex has a new index below
    [num_vertices], no two vertices share one, every index below
    [num_vertices] is taken, and the new index of a vertex is its position
    in the order in which the colour-by-colour sweep first meets the
    vertices.  The new index is the entry of the map as the routine reads
    it back; up to [2^31] vertices it is the entry itself. *)
Theorem new_vertex_indices_bijection nd ju jd m m' :
  wf_colored_mesh m →
  renumber_by_color nd ju jd m = Done m' →
  ∃ st,
    renumber_vertices nd ju jd (clean m) (mesh_num_colors (data m)) = Done st
    ∧ Z.of_nat (length (new_vertex_indices st)) = num_vertices (topology m)
    ∧ (∀ v, 0 ≤ v < num_vertices (topology m) →
         ∃ k, 0 ≤ k < num_vertices (topology m) ∧ new_vertex_index st v = Some k)
    ∧ (∀ v1 v2 k,
         new_vertex_index st v1 = Some k → new_vertex_index st v2 = Some k → v1 = v2)
    ∧ (∀ k, 0 ≤ k < num_vertices (topology m) →
         ∃ v, 0 ≤ v < num_vertices (topology m) ∧ new_vertex_index st v = Some k)
    ∧ (∀ v (k : nat),
         new_vertex_index st v = Some (Z.of_nat k)
         ↔ first_seen (sweep_vertices m) !! k = Some v)
    ∧ (num_vertices (topology m) ≤ 2 ^ 31 →
       ∀ v, 0 ≤ v < num_vertices (topology m) →
         read (new_vertex_indices st) v = new_vertex_index st v).
Proof.
  intros Hwf Hdone.
  destruct (renumber_by_color_Done nd ju jd m m' Hwf Hdone)
    as (st & ncc & _ & Hrun & Hinv & Hall & _).
  pose proof Hwf as (Hg & _). pose proof Hg as (Hn & _).
  pose proof (inv_range _ _ _ Hinv) as Hrange. cbn [topology clean num_vertices] in Hrange.
  pose proof (first_seen_complete m _ Hrange Hall) as Hperm.
  pose proof (Permutation_length Hperm) as Hlen. rewrite length_seqZ in Hlen.
  assert (∀ v (k : nat),
            new_vertex_index st v = Some (Z.of_nat k)
            ↔ first_seen (sweep_vertices m) !! k = Some v) as Hiff.
  { intros v k. split.
    - by apply (new_vertex_index_inv (clean m)).
    - by apply (new_vertex_index_first_seen (clean m)). }
  assert (∀ v k, new_vertex_index st v = Some k → k = Z.of_nat (Z.to_nat k)) as Hnat.
  { intros v k Hk. unfold new_vertex_index in Hk.
    destruct (read _ v) as [x|]; [|done]. injection Hk as <-.
    pose proof (to_uint_range x). lia. }
  assert (∀ v, 0 ≤ v < num_vertices (topology m) →
            ∃ k : nat, first_seen (sweep_vertices m) !! k = Some v
                       ∧ Z.of_nat k < num_vertices (topology m)) as Hpos.
  { intros v Hv.
    assert (v ∈ first_seen (sweep_vertices m)) as [k Hk]%list_elem_of_lookup_1.
    { rewrite Hperm. apply elem_of_seqZ. lia. }
    exists k. split; [done|]. apply lookup_lt_Some in Hk. lia. }
  exists st. split_and!; [done| | | | |done|].
  - rewrite (inv_indices_length _ _ _ Hinv). cbn [topology clean num_vertices]. lia.
  - intros v Hv. destruct (Hpos v Hv) as (k & Hk & Hlt).
    exists (Z.of_nat k). split; [lia|by apply Hiff].
  - intros v1 v2 k H1 H2. pose proof (Hnat _ _ H1) as Hk.
    rewrite Hk in H1, H2. apply Hiff in H1, H2. congruence.
  - intros k Hk.
    destruct (lookup_lt_is_Some_2 (first_seen (sweep_vertices m)) (Z.to_nat k))
      as [v Hv]; [lia|].
    exists v. split.
    + apply list_elem_of_lookup_2 in Hv. rewrite Hperm in Hv.
      apply elem_of_seqZ in Hv. lia.
    + apply Hiff in Hv. by rewrite Z2Nat.id in Hv by lia.
  - intros Hsmall v Hv. destruct (Hpos v Hv) as (k & Hk & Hlt).
    rewrite (proj2 (Hiff v k) Hk). unfold read. rewrite decide_True by lia.
    rewrite (inv_assigned _ _ _ Hinv k v Hk). by rewrite to_int_small by lia.
Qed.

Lemma new_vertex_indices_bijection_witness :
  ∃ st,
    renumber_vertices false (λ _, 0) (λ _, 0) (clean scale_mesh)
      (mesh_num_colors (data scale_mesh)) = Done st
    ∧ Z.of_nat (length (new_vertex_indices st)) = num_vertices (topology scale_mesh)
    ∧ (∀ v, 0 ≤ v < num_vertices (topology scale_mesh) →
         ∃ k, 0 ≤ k < num_vertices (topology scale_mesh)
              ∧ new_vertex_index st v = Some k)
    ∧ (∀ v1 v2 k,
         new_vertex_index st v1 = Some k → new_vertex_index st v2 = Some k → v1 = v2)
    ∧ (∀ k, 0 ≤ k < num_vertices (topology scale_mesh) →
         ∃ v, 0 ≤ v < num_vertices (topology scale_mesh)
              ∧ new_vertex_index st v = Some k)
    ∧ (∀ v (k : nat),
         new_vertex_index st v = Some (Z.of_nat k)
         ↔ first_seen (sweep_vertices scale_mesh) !! k = Some v)
    ∧ (num_vertices (topology scale_mesh) ≤ 2 ^ 31 →
       ∀ v, 0 ≤ v < num_vertices (topology scale_mesh) →
         read (new_vertex_indices st) v = new_vertex_index st v).
Proof.
  eapply (new_vertex_indices_bijection false (λ _, 0) (λ _, 0) scale_mesh).
  - by_computation.
  - vm_compute. reflexivity.
Defined.

(** C2.  On every well-formed coloured mesh on which [renumber_by_color]
    ends normally, the connectivity buffer keeps its length, and for the
    [k]-th cell of the sweep, which is the cell [k] of the new numbering,
    and every local slot [j], the buffer holds the new index of the vertex
    that was in slot [j] of the original cell. *)
Theorem connectivity_renumbered nd ju jd m m' :
  wf_colored_mesh m →
  renumber_by_color nd ju jd m = Done m' →
  length (connections (cell_vertex (topology m')))
  = length (connections (cell_vertex (topology m)))
  ∧ ∃ st,
      renumber_vertices nd ju jd (clean m) (mesh_num_colors (data m)) = Done st
      ∧ ∀ (k : nat) cell j,
          sweep_cells m !! k = Some cell →
          0 ≤ j < num_entities (cell_vertex (topology m)) →
          ∃ v, cell_vertices (cell_vertex (topology m)) cell j = Some v
               ∧ is_Some (new_vertex_index st v)
               ∧ cell_vertices (cell_vertex (topology m')) (Z.of_nat k) j
                 = new_vertex_index st v.
Proof.
  intros Hwf Hdone.
  destruct (renumber_by_color_Done nd ju jd m m' Hwf Hdone)
    as (st & ncc & _ & Hrun & Hinv & Hall & _ & Hconn & Hne & _).
  pose proof Hwf as (Hg & Hc & (_ & _ & _ & _ & _ & Hcells)).
  split.
  { rewrite Hconn. apply (inv_connections_length _ _ _ Hinv). }
  exists st. split; [done|]. intros k cell j Hk Hj.
  assert (0 ≤ cell < num_cells (topology m)) as Hcell.
  { rewrite Forall_forall in Hcells. by eapply Hcells, list_elem_of_lookup_2. }
  set (a := Z.to_nat (num_entities (cell_vertex (topology m)))).
  destruct (cell_tuple_lookup m cell (Z.to_nat j) Hc Hcell ltac:(lia)) as [Hv [v Hv']].
  rewrite Z2Nat.id in Hv by lia. rewrite Hv' in Hv. symmetry in Hv.
  assert (sweep_vertices m !! (k * a + Z.to_nat j)%nat = Some v) as Hp.
  { unfold sweep_vertices. apply join_lookup_Some_same_length'.
    - apply Forall_fmap, Forall_forall. intros c Hcin. simpl.
      rewrite Forall_forall in Hcells. by apply cell_tuple_length, Hcells.
    - lia.
    - eexists. split; [|exact Hv']. by rewrite list_lookup_fmap, Hk. }
  destruct (inv_connections _ _ _ Hinv _ _ Hp) as (k' & Hk' & Hnc).
  pose proof (new_vertex_index_first_seen (clean m) st _ k' v Hg Hinv Hk') as Hnew.
  exists v. split_and!; [done|by rewrite Hnew|].
  rewrite Hnew. unfold cell_vertices, read. rewrite Hconn, Hne.
  rewrite decide_True by nia. rewrite <-Hnc. f_equal. nia.
Qed.

Lemma connectivity_renumbered_witness :
  length (connections (cell_vertex (topology scale_mesh_renumbered)))
  = length (connections (cell_vertex (topology scale_mesh)))
  ∧ ∃ st,
      renumber_vertices false (λ _, 0) (λ _, 0) (clean scale_mesh)
        (mesh_num_colors (data scale_mesh)) = Done st
      ∧ ∀ (k : nat) cell j,
          sweep_cells scale_mesh !! k = Some cell →
          0 ≤ j < num_entities (cell_vertex (topology scale_mesh)) →
          ∃ v, cell_vertices (cell_vertex (topology scale_mesh)) cell j = Some v
               ∧ is_Some (new_vertex_index st v)
               ∧ cell_vertices (cell_vertex (topology scale_mesh_renumbered))
                   (Z.of_nat k) j
                 = new_vertex_index st v.
Proof.
  apply (connectivity_renumbered false (λ _, 0) (λ _, 0) scale_mesh).
  - by_computation.
  - vm_compute. reflexivity.
Defined.

(** C3.  On every well-formed coloured mesh on which [renumber_by_color]
    ends normally, the coordinate buffer keeps its length, and for every
    vertex the coordinates stored at its new index are its original
    coordinates, entry by entry. *)
Theorem coordinates_permuted nd ju jd m m' :
  wf_colored_mesh m →
  renumber_by_color nd ju jd m = Done m' →
  length (coordinates (geometry m')) = length (coordinates (geometry m))
  ∧ gdim (geometry m') = gdim (geometry m)
  ∧ ∃ st,
      renumber_vertices nd ju jd (clean m) (mesh_num_colors (data m)) = Done st
      ∧ ∀ v, 0 ≤ v < num_vertices (topology m) →
          ∃ k, new_vertex_index st v = Some k
               ∧ 0 ≤ k < num_vertices (topology m)
               ∧ ∀ c, 0 ≤ c < gdim (geometry m) →
                   ∃ x, read (coordinates (geometry m)) (v * gdim (geometry m) + c) = Some x
                        ∧ read (coordinates (geometry m')) (k * gdim (geometry m) + c)
                          = Some x.
Proof.
  intros Hwf Hdone.
  destruct (renumber_by_color_Done nd ju jd m m' Hwf Hdone)
    as (st & ncc & _ & Hrun & Hinv & Hall & Hupd & _ & _ & Hcoord).
  pose proof Hwf as (Hg & _). pose proof Hg as (Hn & Hd & Hgs & Hnd & Hlen).
  split_and!.
  { rewrite Hcoord. apply (inv_coordinates_length _ _ _ Hinv). }
  { apply update_renumbering_data_Done in Hupd as [_ ->]. done. }
  exists st. split; [done|]. intros v Hv.
  pose proof (inv_range _ _ _ Hinv) as Hrange. cbn [topology clean num_vertices] in Hrange.
  pose proof (first_seen_complete m _ Hrange Hall) as Hperm.
  assert (v ∈ first_seen (sweep_vertices m)) as [k Hk]%list_elem_of_lookup_1.
  { rewrite Hperm. apply elem_of_seqZ. lia. }
  pose proof (lookup_lt_Some _ _ _ Hk) as Hklt.
  rewrite (Permutation_length Hperm), length_seqZ in Hklt.
  exists (Z.of_nat k). split_and!; [|lia|lia|].
  { by apply (new_vertex_index_first_seen (clean m) st _ k v Hg Hinv). }
  intros c Hc.
  pose proof (inv_coordinates _ _ _ Hinv k v (Z.to_nat c) Hk) as Hcopy.
  cbn [geometry clean] in Hcopy. specialize (Hcopy ltac:(lia)).
  destruct (lookup_lt_is_Some_2 (coordinates (geometry m))
              (Z.to_nat v * Z.to_nat (gdim (geometry m)) + Z.to_nat c)) as [x Hx]; [nia|].
  exists x. unfold read. rewrite !decide_True by nia. rewrite Hcoord. split.
  - rewrite <-Hx. f_equal. nia.
  - rewrite <-Hx, <-Hcopy. f_equal. nia.
Qed.

Lemma coordinates_permuted_witness :
  length (coordinates (geometry scale_mesh_renumbered))
  = length (coordinates (geometry scale_mesh))
  ∧ gdim (geometry scale_mesh_renumbered) = gdim (geometry scale_mesh)
  ∧ ∃ st,
      renumber_vertices false (λ _, 0) (λ _, 0) (clean scale_mesh)
        (mesh_num_colors (data scale_mesh)) = Done st
      ∧ ∀ v, 0 ≤ v < num_vertices (topology scale_mesh) →
          ∃ k, new_vertex_index st v = Some k
               ∧ 0 ≤ k < num_vertices (topology scale_mesh)
               ∧ ∀ c, 0 ≤ c < gdim (geometry scale_mesh) →
                   ∃ x, read (coordinates (geometry scale_mesh))
                          (v * gdim (geometry scale_mesh) + c) = Some x
                        ∧ read (coordinates (geometry scale_mesh_renumbered))
                            (k * gdim (geometry scale_mesh) + c) = Some x.
Proof.
  apply (coordinates_permuted false (λ _, 0) (λ _, 0) scale_mesh).
  - by_computation.
  - vm_compute. reflexivity.
Defined.

(** C4, as it holds.  On every failure of [renumber_by_color] other than
    the assertion of line 128, the connectivity buffer, the coordinate
    buffer and the colour data of the mesh are those of the input: the
    mesh is the input itself when the colour labels are missing, and the
    cleaned input otherwise, so that only the derived connectivity has
    been cleared.  Up to the completeness check the routine writes to its
    temporaries only. *)
Theorem failure_before_commit nd ju jd m f m' :
  renumber_by_color nd ju jd m = Failed f m' →
  f ≠ assert_colored_cells_size →
  ((f = error_not_colored ∧ m' = m) ∨ (f ≠ error_not_colored ∧ m' = clean m))
  ∧ cell_vertex (topology m') = cell_vertex (topology m)
  ∧ geometry m' = geometry m
  ∧ data m' = data m.
Proof.
  intros Hrun Hf.
  assert ((f = error_not_colored ∧ m' = m) ∨ (f ≠ error_not_colored ∧ m' = clean m))
    as Hcases; [|split; [exact Hcases|]; by destruct Hcases as [[_ ->]|[_ ->]]].
  revert Hrun. unfold renumber_by_color.
  destruct (cell_colors (data m)); [|intros [= <- <-]; by left].
  cbn [data clean].
  destruct (num_colored_cells (data m)) as [ncc|]; [|done].
  destruct (negb nd && _). { intros [= <- <-]. by right. }
  destruct (renumber_vertices _ _ _ _ _) as [st|f' st|] eqn:Hpass; [| |done].
  - destruct (all_renumbered st); [|intros [= <- <-]; by right].
    destruct (copy_data _ _); [|done].
    intros Hupd. by apply update_renumbering_data_Failed in Hupd.
  - intros [= <- <-]. right. split; [|done]. revert Hpass.
    apply (for_each_Failed _ (λ f, f ≠ error_not_colored)).
    clear. intros s color f s'. unfold renumber_color.
    destruct (colored_cells _ !! color).
    + apply (for_each_Failed _ (λ f, f ≠ error_not_colored)).
      clear. intros s cell f s'. unfold renumber_cell.
      apply (for_each_Failed _ (λ f, f ≠ error_not_colored)).
      clear. intros s j f s'. destruct (cell_vertices _ _ _); [|done].
      unfold renumber_vertex. destruct (read _ _); [|done]. simpl.
      repeat case_match; done.
    + destruct nd; [done|]. by intros [= <- <-].
Qed.

Lemma failure_before_commit_witness :
  ((error_not_all_renumbered = error_not_colored
    ∧ clean lonely_vertex_mesh = lonely_vertex_mesh)
   ∨ (error_not_all_renumbered ≠ error_not_colored
      ∧ clean lonely_vertex_mesh = clean lonely_vertex_mesh))
  ∧ cell_vertex (topology (clean lonely_vertex_mesh))
    = cell_vertex (topology lonely_vertex_mesh)
  ∧ geometry (clean lonely_vertex_mesh) = geometry lonely_vertex_mesh
  ∧ data (clean lonely_vertex_mesh) = data lonely_vertex_mesh.
Proof.
  apply (failure_before_commit false (λ _, 0) (λ _, 0) lonely_vertex_mesh).
  - vm_compute. reflexivity.
  - discriminate.
Defined.

(** C4, as it is stated, fails: the mesh with a vertex that no cell uses
    fails the completeness check, and by then its edges have been
    cleared. *)
Lemma failure_mutates_mesh :
  renumber_by_color false (λ _, 0) (λ _, 0) lonely_vertex_mesh
  = Failed error_not_all_renumbered (clean lonely_vertex_mesh)
  ∧ clean lonely_vertex_mesh ≠ lonely_vertex_mesh.
Proof. split; [vm_compute; reflexivity|discriminate]. Qed.

(** C5.  On every well-formed coloured mesh in which some vertex belongs to
    no cell of the colour partition, [renumber_by_color] fails at the
    completeness check, that is with [RenumberingIncompleteError]; the
    mesh it leaves is the cleaned input, whose connectivity buffer and
    coordinate buffer are those of the input. *)
Theorem unreferenced_vertex_fails nd ju jd m v :
  wf_colored_mesh m →
  0 ≤ v < num_vertices (topology m) →
  v ∉ sweep_vertices m →
  renumber_by_color nd ju jd m = Failed error_not_all_renumbered (clean m)
  ∧ condition_of error_not_all_renumbered = RenumberingIncompleteError
  ∧ connections (cell_vertex (topology (clean m))) = connections (cell_vertex (topology m))
  ∧ coordinates (geometry (clean m)) = coordinates (geometry m).
Proof.
  intros Hwf Hv Hnin.
  destruct (renumber_by_color_wf nd ju jd m Hwf) as (st & ncc & Hncc & Hrun & Hinv & ->).
  pose proof Hwf as (Hg & _).
  destruct (all_renumbered st) eqn:Hall; [|done].
  apply (all_renumbered_spec (clean m) st _ Hg Hinv) in Hall.
  rewrite Forall_forall in Hall. destruct Hnin. apply Hall, elem_of_seqZ.
  cbn [topology clean num_vertices]. lia.
Qed.

Lemma unreferenced_vertex_fails_witness :
  renumber_by_color false (λ _, 0) (λ _, 0) lonely_vertex_mesh
  = Failed error_not_all_renumbered (clean lonely_vertex_mesh)
  ∧ condition_of error_not_all_renumbered = RenumberingIncompleteError
  ∧ connections (cell_vertex (topology (clean lonely_vertex_mesh)))
    = connections (cell_vertex (topology lonely_vertex_mesh))
  ∧ coordinates (geometry (clean lonely_vertex_mesh))
    = coordinates (geometry lonely_vertex_mesh).
Proof.
  apply (unreferenced_vertex_fails false (λ _, 0) (λ _, 0) lonely_vertex_mesh 4).
  - by_computation.
  - simpl. lia.
  - by_computation.
Defined.

(** C6, as it holds.  On every mesh that has no colour labels
    [renumber_by_color] fails at line 31, that is with
    [PreconditionError], and the mesh is not touched. *)
Theorem missing_coloring_fails nd ju jd m :
  cell_colors (data m) = None →
  renumber_by_color nd ju jd m = Failed error_not_colored m
  ∧ condition_of error_not_colored = PreconditionError.
Proof. intros Hcolors. unfold renumber_by_color. by rewrite Hcolors. Qed.

Lemma missing_coloring_fails_witness :
  renumber_by_color true (λ _, 0) (λ _, 0) uncolored_mesh
  = Failed error_not_colored uncolored_mesh
  ∧ condition_of error_not_colored = PreconditionError.
Proof.
  apply (missing_coloring_fails true (λ _, 0) (λ _, 0) uncolored_mesh). reflexivity.
Defined.

(** C6, as it is stated, fails.  A mesh with colour labels and no colour
    goes through the sweep, fails at the completeness check, and by then
    its edges have been cleared; a mesh without the lists of its colours,
    and a mesh without the array of counts, make the run undefined: lines
    79 and 68 dereference a null pointer. *)
Lemma precondition_failure_mutates_mesh :
  mesh_num_colors (data zero_colors_mesh) = 0
  ∧ renumber_by_color true (λ _, 0) (λ _, 0) zero_colors_mesh
    = Failed error_not_all_renumbered (clean zero_colors_mesh)
  ∧ condition_of error_not_all_renumbered ≠ PreconditionError
  ∧ clean zero_colors_mesh ≠ zero_colors_mesh
  ∧ colored_cells (data no_lists_mesh) = ∅
  ∧ renumber_by_color true (λ _, 0) (λ _, 0) no_lists_mesh = Undefined
  ∧ num_colored_cells (data no_counts_mesh) = None
  ∧ renumber_by_color true (λ _, 0) (λ _, 0) no_counts_mesh = Undefined.
Proof.
  split_and!; [done|vm_compute; reflexivity|discriminate|discriminate
              |done|vm_compute; reflexivity|done|vm_compute; reflexivity].
Qed.

(** C7.  On every valid coloured mesh on which [renumber_by_color] ends
    normally, the cells are numbered in the order of the sweep: a counter
    that starts at 0 and advances by the number of cells of each colour,
    in ascending order of the colours, gives the first new number
    [first_cell ncc color] of each colour; the list of the colour becomes
    the consecutive numbers from there on, one per entry; the new number
    [first_cell ncc color + i] stands for the cell that was entry [i] of
    the list, and it gets the label [color]; the labels of the cells are
    in non-decreasing order. *)
Theorem cells_renumbered_by_color nd ju jd m m' :
  valid_colored_mesh m →
  renumber_by_color nd ju jd m = Done m' →
  ∃ ncc labels,
    num_colored_cells (data m) = Some ncc
    ∧ num_colored_cells (data m') = Some ncc
    ∧ cell_colors (data m') = Some labels
    ∧ Z.of_nat (length labels) = num_cells (topology m)
    ∧ first_cell ncc 0 = 0
    ∧ (∀ color cells,
         0 ≤ color < mesh_num_colors (data m) →
         colored_cells (data m) !! color = Some cells →
         first_cell ncc (color + 1) = first_cell ncc color + Z.of_nat (length cells)
         ∧ colored_cells (data m') !! color
           = Some (seqZ (first_cell ncc color) (Z.of_nat (length cells)))
         ∧ ∀ (i : nat) cell,
             cells !! i = Some cell →
             sweep_cells m !! Z.to_nat (first_cell ncc color + Z.of_nat i) = Some cell
             ∧ labels !! Z.to_nat (first_cell ncc color + Z.of_nat i) = Some color)
    ∧ (∀ (i j : nat) ci cj,
         (i ≤ j)%nat → labels !! i = Some ci → labels !! j = Some cj → ci ≤ cj).
Proof.
  intros Hvalid Hdone. pose proof (valid_colored_mesh_wf m Hvalid) as Hwf.
  destruct (renumber_by_color_Done nd ju jd m m' Hwf Hdone)
    as (st & ncc & Hncc & _ & _ & _ & Hupd & _).
  pose proof (valid_counts_match m ncc Hvalid Hncc) as Hm.
  destruct (update_renumbering_data_wf m st ncc Hwf Hncc Hm) as (s & Hs & Hinv).
  rewrite Hs in Hupd. injection Hupd as <-. cbn [data set_data].
  pose proof (Permutation_length (valid_sweep_cells m Hvalid)) as Hcells.
  rewrite length_seqZ in Hcells.
  pose proof Hwf as (_ & (Hnc & _) & (Hcols & _)).
  pose proof (mesh_num_colors_nat (data m)) as Hnat.
  set (nc := Z.to_nat (mesh_num_colors (data m))) in *.
  destruct (ui_colors _ _ _ _ Hinv) as (colors0 & Hcolors0 & Hlabels).
  rewrite Hcolors0 in Hcols. simpl in Hcols. injection Hcols as Hcols.
  pose proof (ui_cells _ _ _ _ Hinv) as Hfirst.
  assert (cells_before (data m) (Z.of_nat nc) = sweep_cells m) as Hsweep.
  { unfold cells_before, sweep_cells. by rewrite Hnat. }
  rewrite Hsweep in Hfirst.
  rewrite drop_ge, app_nil_r in Hlabels by lia.
  rewrite <-Hnat in Hm.
  exists ncc, (color_labels ncc (Z.of_nat nc)).
  split_and!; [done| |done| |done| |].
  - rewrite (ui_counts _ _ _ _ Hinv). done.
  - rewrite <-(ui_labels _ _ _ _ Hinv). lia.
  - intros color cells Hcolor Hlist.
    assert (color = Z.of_nat (Z.to_nat color)) as Hc by lia.
    rewrite Hc in Hlist |- *. set (c := Z.to_nat color) in *.
    assert (c < nc)%nat as Hlt by lia.
    pose proof (counts_match_below_le _ _ (S c) nc ltac:(lia) Hm)
      as [_ Hcount]%counts_match_below_S.
    rewrite Hlist in Hcount. simpl in Hcount. symmetry in Hcount.
    split_and!.
    + replace (Z.of_nat c + 1) with (Z.of_nat (S c)) by lia. by apply first_cell_S.
    + by apply (ui_done _ _ _ _ Hinv).
    + intros i cell Hi.
      destruct (sweep_position (data m) ncc nc c i cells cell Hm Hlt Hlist Hi)
        as (_ & Hpos & Hlab).
      split; [|done]. unfold sweep_cells. by rewrite <-Hnat.
  - intros i j ci cj. apply color_labels_sorted.
Qed.

Lemma cells_renumbered_by_color_witness :
  ∃ ncc labels,
    num_colored_cells (data scale_mesh) = Some ncc
    ∧ num_colored_cells (data scale_mesh_renumbered) = Some ncc
    ∧ cell_colors (data scale_mesh_renumbered) = Some labels
    ∧ Z.of_nat (length labels) = num_cells (topology scale_mesh)
    ∧ first_cell ncc 0 = 0
    ∧ (∀ color cells,
         0 ≤ color < mesh_num_colors (data scale_mesh) →
         colored_cells (data scale_mesh) !! color = Some cells →
         first_cell ncc (color + 1) = first_cell ncc color + Z.of_nat (length cells)
         ∧ colored_cells (data scale_mesh_renumbered) !! color
           = Some (seqZ (first_cell ncc color) (Z.of_nat (length cells)))
         ∧ ∀ (i : nat) cell,
             cells !! i = Some cell →
             sweep_cells scale_mesh !! Z.to_nat (first_cell ncc color + Z.of_nat i)
             = Some cell
             ∧ labels !! Z.to_nat (first_cell ncc color + Z.of_nat i) = Some color)
    ∧ (∀ (i j : nat) ci cj,
         (i ≤ j)%nat → labels !! i = Some ci → labels !! j = Some cj → ci ≤ cj).
Proof.
  apply (cells_renumbered_by_color false (λ _, 0) (λ _, 0) scale_mesh).
  - by_computation.
  - vm_compute. reflexivity.
Defined.

(** C8.  The routine does not compare the recorded counts with the
    lists.  When the count of the colour 1 of the example is 0, the run
    ends normally: the mesh holds the renumbered connectivity, and the
    list of the colour 1 still holds the old number of its cell.  When the
    count is 2, the run is undefined: line 131 writes behind the end of
    the list. *)
Theorem miscount_not_reported :
  num_colored_cells (data undercounted_mesh) = Some [2; 0]
  ∧ colored_cells (data undercounted_mesh) !! 1 = Some [1]
  ∧ (∃ m', renumber_by_color true (λ _, 0) (λ _, 0) undercounted_mesh = Done m'
           ∧ connections (cell_vertex (topology m'))
             = connections (cell_vertex (topology scale_mesh_renumbered))
           ∧ colored_cells (data m') !! 0 = Some [0; 1]
           ∧ colored_cells (data m') !! 1 = Some [1])
  ∧ num_colored_cells (data miscounted_mesh) = Some [2; 2]
  ∧ colored_cells (data miscounted_mesh) !! 1 = Some [1]
  ∧ renumber_by_color true (λ _, 0) (λ _, 0) miscounted_mesh = Undefined.
Proof.
  split_and!; [done|vm_compute; reflexivity| |done|vm_compute; reflexivity
              |vm_compute; reflexivity].
  eexists. split_and!; vm_compute; reflexivity.
Qed.

(** C9.  The example with two colours and three triangles: the sweep
    meets the vertices first in the order v3, v1, v0, v2, v4, which get
    the new indices 0 to 4; the cells 2, 0, 1 become the cells 0, 1, 2; the
    new cell 0 has the vertices (0, 1, 2). *)
Theorem scale_example nd ju jd :
  ∃ st,
    renumber_vertices nd ju jd (clean scale_mesh) (mesh_num_colors (data scale_mesh))
    = Done st
    ∧ first_seen (sweep_vertices scale_mesh) = [3; 1; 0; 2; 4]
    ∧ new_vertex_index st 3 = Some 0
    ∧ new_vertex_index st 1 = Some 1
    ∧ new_vertex_index st 0 = Some 2
    ∧ new_vertex_index st 2 = Some 3
    ∧ new_vertex_index st 4 = Some 4
    ∧ sweep_cells scale_mesh = [2; 0; 1]
    ∧ renumber_by_color nd ju jd scale_mesh = Done scale_mesh_renumbered
    ∧ colored_cells (data scale_mesh_renumbered) !! 0 = Some [0; 1]
    ∧ colored_cells (data scale_mesh_renumbered) !! 1 = Some [2]
    ∧ cell_tuple (cell_vertex (topology scale_mesh_renumbered)) 0 = [0; 1; 2].
Proof.
  destruct nd; (eexists; split; [vm_compute; reflexivity|]);
    split_and!; vm_compute; reflexivity.
Qed.

(** C10, as it holds.  Two runs of [renumber_by_color] on the same mesh
    end in the same way, whatever the temporaries held when they were
    allocated: both normally, both with the same failure, or both
    undefined, and the meshes they leave have the same colour data and
    derived connectivity.  On a valid coloured mesh they leave the same
    mesh. *)
Theorem renumber_by_color_deterministic nd ju jd ju' jd' m :
  outcome_sim mesh_sim (renumber_by_color nd ju jd m) (renumber_by_color nd ju' jd' m)
  ∧ (valid_colored_mesh m →
     renumber_by_color nd ju jd m = renumber_by_color nd ju' jd' m).
Proof.
  split; [apply renumber_by_color_sim|].
  intros Hvalid. pose proof (valid_colored_mesh_wf m Hvalid) as Hwf.
  destruct (renumber_by_color_wf nd ju jd m Hwf) as (st1 & ncc & Hncc & _ & H1 & ->).
  destruct (renumber_by_color_wf nd ju' jd' m Hwf) as (st2 & ncc' & Hncc' & _ & H2 & ->).
  rewrite Hncc in Hncc'. injection Hncc' as <-.
  pose proof Hwf as (Hg & Hc & _).
  assert (all_renumbered st1 = all_renumbered st2) as Hsame.
  { unfold all_renumbered. by rewrite (pass_indices_unique _ _ _ _ H1 H2). }
  rewrite <-Hsame. destruct (all_renumbered st1) eqn:Hall; [|done].
  apply (all_renumbered_spec (clean m) st1 _ Hg H1) in Hall.
  assert (committed m st1 = committed m st2) as ->; [|done].
  unfold committed. f_equal; [f_equal|].
  - apply (pass_connections_unique _ _ _ _ H1 H2).
    pose proof (Permutation_length (valid_sweep_cells m Hvalid)) as Hcells.
    rewrite length_seqZ in Hcells.
    change (sweep_vertices (clean m)) with (sweep_vertices m).
    rewrite sweep_vertices_length by done. cbn [topology clean cell_vertex].
    destruct Hc as (Hnc & Ha & Hsz & _). unfold _size in Hsz. nia.
  - apply (pass_coordinates_unique (clean m) _ _ _ Hg H1 H2).
    pose proof (first_seen_complete (clean m) _ (inv_range _ _ _ H1) Hall) as Hperm.
    apply Permutation_length in Hperm. rewrite length_seqZ in Hperm.
    destruct Hg as (Hn & _). cbn [topology clean num_vertices] in Hperm |- *. lia.
Qed.

Lemma renumber_by_color_deterministic_witness :
  outcome_sim mesh_sim
    (renumber_by_color false (λ _, 0) (λ _, 0) scale_mesh)
    (renumber_by_color false (λ _, 7) (λ _, 9) scale_mesh)
  ∧ renumber_by_color false (λ _, 0) (λ _, 0) scale_mesh
    = renumber_by_color false (λ _, 7) (λ _, 9) scale_mesh.
Proof.
  destruct (renumber_by_color_deterministic false (λ _, 0) (λ _, 0) (λ _, 7) (λ _, 9)
              scale_mesh) as [Hsim Heq].
  split; [exact Hsim|]. apply Heq. by_computation.
Defined.

(** C10, as it is stated, fails: when the partition lists only one of two
    cells that use the same vertices, the completeness check passes, and
    the entries of the connectivity buffer that the sweep did not write
    are what the temporary held when it was allocated. *)
Lemma uninitialised_scratch_leaks :
  ∃ m1 m2,
    renumber_by_color false (λ _, 0) (λ _, 0) partial_partition_mesh = Done m1
    ∧ renumber_by_color false (λ _, 7) (λ _, 0) partial_partition_mesh = Done m2
    ∧ connections (cell_vertex (topology m1)) = [0; 1; 2; 0; 0; 0]
    ∧ connections (cell_vertex (topology m2)) = [0; 1; 2; 7; 7; 7]
    ∧ m1 ≠ m2.
Proof.
  do 2 eexists. split_and!; [vm_compute; reflexivity..|discriminate].
Qed.

(** * Further properties of the routine *)

(** ** The renumbered mesh *)

(** A normal end on a valid coloured mesh, taken apart. *)
Lemma renumber_by_color_valid_Done nd ju jd m m' :
  valid_colored_mesh m →
  renumber_by_color nd ju jd m = Done m' →
  ∃ st ncc s,
    num_colored_cells (data m) = Some ncc
    ∧ pass_inv (clean m) st (sweep_vertices m)
    ∧ all_vertices_referenced m
    ∧ update_inv (data m) ncc (Z.to_nat (mesh_num_colors (data m))) s
    ∧ m' = set_data (committed m st) (fst s).
Proof.
  intros Hvalid Hdone. pose proof (valid_colored_mesh_wf m Hvalid) as Hwf.
  destruct (renumber_by_color_Done nd ju jd m m' Hwf Hdone)
    as (st & ncc & Hncc & _ & Hinv & Hall & Hupd & _).
  destruct (update_renumbering_data_wf m st ncc Hwf Hncc) as (s & Hs & Hui).
  { by apply valid_counts_match. }
  rewrite Hs in Hupd. injection Hupd as <-. by exists st, ncc, s.
Qed.

(** Numbering the entries of a list by their first occurrences gives a
    list whose first occurrences are 0, 1, 2, ... *)
Lemma first_seen_relabel (vs C : list Z) :
  length C = length vs →
  (∀ p v, vs !! p = Some v →
     ∃ k, first_seen vs !! k = Some v ∧ C !! p = Some (Z.of_nat k)) →
  first_seen C = seqZ 0 (Z.of_nat (length (first_seen vs))).
Proof.
  revert C. induction vs as [|x vs IH] using rev_ind; intros C Hlen HC.
  { by destruct C. }
  rewrite length_app in Hlen. simpl in Hlen.
  destruct (HC (length vs) x) as (kx & Hkx & Hcx).
  { by rewrite lookup_app_r, Nat.sub_diag. }
  assert (C = take (length vs) C ++ [Z.of_nat kx]) as HCeq.
  { rewrite <-(take_S_r _ _ _ Hcx). by rewrite take_ge by lia. }
  specialize (IH (take (length vs) C)).
  rewrite HCeq, first_seen_snoc, IH.
  - rewrite first_seen_snoc in Hkx |- *. case_decide as Hx.
    + rewrite decide_True; [done|]. apply lookup_lt_Some in Hkx.
      apply elem_of_seqZ. lia.
    + apply lookup_app_Some in Hkx as [Hkx|[Hge Hkx]].
      { destruct Hx. by eapply list_elem_of_lookup_2. }
      apply list_lookup_singleton_Some in Hkx as [Hkx _].
      rewrite decide_False by (rewrite elem_of_seqZ; lia).
      rewrite length_app. simpl.
      replace (length (first_seen vs) + 1)%nat with (S (length (first_seen vs))) by lia.
      rewrite seqZ_S. do 2 f_equal. lia.
  - rewrite length_take. lia.
  - intros p v Hp. pose proof (lookup_lt_Some _ _ _ Hp) as Hlt.
    destruct (HC p v) as (k & Hk & Hc); [by apply lookup_app_l_Some|].
    assert (v ∈ first_seen vs) as [k0 Hk0]%list_elem_of_lookup_1.
    { apply elem_of_first_seen. by eapply list_elem_of_lookup_2. }
    exists k0. split; [done|]. rewrite lookup_take_lt by done.
    rewrite Hc. do 2 f_equal.
    apply (NoDup_lookup _ _ _ v (NoDup_first_seen (vs ++ [x]))); [done|].
    rewrite first_seen_snoc. case_decide; [done|]. by apply lookup_app_l_Some.
Qed.

(** The tuples of the first cells, one after the other, are the beginning
    of the connectivity buffer. *)
Lemma cell_tuples_take c (n : nat) :
  0 ≤ num_entities c →
  mjoin (cell_tuple c <$> seqZ 0 (Z.of_nat n))
  = take (n * Z.to_nat (num_entities c)) (connections c).
Proof.
  intros Ha. induction n as [|n IH]; [done|].
  rewrite seqZ_S, fmap_app, join_app, IH. csimpl. rewrite app_nil_r.
  unfold cell_tuple. rewrite Z.add_0_l.
  replace (Z.to_nat (Z.of_nat n * num_entities c))
    with (n * Z.to_nat (num_entities c))%nat by nia.
  rewrite take_take_drop. f_equal. lia.
Qed.

(** The cells of the colours before [color], once the lists hold
    consecutive numbers. *)
Lemma cells_before_seqZ d0 ncc d (nc : nat) :
  counts_match_below d0 ncc (Z.of_nat nc) →
  Forall (λ c, is_Some (colored_cells d0 !! c)) (seqZ 0 (Z.of_nat nc)) →
  (∀ (c : nat) cells,
     (c < nc)%nat → colored_cells d0 !! Z.of_nat c = Some cells →
     colored_cells d !! Z.of_nat c
     = Some (seqZ (first_cell ncc (Z.of_nat c)) (Z.of_nat (length cells)))) →
  cells_before d (Z.of_nat nc) = seqZ 0 (first_cell ncc (Z.of_nat nc))
  ∧ counts_match_below d ncc (Z.of_nat nc).
Proof.
  induction nc as [|nc IH]; intros Hm Hlists Hd; [by split; [|constructor]|].
  apply counts_match_below_S in Hm as [Hm Hcount].
  rewrite seqZ_S, Forall_app, Forall_singleton, Z.add_0_l in Hlists.
  destruct Hlists as [Hlists [cells Hcells]].
  destruct IH as [IH1 IH2]; [done|done|intros; apply Hd; [lia|done]|].
  rewrite Hcells in Hcount. simpl in Hcount. symmetry in Hcount.
  specialize (Hd nc cells ltac:(lia) Hcells).
  destruct (first_cell_lengths d0 ncc nc Hm) as [Hfc _].
  split.
  - rewrite cells_before_S, IH1, (first_cell_S _ _ _ Hcount).
    unfold color_cells. rewrite Hd. simpl.
    rewrite (seqZ_app 0) by lia. by rewrite Z.add_0_l.
  - apply counts_match_below_S. split; [done|].
    rewrite Hd, Hcount. simpl. by rewrite length_seqZ, Nat2Z.id.
Qed.

(** The colour data after the update on a valid coloured mesh. *)
Lemma renumbered_data m ncc s :
  valid_colored_mesh m →
  num_colored_cells (data m) = Some ncc →
  update_inv (data m) ncc (Z.to_nat (mesh_num_colors (data m))) s →
  num_colored_cells (fst s) = Some ncc
  ∧ mesh_num_colors (fst s) = mesh_num_colors (data m)
  ∧ cell_colors (fst s) = Some (color_labels ncc (mesh_num_colors (data m)))
  ∧ Z.of_nat (length (color_labels ncc (mesh_num_colors (data m))))
    = num_cells (topology m)
  ∧ first_cell ncc (mesh_num_colors (data m)) = num_cells (topology m)
  ∧ cells_before (fst s) (mesh_num_colors (data m)) = seqZ 0 (num_cells (topology m))
  ∧ counts_match_below (fst s) ncc (mesh_num_colors (data m))
  ∧ Forall (λ c, is_Some (colored_cells (fst s) !! c))
      (seqZ 0 (mesh_num_colors (data m))).
Proof.
  intros Hvalid Hncc Hinv. pose proof (valid_colored_mesh_wf m Hvalid) as Hwf.
  pose proof (valid_counts_match m ncc Hvalid Hncc) as Hm.
  pose proof (Permutation_length (valid_sweep_cells m Hvalid)) as Hcells.
  rewrite length_seqZ in Hcells.
  pose proof Hwf as (_ & (Hnc & _) & (Hcols & _ & _ & Hlists & _)).
  pose proof (mesh_num_colors_nat (data m)) as Hnat.
  set (nc := Z.to_nat (mesh_num_colors (data m))) in *.
  destruct (ui_colors _ _ _ _ Hinv) as (colors0 & Hcolors0 & Hlabels).
  rewrite Hcolors0 in Hcols. simpl in Hcols. injection Hcols as Hcols.
  pose proof (ui_cells _ _ _ _ Hinv) as Hfirst.
  assert (cells_before (data m) (Z.of_nat nc) = sweep_cells m) as Hsweep.
  { unfold cells_before, sweep_cells. by rewrite Hnat. }
  rewrite Hsweep in Hfirst.
  rewrite drop_ge, app_nil_r in Hlabels by lia.
  pose proof (ui_labels _ _ _ _ Hinv) as Hlen.
  pose proof (ui_counts _ _ _ _ Hinv) as Hcounts. rewrite Hncc in Hcounts.
  rewrite <-Hnat in Hm, Hlists |- *.
  destruct (cells_before_seqZ (data m) ncc (fst s) nc Hm Hlists) as [Hseq Hm'].
  { intros c cells Hc Hcells0. by apply (ui_done _ _ _ _ Hinv). }
  split_and!; [done| |done|lia|lia| |done|].
  - rewrite Hnat. unfold mesh_num_colors. by rewrite Hcounts, Hncc.
  - rewrite Hseq. f_equal. lia.
  - rewrite Forall_forall in Hlists |- *. intros c Hc.
    destruct (Hlists c Hc) as [cells Hcells0].
    apply elem_of_seqZ in Hc.
    assert (c = Z.of_nat (Z.to_nat c)) as Hcn by lia. rewrite Hcn in Hcells0 |- *.
    rewrite (ui_done _ _ _ _ Hinv (Z.to_nat c) cells) by (done || lia). done.
Qed.

(** The connectivity buffer after the sweep on a valid coloured mesh in
    which every vertex is used. *)
Lemma renumbered_connections m st :
  valid_colored_mesh m →
  pass_inv (clean m) st (sweep_vertices m) →
  all_vertices_referenced m →
  length (sweep_vertices m) = length (connections (cell_vertex (topology m)))
  ∧ Z.of_nat (length (first_seen (sweep_vertices m))) = num_vertices (topology m)
  ∧ Forall (λ v, 0 ≤ v < num_vertices (topology m)) (new_connections st)
  ∧ first_seen (new_connections st) = seqZ 0 (num_vertices (topology m))
  ∧ Forall (λ k, k ∈ new_connections st) (seqZ 0 (num_vertices (topology m))).
Proof.
  intros Hvalid Hinv Hall. pose proof (valid_colored_mesh_wf m Hvalid) as Hwf.
  pose proof Hwf as (Hg & Hc & _). pose proof Hg as (Hn & _).
  assert (length (sweep_vertices m) = length (connections (cell_vertex (topology m))))
    as Hlen.
  { pose proof (Permutation_length (valid_sweep_cells m Hvalid)) as Hcells.
    rewrite length_seqZ in Hcells. rewrite sweep_vertices_length by done.
    destruct Hc as (Hnc & Ha & Hsz & _). unfold _size in Hsz. nia. }
  pose proof (inv_range _ _ _ Hinv) as Hrange. cbn [topology clean num_vertices] in Hrange.
  pose proof (first_seen_complete m _ Hrange Hall) as Hperm.
  pose proof (Permutation_length Hperm) as Hfs. rewrite length_seqZ in Hfs.
  pose proof (inv_connections_length _ _ _ Hinv) as HlenC.
  cbn [topology clean cell_vertex] in HlenC.
  split_and!; [done|lia| | |].
  - apply Forall_forall. intros k [p Hp]%list_elem_of_lookup_1.
    destruct (lookup_lt_is_Some_2 (sweep_vertices m) p) as [v Hv].
    { apply lookup_lt_Some in Hp. lia. }
    destruct (inv_connections _ _ _ Hinv p v Hv) as (k' & Hk' & Hc').
    apply lookup_lt_Some in Hk'. rewrite Hp in Hc'. injection Hc' as ->. lia.
  - rewrite (first_seen_relabel (sweep_vertices m)).
    + f_equal. lia.
    + lia.
    + apply (inv_connections _ _ _ Hinv).
  - apply Forall_forall. intros k Hk%elem_of_seqZ.
    destruct (lookup_lt_is_Some_2 (first_seen (sweep_vertices m)) (Z.to_nat k))
      as [v Hv]; [lia|].
    assert (v ∈ sweep_vertices m) as [p Hp]%list_elem_of_lookup_1.
    { apply elem_of_first_seen. by eapply list_elem_of_lookup_2. }
    destruct (inv_connections _ _ _ Hinv p v Hp) as (k' & Hk' & Hc').
    pose proof (NoDup_lookup _ _ _ _ (NoDup_first_seen _) Hv Hk') as <-.
    rewrite Z2Nat.id in Hc' by lia. by eapply list_elem_of_lookup_2.
Qed.

(** The mesh that the routine leaves on a valid coloured mesh is valid, its
    cells are listed in the order 0, 1, 2, ..., and the sweep over it meets
    the vertices in the order of its connectivity buffer. *)
Lemma renumbered_mesh_facts m st ncc s :
  valid_colored_mesh m →
  num_colored_cells (data m) = Some ncc →
  pass_inv (clean m) st (sweep_vertices m) →
  all_vertices_referenced m →
  update_inv (data m) ncc (Z.to_nat (mesh_num_colors (data m))) s →
  valid_colored_mesh (set_data (committed m st) (fst s))
  ∧ sweep_cells (set_data (committed m st) (fst s)) = seqZ 0 (num_cells (topology m))
  ∧ sweep_vertices (set_data (committed m st) (fst s)) = new_connections st.
Proof.
  intros Hvalid Hncc Hinv Hall Hui. pose proof (valid_colored_mesh_wf m Hvalid) as Hwf.
  destruct (renumbered_data m ncc s Hvalid Hncc Hui)
    as (Hncc' & Hnc' & Hlab & Hlablen & Hfc & Hcb & Hcm & Hlists').
  destruct (renumbered_connections m st Hvalid Hinv Hall)
    as (Hlen & Hfs & HCr & HfsC & HCall).
  pose proof Hwf as (Hg & Hc & (_ & _ & Hpos & Hlists & _)).
  pose proof Hg as (Hn & Hd & Hgs & Hnd & Hglen).
  pose proof Hc as (Hnc & Ha & Hsz & Hszlt & _).
  pose proof (inv_connections_length _ _ _ Hinv) as HlenC.
  pose proof (inv_coordinates_length _ _ _ Hinv) as HlenG.
  cbn [topology geometry clean cell_vertex] in HlenC, HlenG.
  set (m' := set_data (committed m st) (fst s)).
  assert (sweep_cells m' = seqZ 0 (num_cells (topology m))) as Hsweep.
  { unfold sweep_cells, m'. cbn [data set_data]. rewrite Hnc'. exact Hcb. }
  split_and!; [split_and!; [split_and!| |]|done|].
  - unfold wf_geometry, m'. simpl. rewrite HlenG. done.
  - unfold wf_connectivity, m', _size in *. simpl. rewrite HlenC. done.
  - unfold wf_coloring. rewrite Hsweep. unfold m'. cbn [data set_data].
    rewrite Hlab, Hncc', Hnc'. simpl. split_and!; [by rewrite Hlablen|done|done|done| |].
    + apply NoDup_seqZ.
    + apply Forall_forall. intros c Hin%elem_of_seqZ. lia.
  - unfold counts_match, m'. cbn [data set_data]. by rewrite Hncc', Hnc'.
  - rewrite Hsweep. by apply Forall_forall.
  - unfold sweep_vertices. rewrite Hsweep.
    rewrite <-(Z2Nat.id (num_cells (topology m))) by lia.
    unfold m', committed. cbn [topology set_data set_coordinates set_connections
                                 cell_vertex clean].
    rewrite cell_tuples_take by done. cbn [connections num_entities].
    apply take_ge. unfold _size in Hsz. nia.
Qed.

(** X1.  Renumbering a valid coloured mesh gives a valid coloured mesh
    again: its cells are listed in the order 0, 1, 2, ..., every vertex is
    used by a cell, every listed cell carries the label of its colour
    (whatever the labels were before), and the derived connectivity is
    empty. *)
Theorem renumbered_mesh_valid nd ju jd m m' :
  valid_colored_mesh m →
  renumber_by_color nd ju jd m = Done m' →
  valid_colored_mesh m'
  ∧ all_vertices_referenced m'
  ∧ labels_consistent (data m')
  ∧ sweep_cells m' = seqZ 0 (num_cells (topology m'))
  ∧ derived (topology m') = ∅.
Proof.
  intros Hvalid Hdone. pose proof (valid_colored_mesh_wf m Hvalid) as Hwf.
  destruct (renumber_by_color_valid_Done nd ju jd m m' Hvalid Hdone)
    as (st & ncc & s & Hncc & Hinv & Hall & Hui & ->).
  destruct (renumbered_mesh_facts m st ncc s Hvalid Hncc Hinv Hall Hui)
    as (Hvalid' & Hsweep & Hsv).
  destruct (renumbered_data m ncc s Hvalid Hncc Hui) as (_ & Hnc' & Hlab & _).
  destruct (renumbered_connections m st Hvalid Hinv Hall) as (_ & _ & _ & _ & HCall).
  pose proof Hwf as (_ & _ & (_ & _ & _ & Hlists & _)).
  split_and!; [done| | |done|done].
  - (* every vertex is used *)
    unfold all_vertices_referenced. by rewrite Hsv.
  - (* the labels *)
    intros color cells cell Hcolor Hcells Hin.
    cbn [data set_data] in *. rewrite Hnc' in Hcolor. rewrite Hlab. simpl.
    pose proof (valid_counts_match m ncc Hvalid Hncc) as Hm.
    pose proof (mesh_num_colors_nat (data m)) as Hnat.
    rewrite <-Hnat in Hm, Hlists, Hcolor |- *.
    set (nc := Z.to_nat (mesh_num_colors (data m))) in *.
    assert (color = Z.of_nat (Z.to_nat color)) as Hcn by lia.
    rewrite Forall_forall in Hlists.
    destruct (Hlists color) as [cells0 Hcells0]; [apply elem_of_seqZ; lia|].
    rewrite Hcn in Hcells, Hcells0 |- *. set (c := Z.to_nat color) in *.
    rewrite (ui_done _ _ _ _ Hui c cells0) in Hcells by (done || lia).
    injection Hcells as <-. apply elem_of_seqZ in Hin.
    destruct (first_cell_lengths (data m) ncc c) as [Hfc0 _].
    { apply (counts_match_below_le _ _ c nc); [lia|done]. }
    set (i := Z.to_nat (cell - first_cell ncc (Z.of_nat c))).
    destruct (lookup_lt_is_Some_2 cells0 i) as [cell0 Hcell0]; [lia|].
    destruct (sweep_position (data m) ncc nc c i cells0 cell0 Hm ltac:(lia) Hcells0 Hcell0)
      as (_ & _ & Hpos').
    unfold read. rewrite decide_True by lia. rewrite <-Hpos'. f_equal. lia.
Qed.

Lemma renumbered_mesh_valid_witness :
  valid_colored_mesh scale_mesh_renumbered
  ∧ all_vertices_referenced scale_mesh_renumbered
  ∧ labels_consistent (data scale_mesh_renumbered)
  ∧ sweep_cells scale_mesh_renumbered
    = seqZ 0 (num_cells (topology scale_mesh_renumbered))
  ∧ derived (topology scale_mesh_renumbered) = ∅.
Proof.
  apply (renumbered_mesh_valid false (λ _, 0) (λ _, 0) scale_mesh).
  - by_computation.
  - vm_compute. reflexivity.
Defined.

Lemma MeshData_eq (d d' : MeshData) :
  cell_colors d = cell_colors d' →
  num_colored_cells d = num_colored_cells d' →
  colored_cells d = colored_cells d' →
  d = d'.
Proof. destruct d, d'. simpl. by intros -> -> ->. Qed.

(** X2.  The routine is idempotent on valid coloured meshes: renumbering
    the mesh that a normal run has left ends normally and leaves that
    mesh as it is, whether assertions are enabled or not and whatever the
    temporaries hold. *)
Theorem renumber_by_color_idempotent nd ju jd nd' ju' jd' m m' :
  valid_colored_mesh m →
  renumber_by_color nd ju jd m = Done m' →
  renumber_by_color nd' ju' jd' m' = Done m'.
Proof.
  intros Hvalid Hdone. pose proof (valid_colored_mesh_wf m Hvalid) as Hwf.
  destruct (renumber_by_color_valid_Done nd ju jd m m' Hvalid Hdone)
    as (st & ncc & s & Hncc & Hinv & Hall & Hui & ->).
  destruct (renumbered_mesh_facts m st ncc s Hvalid Hncc Hinv Hall Hui)
    as (Hvalid' & Hsweep & Hsv).
  destruct (renumbered_data m ncc s Hvalid Hncc Hui)
    as (Hncc' & Hnc' & Hlab & _ & _ & _ & _ & Hlists').
  destruct (renumbered_connections m st Hvalid Hinv Hall)
    as (Hlen & Hfs & HCr & HfsC & HCall).
  pose proof Hwf as (Hg & _). pose proof Hg as (Hn & Hd & Hgs & Hnd & Hglen).
  set (m' := set_data (committed m st) (fst s)) in *.
  assert (all_vertices_referenced m') as Hall'.
  { unfold all_vertices_referenced. by rewrite Hsv. }
  destruct (renumber_by_color_succeeds nd' ju' jd' m' Hvalid' Hall') as [m'' Hdone'].
  rewrite Hdone'. f_equal.
  destruct (renumber_by_color_valid_Done nd' ju' jd' m' m'' Hvalid' Hdone')
    as (st' & ncc' & s' & Hncc2 & Hinv' & _ & Hui' & ->).
  assert (ncc' = ncc) as -> by (cbn [data set_data m'] in Hncc2; congruence).
  destruct (renumbered_data m' ncc s' Hvalid' Hncc2 Hui') as (Hncc3 & _ & Hlab' & _).
  rewrite Hsv in Hinv'.
  pose proof (inv_connections_length _ _ _ Hinv) as HlenC.
  pose proof (inv_coordinates_length _ _ _ Hinv) as HlenG.
  pose proof (inv_connections_length _ _ _ Hinv') as HlenC'.
  pose proof (inv_coordinates_length _ _ _ Hinv') as HlenG'.
  cbn in HlenC, HlenG, HlenC', HlenG'.
  assert (new_connections st' = new_connections st) as HC.
  { apply (list_eq_same_length _ _ (length (new_connections st))); [done|done|].
    intros p x y Hp Hx Hy.
    destruct (inv_connections _ _ _ Hinv' p y Hy) as (k & Hk & Hx').
    rewrite HfsC in Hk. apply lookup_seqZ in Hk as [Hyk _].
    rewrite Hx in Hx'. injection Hx' as ->. lia. }
  assert (new_coordinates st' = new_coordinates st) as HG.
  { apply (list_eq_same_length _ _ (length (new_coordinates st))); [done|done|].
    intros q x y Hq Hx Hy.
    set (d := Z.to_nat (gdim (geometry m))).
    assert (d ≠ 0)%nat as Hd0 by (unfold d; nia).
    pose proof (Nat.div_mod q d Hd0) as Hdiv.
    pose proof (Nat.mod_upper_bound q d Hd0) as Hmod.
    assert (Z.of_nat (q `div` d) < num_vertices (topology m)) as Hk.
    { assert (q `div` d < Z.to_nat (num_vertices (topology m)))%nat; [|lia].
      apply Nat.Div0.div_lt_upper_bound. unfold d. nia. }
    pose proof (inv_coordinates _ _ _ Hinv' (q `div` d)%nat
                  (Z.of_nat (q `div` d)) (q `mod` d)%nat) as Hcopy.
    rewrite HfsC in Hcopy. cbn in Hcopy. fold d in Hcopy.
    rewrite Nat2Z.id in Hcopy.
    replace (q `div` d * d + q `mod` d)%nat with q in Hcopy by lia.
    rewrite Hcopy in Hx; [congruence| |done].
    by rewrite lookup_seqZ_lt by done. }
  assert (fst s' = fst s) as HD.
  { apply MeshData_eq.
    - rewrite Hlab', Hlab. cbn [data set_data m']. by rewrite Hnc'.
    - by rewrite Hncc3, Hncc'.
    - apply map_eq. intros c.
      pose proof (mesh_num_colors_nat (data m)) as Hnat.
      destruct (decide (0 ≤ c < mesh_num_colors (data m))) as [Hc|Hc].
      + rewrite Forall_forall in Hlists'.
        destruct (Hlists' c) as [l Hl]; [apply elem_of_seqZ; lia|].
        assert (c = Z.of_nat (Z.to_nat c)) as Hcn by lia.
        pose proof Hwf as (_ & _ & (_ & _ & _ & Hlists & _)).
        rewrite Forall_forall in Hlists.
        destruct (Hlists c) as [l0 Hl0]; [apply elem_of_seqZ; lia|].
        rewrite Hcn in Hl, Hl0 |- *.
        pose proof (ui_done _ _ _ _ Hui (Z.to_nat c) l0 ltac:(lia) Hl0) as Hl1.
        rewrite (ui_done _ _ _ _ Hui' (Z.to_nat c) l) by (done || cbn; lia).
        rewrite Hl1 in Hl |- *. injection Hl as <-.
        by rewrite length_seqZ, Nat2Z.id.
      + rewrite (ui_todo _ _ _ _ Hui') by (cbn [data set_data m']; lia). done. }
  unfold committed. rewrite HC, HG, HD. reflexivity.
Qed.

Lemma renumber_by_color_idempotent_witness :
  renumber_by_color true (λ _, 7) (λ _, 9) scale_mesh_renumbered
  = Done scale_mesh_renumbered.
Proof.
  apply (renumber_by_color_idempotent false (λ _, 0) (λ _, 0) true (λ _, 7) (λ _, 9)
           scale_mesh).
  - by_computation.
  - vm_compute. reflexivity.
Defined.

(** ** How a run ends *)

(** A list without repetitions of [n] numbers below [n] holds every number
    below [n]. *)
Lemma NoDup_below_full (l : list Z) n :
  NoDup l → Forall (λ x, 0 ≤ x < n) l → Z.of_nat (length l) = n →
  Forall (λ x, x ∈ l) (seqZ 0 n).
Proof.
  intros Hnd Hl Hlen.
  assert (l ⊆+ seqZ 0 n) as Hsub.
  { apply NoDup_submseteq; [done|]. intros x Hx. apply elem_of_seqZ.
    rewrite Forall_forall in Hl. specialize (Hl x Hx). lia. }
  apply submseteq_length_Permutation in Hsub; [|rewrite length_seqZ; lia].
  apply Forall_forall. intros x Hx. by rewrite Hsub.
Qed.

(** X4.  On a well-formed coloured mesh the sweep ends with
    [connections_offset] at the number of listed cells times the number of
    vertices per cell, which is within the buffer, and with
    [current_vertex] at the number of distinct vertices that the listed
    cells use, which is at most the number of vertices; the completeness
    check passes exactly when [current_vertex] has reached the number of
    vertices; and when every cell is listed, [connections_offset] has
    reached the size of the buffer. *)
Theorem sweep_counters nd ju jd m :
  wf_colored_mesh m →
  ∃ st,
    renumber_vertices nd ju jd (clean m) (mesh_num_colors (data m)) = Done st
    ∧ connections_offset st
      = Z.of_nat (length (sweep_cells m)) * num_entities (cell_vertex (topology m))
    ∧ connections_offset st ≤ _size (cell_vertex (topology m))
    ∧ current_vertex st = Z.of_nat (length (first_seen (sweep_vertices m)))
    ∧ current_vertex st ≤ num_vertices (topology m)
    ∧ (all_renumbered st = true ↔ current_vertex st = num_vertices (topology m))
    ∧ (Forall (λ c, c ∈ sweep_cells m) (seqZ 0 (num_cells (topology m))) →
       connections_offset st = _size (cell_vertex (topology m))).
Proof.
  intros Hwf.
  destruct (renumber_by_color_wf nd ju jd m Hwf) as (st & ncc & _ & Hrun & Hinv & _).
  pose proof Hwf as (Hg & Hc & (_ & _ & _ & _ & Hnd & Hcells)).
  pose proof Hg as (Hn & _). pose proof Hc as (Hnc & Ha & Hsz & _).
  pose proof (inv_range _ _ _ Hinv) as Hrange. cbn [topology clean num_vertices] in Hrange.
  pose proof (first_seen_length_le m _ Hrange) as Hle.
  pose proof (sweep_vertices_length m Hwf) as Hlen.
  pose proof (sweep_vertices_length_le m Hwf) as Hroom.
  exists st. split_and!; [done| | |apply Hinv| | |].
  - rewrite (inv_offset _ _ _ Hinv), Hlen. lia.
  - rewrite (inv_offset _ _ _ Hinv). unfold _size. lia.
  - rewrite (inv_current _ _ _ Hinv). lia.
  - rewrite (all_renumbered_spec (clean m) st _ Hg Hinv), (inv_current _ _ _ Hinv).
    cbn [topology clean num_vertices]. split.
    + intros Hall. pose proof (first_seen_complete m _ Hrange Hall) as Hperm.
      apply Permutation_length in Hperm. rewrite length_seqZ in Hperm. lia.
    + intros Hfull. eapply Forall_impl.
      * apply (NoDup_below_full (first_seen (sweep_vertices m))); [|  |done].
        { apply NoDup_first_seen. }
        { rewrite Forall_forall in Hrange |- *. intros x Hx. apply Hrange.
          by apply elem_of_first_seen. }
      * intros x Hx. by apply elem_of_first_seen.
  - intros Hall.
    assert (sweep_cells m ≡ₚ seqZ 0 (num_cells (topology m))) as Hperm.
    { apply NoDup_Permutation; [done|apply NoDup_seqZ|].
      intros c. rewrite Forall_forall in Hcells, Hall. split.
      - intros Hin%Hcells. apply elem_of_seqZ. lia.
      - apply Hall. }
    apply Permutation_length in Hperm. rewrite length_seqZ in Hperm.
    rewrite (inv_offset _ _ _ Hinv), Hlen, Hsz. nia.
Qed.

Lemma sweep_counters_witness :
  ∃ st,
    renumber_vertices false (λ _, 0) (λ _, 0) (clean lonely_vertex_mesh)
      (mesh_num_colors (data lonely_vertex_mesh)) = Done st
    ∧ connections_offset st
      = Z.of_nat (length (sweep_cells lonely_vertex_mesh))
        * num_entities (cell_vertex (topology lonely_vertex_mesh))
    ∧ connections_offset st ≤ _size (cell_vertex (topology lonely_vertex_mesh))
    ∧ current_vertex st
      = Z.of_nat (length (first_seen (sweep_vertices lonely_vertex_mesh)))
    ∧ current_vertex st ≤ num_vertices (topology lonely_vertex_mesh)
    ∧ (all_renumbered st = true
       ↔ current_vertex st = num_vertices (topology lonely_vertex_mesh))
    ∧ (Forall (λ c, c ∈ sweep_cells lonely_vertex_mesh)
         (seqZ 0 (num_cells (topology lonely_vertex_mesh))) →
       connections_offset st = _size (cell_vertex (topology lonely_vertex_mesh))).
Proof.
  apply (sweep_counters false (λ _, 0) (λ _, 0) lonely_vertex_mesh). by_computation.
Defined.

(** ** The shape of the mesh *)

Lemma std_copy_length {A} (src dst : list A) first last out r :
  std_copy src first last dst out = Some r → length r = length dst.
Proof.
  unfold std_copy. case_decide; [|done]. intros [= <-].
  rewrite !length_app, !length_take, !length_drop. lia.
Qed.

Lemma write_length {A} (a : list A) i x r : write a i x = Some r → length r = length a.
Proof. intros [_ ->]%write_Some. apply length_insert. Qed.

(** A loop whose body keeps a property of the state keeps it, however it
    ends. *)
Lemma for_each_keeps {S A} (body : S → A → outcome S) (P : S → Prop) l :
  (∀ s x, P s → match body s x with
                | Done s' | Failed _ s' => P s'
                | Undefined => True
                end) →
  ∀ s, P s → match for_each body s l with
             | Done s' | Failed _ s' => P s'
             | Undefined => True
             end.
Proof.
  intros Hbody. induction l as [|x l IH]; intros s Hs; simpl; [done|].
  specialize (Hbody s x Hs). destruct (body s x); [by apply IH|done|done].
Qed.

Lemma update_cell_shape d0 color s i :
  data_shape d0 (fst s) →
  match update_cell color s i with
  | Done s' | Failed _ s' => data_shape d0 (fst s')
  | Undefined => True
  end.
Proof.
  destruct s as [d cur]. intros (Hncc & Hlabels & Hlists). unfold update_cell.
  destruct (colored_cells d !! color) as [cells|] eqn:Hcells; [|done].
  destruct (cell_colors d) as [colors|] eqn:Hcolors; [|done].
  destruct (write cells i cur) as [cells'|] eqn:Hw1; [|done].
  destruct (write colors cur color) as [colors'|] eqn:Hw2; [|done].
  apply write_length in Hw1, Hw2. cbn [fst] in *.
  split_and!; cbn [cell_colors num_colored_cells colored_cells]; [done| |].
  - rewrite <-Hlabels, Hcolors. simpl. by rewrite Hw2.
  - intros c. rewrite <-Hlists. destruct (decide (c = color)) as [->|Hne].
    + rewrite lookup_insert_eq, Hcells. simpl. by rewrite Hw1.
    + by rewrite lookup_insert_ne.
Qed.

Lemma update_color_shape d0 ncc s color :
  data_shape d0 (fst s) →
  match update_color ncc s color with
  | Done s' | Failed _ s' => data_shape d0 (fst s')
  | Undefined => True
  end.
Proof.
  intros Hs. unfold update_color. destruct (read ncc color) as [count|]; [|done].
  exact (for_each_keeps (update_cell color) (λ s, data_shape d0 (fst s))
           (seqZ 0 count) (λ s i, update_cell_shape d0 color s i) s Hs).
Qed.

Lemma update_renumbering_data_shape m ncc nc :
  match update_renumbering_data m ncc nc with
  | Done m' | Failed _ m' =>
      topology m' = topology m ∧ geometry m' = geometry m
      ∧ data_shape (data m) (data m')
  | Undefined => True
  end.
Proof.
  unfold update_renumbering_data.
  pose proof (for_each_keeps (update_color ncc) (λ s, data_shape (data m) (fst s))
                (seqZ 0 nc) (λ s c, update_color_shape (data m) ncc s c)
                (data m, 0)) as Hloop.
  destruct (for_each _ _ _); [| |done]; (split_and!; [done|done|by apply Hloop]).
Qed.

(** X5.  Whatever the mesh and however the run ends, the mesh that the
    routine leaves has the shape of the input: the same dimensions and
    sizes, buffers of the same lengths, the same recorded counts, as many
    labels, and for every colour a list of the same length.  Its derived
    connectivity is empty, unless the colour labels are missing, in which
    case the mesh is the input. *)
Theorem shape_kept nd ju jd m m' :
  final_mesh (renumber_by_color nd ju jd m) = Some m' →
  same_shape m m'
  ∧ (is_Some (cell_colors (data m)) → derived (topology m') = ∅)
  ∧ (cell_colors (data m) = None → m' = m).
Proof.
  assert (∀ m, data_shape (data m) (data m)) as Hrefl by done.
  assert (same_shape m m ∧ same_shape m (clean m)) as [Hm Hclean].
  { unfold same_shape. split; split_and!; done. }
  unfold renumber_by_color.
  destruct (cell_colors (data m)) as [colors|] eqn:Hcolors.
  2: { intros [= <-]. split_and!; [done|by intros [? ?]|done]. }
  intros Hfinal.
  assert (same_shape m m' ∧ derived (topology m') = ∅) as [? ?]; [|done].
  revert Hfinal. cbn [data clean].
  destruct (num_colored_cells (data m)) as [ncc|]; [|done].
  destruct (negb nd && _); [by intros [= <-]|].
  destruct (renumber_vertices _ _ _ _ _) as [st|f st|]; [|by intros [= <-]|done].
  destruct (all_renumbered st); [|by intros [= <-]].
  unfold copy_data. cbn [topology geometry clean cell_vertex].
  destruct (std_copy (new_connections st) _ _ _ _) as [conn|] eqn:Hconn; [|done].
  destruct (std_copy (new_coordinates st) _ _ _ _) as [coords|] eqn:Hcoords; [|done].
  apply std_copy_length in Hconn, Hcoords.
  pose proof (update_renumbering_data_shape
                (set_coordinates (set_connections (clean m) conn) coords) ncc
                (to_uint (Z.of_nat (length ncc)))) as Hupd.
  destruct (update_renumbering_data _ _ _) as [m1|f m1|]; [| |done].
  all: intros [= <-]; destruct Hupd as (Ht & Hg & Hd).
  all: unfold same_shape; rewrite Ht, Hg; split; [split_and!|]; done.
Qed.

Lemma shape_kept_witness :
  same_shape partial_partition_mesh
    (set_connections partial_partition_mesh [0; 1; 2; 7; 7; 7])
  ∧ (is_Some (cell_colors (data partial_partition_mesh)) →
     derived (topology (set_connections partial_partition_mesh [0; 1; 2; 7; 7; 7])) = ∅)
  ∧ (cell_colors (data partial_partition_mesh) = None →
     set_connections partial_partition_mesh [0; 1; 2; 7; 7; 7] = partial_partition_mesh).
Proof.
  apply (shape_kept false (λ _, 7) (λ _, 0) partial_partition_mesh).
  vm_compute. reflexivity.
Defined.

(** ** Why a run fails *)

(** A loop that gives up does so at one of its items, after the items
    before it have ended normally. *)
Lemma for_each_Failed_at {S A} (body : S → A → outcome S) l :
  ∀ s f s', for_each body s l = Failed f s' →
  ∃ l1 x l2 s1,
    l = l1 ++ x :: l2 ∧ for_each body s l1 = Done s1 ∧ body s1 x = Failed f s'.
Proof.
  induction l as [|a l IH]; intros s f s' Hrun; simpl in Hrun; [done|].
  destruct (body s a) as [s1|f1 s1|] eqn:Ha; [| |done].
  - destruct (IH _ _ _ Hrun) as (l1 & x & l2 & s2 & -> & Hl1 & Hx).
    exists (a :: l1), x, l2, s2. simpl. by rewrite Ha.
  - injection Hrun as <- <-. by exists [], a, l, s.
Qed.

(** What a body that ends normally shows of its item, it shows of every
    item of a loop that ends normally. *)
Lemma for_each_Done_all {S A} (body : S → A → outcome S)
    (P : S → Prop) (Q : A → Prop) l :
  (∀ s x, P s → match body s x with
                | Done s' | Failed _ s' => P s'
                | Undefined => True
                end) →
  (∀ s x s', P s → body s x = Done s' → Q x) →
  ∀ s s', P s → for_each body s l = Done s' → Forall Q l.
Proof.
  intros Hkeep Hbody. induction l as [|x l IH]; intros s s' Hs Hrun; [constructor|].
  simpl in Hrun. specialize (Hkeep s x Hs).
  destruct (body s x) as [s1|f1 s1|] eqn:Hx; [|done|done].
  constructor; [exact (Hbody s x s1 Hs Hx)|exact (IH s1 s' Hkeep Hrun)].
Qed.

Lemma seqZ_split_at n l1 x l2 :
  seqZ 0 n = l1 ++ x :: l2 → 0 ≤ x < n ∧ ∀ c, 0 ≤ c < x → c ∈ l1.
Proof.
  intros Heq.
  assert (seqZ 0 n !! length l1 = Some x) as Hx by (rewrite Heq; apply list_lookup_middle; done).
  apply lookup_seqZ in Hx as [-> Hlt]. split; [lia|]. intros c Hc.
  assert (seqZ 0 n !! Z.to_nat c = Some c) as Hlook by (apply lookup_seqZ; lia).
  rewrite Heq, lookup_app_l in Hlook by lia. by eapply list_elem_of_lookup_2.
Qed.

Lemma renumber_vertex_not_Failed m st v f st' : renumber_vertex m st v ≠ Failed f st'.
Proof.
  unfold renumber_vertex. destruct (read _ _); [|done]. simpl.
  repeat case_match; done.
Qed.

Lemma renumber_cell_not_Failed m st cell f st' : renumber_cell m st cell ≠ Failed f st'.
Proof.
  unfold renumber_cell. intros Hrun. revert Hrun.
  apply (for_each_Failed _ (λ _, False)).
  intros s j f1 s1. destruct (cell_vertices _ _ _); [|done].
  apply renumber_vertex_not_Failed.
Qed.

(** The sweep gives up only at the assertion of line 76, at the first
    colour that has no list. *)
Lemma renumber_vertices_Failed nd ju jd m nc f st :
  renumber_vertices nd ju jd m nc = Failed f st →
  nd = false ∧ f = assert_colored_cells
  ∧ ∃ color, 0 ≤ color < nc ∧ colored_cells (data m) !! color = None
             ∧ ∀ c, 0 ≤ c < color → is_Some (colored_cells (data m) !! c).
Proof.
  unfold renumber_vertices. intros Hrun.
  apply for_each_Failed_at in Hrun as (l1 & color & l2 & s1 & Heq & Hl1 & Hcolor).
  apply seqZ_split_at in Heq as [Hrange Hbefore].
  assert (Forall (λ c, is_Some (colored_cells (data m) !! c)) l1) as Hlists.
  { revert Hl1. apply (for_each_Done_all _ (λ _, True)); [by intros; case_match|..|done].
    intros s c s' _. unfold renumber_color.
    destruct (colored_cells (data m) !! c); [done|by destruct nd]. }
  rewrite Forall_forall in Hlists. unfold renumber_color in Hcolor.
  destruct (colored_cells (data m) !! color) as [cells|] eqn:Hcells.
  { exfalso. revert Hcolor. apply (for_each_Failed _ (λ _, False)).
    intros s cell f1 s'. apply renumber_cell_not_Failed. }
  destruct nd; [done|]. injection Hcolor as <- <-.
  split_and!; [done|done|]. exists color. split_and!; [lia|lia|done|].
  intros c Hc. by apply Hlists, Hbefore.
Qed.

(** X6.  On a well-formed coloured mesh a run that fails with
    [RenumberingIncompleteError] has failed at the completeness check, it
    leaves the cleaned input, and some vertex of the mesh belongs to no
    listed cell. *)
Theorem incomplete_failure_sound nd ju jd m f m' :
  wf_colored_mesh m →
  renumber_by_color nd ju jd m = Failed f m' →
  condition_of f = RenumberingIncompleteError →
  f = error_not_all_renumbered ∧ m' = clean m
  ∧ ∃ v, 0 ≤ v < num_vertices (topology m) ∧ v ∉ sweep_vertices m.
Proof.
  intros Hwf Hrun Hcond.
  destruct (renumber_by_color_wf nd ju jd m Hwf) as (st & ncc & _ & _ & Hinv & Heq).
  rewrite Heq in Hrun. pose proof Hwf as (Hg & _).
  destruct (all_renumbered st) eqn:Hcheck.
  { by apply update_renumbering_data_Failed in Hrun. }
  injection Hrun as <- <-. split_and!; [done|done|].
  assert (¬ Forall (λ v, v ∈ sweep_vertices m) (seqZ 0 (num_vertices (topology m))))
    as Hnall.
  { intros Hall. apply (all_renumbered_spec (clean m) st _ Hg Hinv) in Hall. congruence. }
  apply not_Forall_Exists in Hnall; [|apply _].
  apply Exists_exists in Hnall as (v & Hv%elem_of_seqZ & Hnin).
  exists v. split; [lia|done].
Qed.

Lemma incomplete_failure_sound_witness :
  error_not_all_renumbered = error_not_all_renumbered
  ∧ clean lonely_vertex_mesh = clean lonely_vertex_mesh
  ∧ ∃ v, 0 ≤ v < num_vertices (topology lonely_vertex_mesh)
         ∧ v ∉ sweep_vertices lonely_vertex_mesh.
Proof.
  apply (incomplete_failure_sound false (λ _, 0) (λ _, 0) lonely_vertex_mesh).
  - by_computation.
  - vm_compute. reflexivity.
  - reflexivity.
Defined.

(** X7.  With assertions compiled out, as in every build of the file, a
    run fails only at one of the two calls of [error]: at line 31, when
    the colour labels are missing, and then the mesh is untouched; or at
    line 114, when the sweep has ended and some entry of
    [new_vertex_indices] is still -1, and then the mesh is the cleaned
    input.  So it never fails with [MetadataInconsistencyError], and with
    [PreconditionError] only when the colour labels are missing. *)
Theorem failures_are_errors ju jd m f m' :
  renumber_by_color true ju jd m = Failed f m' →
  ((f = error_not_colored ∧ cell_colors (data m) = None ∧ m' = m)
   ∨ (f = error_not_all_renumbered
      ∧ is_Some (cell_colors (data m)) ∧ is_Some (num_colored_cells (data m))
      ∧ m' = clean m
      ∧ ∃ st, renumber_vertices true ju jd (clean m) (mesh_num_colors (data m)) = Done st
              ∧ -1 ∈ new_vertex_indices st))
  ∧ condition_of f ≠ MetadataInconsistencyError
  ∧ (condition_of f = PreconditionError → cell_colors (data m) = None).
Proof.
  intros Hrun.
  assert ((f = error_not_colored ∧ cell_colors (data m) = None ∧ m' = m)
          ∨ (f = error_not_all_renumbered
             ∧ is_Some (cell_colors (data m)) ∧ is_Some (num_colored_cells (data m))
             ∧ m' = clean m
             ∧ ∃ st, renumber_vertices true ju jd (clean m) (mesh_num_colors (data m))
                     = Done st
                     ∧ -1 ∈ new_vertex_indices st)) as Hcases.
  { revert Hrun. unfold renumber_by_color, mesh_num_colors.
    destruct (cell_colors (data m)) as [colors|]; [|intros [= <- <-]; by left].
    cbn [data clean]. destruct (num_colored_cells (data m)) as [ncc|]; [|done].
    cbn [negb andb].
    destruct (renumber_vertices _ _ _ _ _) as [st|f' st|] eqn:Hpass; [| |done].
    2: { by apply renumber_vertices_Failed in Hpass as (? & _). }
    destruct (all_renumbered st) eqn:Hcheck.
    { destruct (copy_data _ _); [|done].
      intros Hupd. by apply update_renumbering_data_Failed in Hupd. }
    intros [= <- <-]. right. split_and!; [done|eauto|eauto|done|].
    exists st. split; [done|]. unfold all_renumbered in Hcheck.
    apply bool_decide_eq_false in Hcheck.
    destruct (decide (-1 ∈ new_vertex_indices st)); done. }
  split; [done|]. destruct Hcases as [(-> & ? & _)|(-> & _)]; done.
Qed.

Lemma failures_are_errors_witness :
  ((error_not_all_renumbered = error_not_colored
    ∧ cell_colors (data lonely_vertex_mesh) = None
    ∧ clean lonely_vertex_mesh = lonely_vertex_mesh)
   ∨ (error_not_all_renumbered = error_not_all_renumbered
      ∧ is_Some (cell_colors (data lonely_vertex_mesh))
      ∧ is_Some (num_colored_cells (data lonely_vertex_mesh))
      ∧ clean lonely_vertex_mesh = clean lonely_vertex_mesh
      ∧ ∃ st, renumber_vertices true (λ _, 0) (λ _, 0) (clean lonely_vertex_mesh)
                (mesh_num_colors (data lonely_vertex_mesh)) = Done st
              ∧ -1 ∈ new_vertex_indices st))
  ∧ condition_of error_not_all_renumbered ≠ MetadataInconsistencyError
  ∧ (condition_of error_not_all_renumbered = PreconditionError →
     cell_colors (data lonely_vertex_mesh) = None).
Proof.
  apply (failures_are_errors (λ _, 0) (λ _, 0) lonely_vertex_mesh).
  vm_compute. reflexivity.
Defined.

(** ** What the temporaries held when they were allocated *)

(** Lines 91-106 write [new_connections] at [connections_offset] only. *)
Lemma renumber_vertex_unwritten m init st v :
  Z.of_nat (length init) < 2 ^ 32 → unwritten init st →
  match renumber_vertex m st v with
  | Done st' | Failed _ st' => unwritten init st'
  | Undefined => True
  end.
Proof.
  intros Hsize (Hoff & Hlen & Hrest). unfold renumber_vertex.
  destruct (read (new_vertex_indices st) v) as [old|]; [|done]. cbv zeta.
  match goal with
  | |- context [if decide (old = -1) then ?a else ?b] =>
      destruct (if decide (old = -1) then a else b) as [st1|] eqn:Hst1
  end; [|done].
  assert (new_connections st1 = new_connections st
          ∧ connections_offset st1 = connections_offset st) as [Hnc Hco].
  { revert Hst1. case_decide; [|by intros [= <-]].
    destruct (std_copy _ _ _ _ _); [|done]. destruct (write _ _ _); [|done].
    by intros [= <-]. }
  destruct (new_vertex_index st1 v) as [x|]; [|done].
  destruct (write _ _ x) as [nc|] eqn:Hw; [|done].
  apply write_Some in Hw as [Hin ->]. rewrite Hnc, Hco in *.
  unfold unwritten. cbn [connections_offset new_connections].
  rewrite to_uint_small by lia. split_and!; [lia|by rewrite length_insert|].
  intros p Hp. rewrite list_lookup_insert_ne by lia. apply Hrest. lia.
Qed.

Lemma renumber_vertices_unwritten nd ju jd m nc st :
  _size (cell_vertex (topology m)) < 2 ^ 32 →
  renumber_vertices nd ju jd m nc = Done st →
  unwritten (new_connections (allocate ju jd m)) st.
Proof.
  intros Hsize Hrun. set (init := new_connections (allocate ju jd m)).
  assert (Z.of_nat (length init) < 2 ^ 32) as Hinit.
  { unfold init, allocate, _size in *. cbn [new_connections].
    rewrite length_fmap, length_seq. lia. }
  assert (∀ s color, unwritten init s →
            match renumber_color nd m s color with
            | Done s' | Failed _ s' => unwritten init s'
            | Undefined => True
            end) as Hbody.
  { intros s color Hs. unfold renumber_color.
    destruct (colored_cells (data m) !! color) as [cells|]; [|by destruct nd].
    apply for_each_keeps; [|done]. clear s Hs. intros s cell Hs. unfold renumber_cell.
    apply for_each_keeps; [|done]. clear s Hs. intros s j Hs.
    destruct (cell_vertices _ _ _); [|done]. by apply renumber_vertex_unwritten. }
  pose proof (for_each_keeps (renumber_color nd m) (unwritten init) (seqZ 0 nc) Hbody
                (allocate ju jd m)) as Hloop.
  unfold renumber_vertices in Hrun. rewrite Hrun in Hloop. apply Hloop.
  unfold unwritten, init. by cbn [connections_offset allocate].
Qed.

(** X9.  On a well-formed coloured mesh on which the run ends normally,
    the entries of the connectivity buffer behind those of the listed
    cells are what the temporary held when it was allocated; and the mesh
    that is left does not depend on what the temporary for the coordinates
    held. *)
Theorem unwritten_entries_leak nd ju jd m m' :
  wf_colored_mesh m →
  renumber_by_color nd ju jd m = Done m' →
  (∀ p : nat,
     (length (sweep_vertices m) ≤ p < length (connections (cell_vertex (topology m))))%nat →
     connections (cell_vertex (topology m')) !! p = Some (ju p))
  ∧ (∀ jd', renumber_by_color nd ju jd' m = Done m').
Proof.
  intros Hwf Hdone.
  destruct (renumber_by_color_Done nd ju jd m m' Hwf Hdone)
    as (st & ncc & Hncc & Hrun & Hinv & Hall & Hupd & Hconn & _).
  pose proof Hwf as (Hg & Hc & _). pose proof Hc as (_ & _ & _ & Hsize & _).
  pose proof (renumber_vertices_unwritten nd ju jd (clean m) _ st Hsize Hrun)
    as (_ & _ & Hrest).
  rewrite (inv_offset _ _ _ Hinv) in Hrest.
  assert (∀ p : nat,
            (length (sweep_vertices m) ≤ p
             < length (connections (cell_vertex (topology m))))%nat →
            new_connections st !! p = Some (ju p)) as Hleak.
  { intros p Hp. rewrite Hrest by lia.
    unfold allocate, _size. cbn [new_connections topology clean cell_vertex].
    rewrite list_lookup_fmap, Nat2Z.id, lookup_seq_lt by lia. done. }
  split. { intros p Hp. rewrite Hconn. by apply Hleak. }
  intros jd'.
  destruct (renumber_by_color_wf nd ju jd' m Hwf) as (st2 & ncc2 & Hncc2 & Hrun2 & Hinv2 & ->).
  rewrite Hncc in Hncc2. injection Hncc2 as <-.
  pose proof (renumber_vertices_unwritten nd ju jd' (clean m) _ st2 Hsize Hrun2)
    as (_ & _ & Hrest2).
  rewrite (inv_offset _ _ _ Hinv2) in Hrest2.
  assert (all_renumbered st2 = true) as ->.
  { by apply (all_renumbered_spec (clean m) st2 _ Hg Hinv2). }
  assert (committed m st2 = committed m st) as ->; [|done].
  unfold committed. f_equal; [f_equal|].
  - apply list_eq. intros p.
    destruct (decide (p < length (sweep_vertices m))%nat) as [Hp|Hp].
    + destruct (lookup_lt_is_Some_2 _ p Hp) as [v Hv].
      destruct (inv_connections _ _ _ Hinv p v Hv) as (k1 & Hk1 & ->).
      destruct (inv_connections _ _ _ Hinv2 p v Hv) as (k2 & Hk2 & ->).
      by rewrite (NoDup_lookup _ _ _ _ (NoDup_first_seen _) Hk1 Hk2).
    + rewrite Hrest, Hrest2 by lia. done.
  - apply (pass_coordinates_unique (clean m) _ _ _ Hg Hinv2 Hinv).
    pose proof (first_seen_complete (clean m) _ (inv_range _ _ _ Hinv) Hall) as Hperm.
    apply Permutation_length in Hperm. rewrite length_seqZ in Hperm.
    destruct Hg as (Hn & _). cbn [topology clean num_vertices] in Hperm |- *. lia.
Qed.

Lemma unwritten_entries_leak_witness :
  (∀ p : nat,
     (length (sweep_vertices partial_partition_mesh) ≤ p
      < length (connections (cell_vertex (topology partial_partition_mesh))))%nat →
     connections (cell_vertex (topology
       (set_connections partial_partition_mesh [0; 1; 2; 7; 7; 7]))) !! p = Some 7)
  ∧ (∀ jd', renumber_by_color false (λ _, 7) jd' partial_partition_mesh
            = Done (set_connections partial_partition_mesh [0; 1; 2; 7; 7; 7])).
Proof.
  apply (unwritten_entries_leak false (λ _, 7) (λ _, 0) partial_partition_mesh).
  - by_computation.
  - vm_compute. reflexivity.
Defined.

(** ** The cells in space *)

(** X10.  On a well-formed coloured mesh on which the run ends normally,
    every listed cell keeps its place in space: the vertex in slot [j] of
    the [k]-th cell of the sweep and the vertex in slot [j] of the cell
    [k] of the mesh that is left have the same coordinates, entry by
    entry. *)
Theorem cell_geometry_kept nd ju jd m m' (k : nat) cell j c :
  wf_colored_mesh m →
  renumber_by_color nd ju jd m = Done m' →
  sweep_cells m !! k = Some cell →
  0 ≤ j < num_entities (cell_vertex (topology m)) →
  0 ≤ c < gdim (geometry m) →
  ∃ v v' x,
    cell_vertices (cell_vertex (topology m)) cell j = Some v
    ∧ cell_vertices (cell_vertex (topology m')) (Z.of_nat k) j = Some v'
    ∧ read (coordinates (geometry m)) (v * gdim (geometry m) + c) = Some x
    ∧ read (coordinates (geometry m')) (v' * gdim (geometry m) + c) = Some x.
Proof.
  intros Hwf Hdone Hk Hj Hc'.
  destruct (renumber_by_color_Done nd ju jd m m' Hwf Hdone)
    as (st & ncc & _ & Hrun & Hinv & _ & _ & Hconn & Hne & Hcoord).
  pose proof Hwf as (Hg & Hc & (_ & _ & _ & _ & _ & Hcells)).
  pose proof Hg as (Hn & Hd & Hgs & Hnd & Hlen).
  assert (0 ≤ cell < num_cells (topology m)) as Hcell.
  { rewrite Forall_forall in Hcells. by eapply Hcells, list_elem_of_lookup_2. }
  set (a := Z.to_nat (num_entities (cell_vertex (topology m)))).
  destruct (cell_tuple_lookup m cell (Z.to_nat j) Hc Hcell ltac:(lia)) as [Hv [v Hv']].
  rewrite Z2Nat.id in Hv by lia. rewrite Hv' in Hv. symmetry in Hv.
  assert (sweep_vertices m !! (k * a + Z.to_nat j)%nat = Some v) as Hp.
  { unfold sweep_vertices. apply join_lookup_Some_same_length'.
    - apply Forall_fmap, Forall_forall. intros c0 Hcin. simpl.
      rewrite Forall_forall in Hcells. by apply cell_tuple_length, Hcells.
    - lia.
    - eexists. split; [|exact Hv']. by rewrite list_lookup_fmap, Hk. }
  destruct (inv_connections _ _ _ Hinv _ _ Hp) as (k' & Hk' & Hnc).
  pose proof (inv_range _ _ _ Hinv) as Hrange. cbn [topology clean num_vertices] in Hrange.
  pose proof (first_seen_length_le m _ Hrange) as Hle.
  pose proof (lookup_lt_Some _ _ _ Hk') as Hklt.
  assert (0 ≤ v < num_vertices (topology m)) as Hvr.
  { rewrite Forall_forall in Hrange. by eapply Hrange, list_elem_of_lookup_2. }
  pose proof (inv_coordinates _ _ _ Hinv k' v (Z.to_nat c) Hk') as Hcopy.
  cbn [geometry clean] in Hcopy. specialize (Hcopy ltac:(lia)).
  destruct (lookup_lt_is_Some_2 (coordinates (geometry m))
              (Z.to_nat v * Z.to_nat (gdim (geometry m)) + Z.to_nat c)) as [x Hx]; [nia|].
  exists v, (Z.of_nat k'), x. split_and!; [done| | |].
  - unfold cell_vertices, read. rewrite Hconn, Hne.
    rewrite decide_True by nia. rewrite <-Hnc. f_equal. nia.
  - unfold read. rewrite decide_True by nia. rewrite <-Hx. f_equal. nia.
  - unfold read. rewrite decide_True by nia. rewrite Hcoord, <-Hx, <-Hcopy. f_equal. nia.
Qed.

Lemma cell_geometry_kept_witness :
  ∃ v v' x,
    cell_vertices (cell_vertex (topology scale_mesh)) 2 0 = Some v
    ∧ cell_vertices (cell_vertex (topology scale_mesh_renumbered)) (Z.of_nat 0) 0 = Some v'
    ∧ read (coordinates (geometry scale_mesh)) (v * gdim (geometry scale_mesh) + 1)
      = Some x
    ∧ read (coordinates (geometry scale_mesh_renumbered))
        (v' * gdim (geometry scale_mesh) + 1) = Some x.
Proof.
  apply (cell_geometry_kept false (λ _, 0) (λ _, 0) scale_mesh scale_mesh_renumbered
           0 2 0 1).
  - by_computation.
  - vm_compute. reflexivity.
  - reflexivity.
  - simpl. lia.
  - simpl. lia.
Defined.

(** ** Without assertions *)

(** Lines 129-134 for a colour whose recorded count is larger than its
    list: line 131 writes behind the end of the list. *)
Lemma update_color_overcount d0 ncc (c : nat) s cells colors0 count :
  update_inv d0 ncc c s →
  colored_cells d0 !! Z.of_nat c = Some cells →
  read ncc (Z.of_nat c) = Some count →
  Z.of_nat (length cells) < count →
  cell_colors d0 = Some colors0 →
  (length (cells_before d0 (Z.of_nat (S c))) ≤ length colors0)%nat →
  Z.of_nat (length (cells_before d0 (Z.of_nat (S c)))) < 2 ^ 32 →
  update_color ncc s (Z.of_nat c) = Undefined.
Proof.
  intros Hinv Hcells Hcount Hover Hcolors0 Hroom Hlt. destruct s as [d cur].
  pose proof (ui_current _ _ _ _ Hinv) as Hcur.
  pose proof (ui_cells _ _ _ _ Hinv) as Hstart.
  pose proof (ui_labels _ _ _ _ Hinv) as Hlabels.
  destruct (ui_colors _ _ _ _ Hinv) as (colors0' & Hc0 & Hcolors).
  rewrite Hcolors0 in Hc0. injection Hc0 as <-.
  simpl in Hcur, Hcolors.
  set (start := length (cells_before d0 (Z.of_nat c))) in *.
  rewrite cells_before_S, length_app in Hroom, Hlt. fold start in Hroom, Hlt.
  unfold color_cells in Hroom, Hlt. rewrite Hcells in Hroom, Hlt.
  simpl in Hroom, Hlt.
  rewrite Hstart in Hcur, Hcolors, Hlabels. rewrite Nat2Z.id in Hcolors.
  apply Nat2Z.inj in Hlabels.
  assert (colored_cells d !! Z.of_nat c = Some cells) as Hcells'.
  { rewrite <-Hcells. apply (ui_todo _ _ _ _ Hinv). lia. }
  set (colors := color_labels ncc (Z.of_nat c) ++ drop start colors0) in *.
  assert (length colors = length colors0) as Hlen.
  { unfold colors. rewrite length_app, length_drop, <-Hlabels. lia. }
  pose proof (update_cells_spec (Z.of_nat c) d start cells colors (length cells)
                Hcells' Hcolors) as Hloop.
  rewrite <-Hcur in Hloop. specialize (Hloop ltac:(lia) ltac:(lia) ltac:(lia)).
  unfold update_color. rewrite Hcount.
  replace count with (Z.of_nat (length cells) + (count - Z.of_nat (length cells))) by lia.
  rewrite seqZ_app, for_each_app, Hloop by lia.
  rewrite (seqZ_cons (0 + _)) by lia. cbn [for_each]. unfold update_cell.
  cbn [colored_cells cell_colors]. rewrite lookup_insert_eq.
  unfold write at 1. rewrite decide_False; [done|].
  rewrite length_app, length_seqZ, length_drop. lia.
Qed.

(** Lines 129-134 for a colour whose recorded count is at most the length
    of its list: the first entries of the list are renumbered, as many as
    the count says. *)
Lemma update_color_under d0 ncc (c : nat) s cells colors0 count :
  undercount_inv d0 ncc colors0 c s →
  colored_cells d0 !! Z.of_nat c = Some cells →
  read ncc (Z.of_nat c) = Some count →
  0 ≤ count ≤ Z.of_nat (length cells) →
  (length (cells_before d0 (Z.of_nat (S c))) ≤ length colors0)%nat →
  Z.of_nat (length (cells_before d0 (Z.of_nat (S c)))) < 2 ^ 32 →
  ∃ s', update_color ncc s (Z.of_nat c) = Done s'
        ∧ undercount_inv d0 ncc colors0 (S c) s'.
Proof.
  intros Hinv Hcells Hcount Hunder Hroom Hlt. destruct s as [d cur].
  pose proof (un_current _ _ _ _ _ Hinv) as Hcur.
  pose proof (un_room _ _ _ _ _ Hinv) as Hstart.
  pose proof (un_labels _ _ _ _ _ Hinv) as Hlabels.
  pose proof (un_colors _ _ _ _ _ Hinv) as Hcolors.
  simpl in Hcur, Hcolors.
  rewrite cells_before_S, length_app in Hroom, Hlt.
  unfold color_cells in Hroom, Hlt. rewrite Hcells in Hroom, Hlt.
  simpl in Hroom, Hlt.
  set (start := Z.to_nat (first_cell ncc (Z.of_nat c))) in *.
  set (k := Z.to_nat count).
  assert (first_cell ncc (Z.of_nat c) = Z.of_nat start) as Hfirst by (unfold start; lia).
  assert (count = Z.of_nat k) as Hk by (unfold k; lia).
  rewrite Hfirst in Hcur, Hlabels, Hstart. apply Nat2Z.inj in Hlabels.
  assert (colored_cells d !! Z.of_nat c = Some cells) as Hcells'.
  { rewrite <-Hcells. apply (un_todo _ _ _ _ _ Hinv). lia. }
  set (colors := color_labels ncc (Z.of_nat c) ++ drop start colors0) in *.
  assert (length colors = length colors0) as Hlen.
  { unfold colors. rewrite length_app, length_drop, <-Hlabels. lia. }
  pose proof (update_cells_spec (Z.of_nat c) d start cells colors k
                Hcells' Hcolors) as Hloop.
  rewrite <-Hcur, <-Hk in Hloop. specialize (Hloop ltac:(lia) ltac:(lia) ltac:(lia)).
  eexists. split.
  { unfold update_color. rewrite Hcount. exact Hloop. }
  assert (first_cell ncc (Z.of_nat (S c)) = Z.of_nat (start + k)) as Hnext.
  { rewrite (first_cell_S _ _ _ Hcount), Hfirst. lia. }
  constructor; simpl.
  - apply Hinv.
  - by rewrite Hnext.
  - rewrite Hnext, cells_before_S, length_app. unfold color_cells. rewrite Hcells.
    simpl. lia.
  - rewrite Hnext, color_labels_S, Hcount, length_app, length_replicate. simpl.
    fold k. lia.
  - intros c' cells' count' Hc' Hcells0 Hcount0. destruct (decide (c' = c)) as [->|Hne].
    + rewrite lookup_insert_eq. rewrite Hcells in Hcells0. injection Hcells0 as <-.
      rewrite Hcount in Hcount0. injection Hcount0 as <-.
      by rewrite Hfirst, Hcur.
    + rewrite lookup_insert_ne by lia.
      apply (un_done _ _ _ _ _ Hinv); [lia|done|done].
  - intros c' Hc'. rewrite lookup_insert_ne by lia.
    apply (un_todo _ _ _ _ _ Hinv). lia.
  - f_equal. rewrite Hnext, Nat2Z.id, color_labels_S, Hcount. simpl. fold k.
    unfold colors. rewrite take_app_length' by done.
    rewrite drop_app_ge by lia. rewrite drop_drop, <-Hlabels.
    rewrite <-(assoc_L (++)). do 3 f_equal. lia.
Qed.

(** Lines 120-135 without assertions, when no recorded count is larger
    than its list. *)
Lemma update_colors_under d0 ncc colors0 (nc : nat) :
  cell_colors d0 = Some colors0 →
  (∀ c : nat, (c < nc)%nat →
     ∃ cells count, colored_cells d0 !! Z.of_nat c = Some cells
                    ∧ read ncc (Z.of_nat c) = Some count
                    ∧ 0 ≤ count ≤ Z.of_nat (length cells)) →
  (length (cells_before d0 (Z.of_nat nc)) ≤ length colors0)%nat →
  Z.of_nat (length (cells_before d0 (Z.of_nat nc))) < 2 ^ 32 →
  ∃ s, for_each (update_color ncc) (d0, 0) (seqZ 0 (Z.of_nat nc)) = Done s
       ∧ undercount_inv d0 ncc colors0 nc s.
Proof.
  intros Hcolors0. induction nc as [|nc IH]; intros Hlists Hroom Hlt.
  { exists (d0, 0). split; [done|]. constructor; simpl; try done.
    intros c cells count Hc. lia. }
  pose proof Hroom as Hroom'. pose proof Hlt as Hlt'.
  rewrite cells_before_S, length_app in Hroom', Hlt'.
  destruct IH as (s & Hrun & Hinv); [intros c Hc; apply Hlists; lia|lia|lia|].
  destruct (Hlists nc ltac:(lia)) as (cells & count & Hcells & Hcount & Hunder).
  destruct (update_color_under d0 ncc nc s cells colors0 count)
    as (s' & Hstep & Hinv'); try done.
  exists s'. split; [|done].
  by rewrite seqZ_S, for_each_app, Hrun, Z.add_0_l; cbn [for_each]; rewrite Hstep.
Qed.

(** X11.  Without assertions, on a well-formed coloured mesh in which
    every vertex belongs to a listed cell, a recorded count that is larger
    than the list of its colour, the counts of the colours before it being
    right, makes the run undefined: line 131 writes behind the end of the
    list. *)
Theorem overcount_undefined ju jd m ncc color count cells :
  wf_colored_mesh m →
  all_vertices_referenced m →
  num_colored_cells (data m) = Some ncc →
  0 ≤ color < mesh_num_colors (data m) →
  counts_match_below (data m) ncc color →
  colored_cells (data m) !! color = Some cells →
  read ncc color = Some count →
  Z.of_nat (length cells) < count →
  renumber_by_color true ju jd m = Undefined.
Proof.
  intros Hwf Hall Hncc Hcolor Hm Hcells Hcount Hover.
  destruct (renumber_by_color_wf true ju jd m Hwf) as (st & ncc' & Hncc' & _ & Hinv & ->).
  rewrite Hncc in Hncc'. injection Hncc' as <-.
  pose proof Hwf as (Hg & _).
  rewrite (proj2 (all_renumbered_spec (clean m) st _ Hg Hinv)) by done.
  pose proof (sweep_cells_length_le m Hwf) as Hle.
  destruct Hwf as (_ & (Hnc & _) & (Hcols & _ & _ & Hlists & _)).
  destruct (cell_colors (data m)) as [colors0|] eqn:Hcolors0; [|done].
  simpl in Hcols. injection Hcols as Hcols.
  unfold sweep_cells in Hle. fold (cells_before (data m) (mesh_num_colors (data m))) in Hle.
  assert (Z.to_nat (mesh_num_colors (data m)) ≤ length ncc)%nat as Hlen.
  { rewrite (mesh_num_colors_eq _ _ Hncc).
    pose proof (to_uint_le (Z.of_nat (length ncc))). lia. }
  pose proof (mesh_num_colors_nat (data m)) as Hnat.
  set (nc := Z.to_nat (mesh_num_colors (data m))) in *. clearbody nc.
  rewrite <-Hnat in Hlists, Hle, Hcolor |- *.
  assert (color = Z.of_nat (Z.to_nat color)) as Hc by lia.
  set (c := Z.to_nat color) in *. clearbody c. subst color.
  destruct (cells_before_app (data m) (S c) nc ltac:(lia)) as [rest1 Hrest1].
  destruct (cells_before_app (data m) c (S c) ltac:(lia)) as [rest0 Hrest0].
  rewrite Hrest1, length_app in Hle. pose proof Hle as Hle0.
  rewrite Hrest0, length_app in Hle0.
  unfold update_renumbering_data. cbn [data committed set_coordinates set_connections clean].
  replace (Z.of_nat nc) with (Z.of_nat c + Z.of_nat (nc - c)) by lia.
  rewrite seqZ_app, for_each_app by lia.
  destruct (update_colors_spec (data m) ncc colors0 c Hcolors0)
    as (s & -> & Hinvs); [lia| |lia|lia|done|].
  { rewrite Forall_forall in Hlists |- *. intros x Hx%elem_of_seqZ.
    apply Hlists, elem_of_seqZ. lia. }
  rewrite seqZ_cons by lia. cbn [for_each]. rewrite Z.add_0_l.
  rewrite (update_color_overcount (data m) ncc c s cells colors0 count); try done; lia.
Qed.

Lemma overcount_undefined_witness :
  renumber_by_color true (λ _, 0) (λ _, 0) miscounted_mesh = Undefined.
Proof.
  apply (overcount_undefined (λ _, 0) (λ _, 0) miscounted_mesh [2; 2] 1 2 [1]).
  - by_computation.
  - by_computation.
  - reflexivity.
  - vm_compute. split; [discriminate|reflexivity].
  - by_computation.
  - vm_compute. reflexivity.
  - reflexivity.
  - simpl. lia.
Defined.

(** X12.  Without assertions, on a well-formed coloured mesh in which
    every vertex belongs to a listed cell and no recorded count is larger
    than the list of its colour, the run ends normally, whether the counts
    are right or not: of the list of each colour the first entries, as
    many as the count says, become consecutive cell numbers, and the
    entries behind them are left as they were. *)
Theorem undercount_unnoticed ju jd m ncc :
  wf_colored_mesh m →
  all_vertices_referenced m →
  num_colored_cells (data m) = Some ncc →
  (∀ color cells,
     0 ≤ color < mesh_num_colors (data m) →
     colored_cells (data m) !! color = Some cells →
     ∃ count, read ncc color = Some count ∧ 0 ≤ count ≤ Z.of_nat (length cells)) →
  ∃ m',
    renumber_by_color true ju jd m = Done m'
    ∧ num_colored_cells (data m') = Some ncc
    ∧ ∀ color cells count,
        0 ≤ color < mesh_num_colors (data m) →
        colored_cells (data m) !! color = Some cells →
        read ncc color = Some count →
        colored_cells (data m') !! color
        = Some (seqZ (first_cell ncc color) count ++ drop (Z.to_nat count) cells).
Proof.
  intros Hwf Hall Hncc Hunder.
  destruct (renumber_by_color_wf true ju jd m Hwf) as (st & ncc' & Hncc' & _ & Hinv & ->).
  rewrite Hncc in Hncc'. injection Hncc' as <-.
  pose proof Hwf as (Hg & _).
  rewrite (proj2 (all_renumbered_spec (clean m) st _ Hg Hinv)) by done.
  pose proof (sweep_cells_length_le m Hwf) as Hle.
  destruct Hwf as (_ & (Hnc & _) & (Hcols & _ & _ & Hlists & _)).
  destruct (cell_colors (data m)) as [colors0|] eqn:Hcolors0; [|done].
  simpl in Hcols. injection Hcols as Hcols.
  unfold sweep_cells in Hle. fold (cells_before (data m) (mesh_num_colors (data m))) in Hle.
  pose proof (mesh_num_colors_nat (data m)) as Hnat.
  set (nc := Z.to_nat (mesh_num_colors (data m))) in *. clearbody nc.
  rewrite <-Hnat in Hlists, Hle, Hunder |- *.
  unfold update_renumbering_data. cbn [data committed set_coordinates set_connections clean].
  destruct (update_colors_under (data m) ncc colors0 nc Hcolors0)
    as (s & -> & Hinvs); [|lia|lia|].
  { intros c Hc. rewrite Forall_forall in Hlists.
    destruct (Hlists (Z.of_nat c)) as [cells Hcells]; [apply elem_of_seqZ; lia|].
    destruct (Hunder (Z.of_nat c) cells ltac:(lia) Hcells) as (count & ? & ?).
    by exists cells, count. }
  eexists. split_and!; [done|..].
  - cbn [data set_data]. by rewrite (un_counts _ _ _ _ _ Hinvs).
  - intros color cells count Hcolor Hcells Hcount. cbn [data set_data].
    replace color with (Z.of_nat (Z.to_nat color)) in * by lia.
    apply (un_done _ _ _ _ _ Hinvs); [lia|done|done].
Qed.

Lemma undercount_unnoticed_witness :
  ∃ m',
    renumber_by_color true (λ _, 0) (λ _, 0) undercounted_mesh = Done m'
    ∧ num_colored_cells (data m') = Some [2; 0]
    ∧ ∀ color cells count,
        0 ≤ color < mesh_num_colors (data undercounted_mesh) →
        colored_cells (data undercounted_mesh) !! color = Some cells →
        read [2; 0] color = Some count →
        colored_cells (data m') !! color
        = Some (seqZ (first_cell [2; 0] color) count ++ drop (Z.to_nat count) cells).
Proof.
  apply (undercount_unnoticed (λ _, 0) (λ _, 0) undercounted_mesh [2; 0]).
  - by_computation.
  - by_computation.
  - reflexivity.
  - intros color cells Hcolor.
    change (mesh_num_colors (data undercounted_mesh)) with 2 in Hcolor.
    assert (color = 0 ∨ color = 1) as [->| ->] by lia.
    + intros Hcells. vm_compute in Hcells. injection Hcells as <-.
      exists 2. split; [reflexivity|simpl; lia].
    + intros Hcells. vm_compute in Hcells. injection Hcells as <-.
      exists 0. split; [reflexivity|simpl; lia].
Defined.

Lemma counts_fit_below_S d ncc (c : nat) :
  counts_fit_below d ncc (Z.of_nat (S c))
  ↔ counts_fit_below d ncc (Z.of_nat c)
    ∧ match colored_cells d !! Z.of_nat c, read ncc (Z.of_nat c) with
      | Some cells, Some count => count ≤ Z.of_nat (length cells)
      | _, _ => False
      end.
Proof.
  unfold counts_fit_below. rewrite seqZ_S, Forall_app, Forall_singleton. done.
Qed.

(** When some count is larger than its list, there is a first such
    colour. *)
Lemma first_unfit d ncc (nc : nat) :
  ¬ counts_fit_below d ncc (Z.of_nat nc) →
  ∃ c : nat,
    (c < nc)%nat ∧ counts_fit_below d ncc (Z.of_nat c)
    ∧ ¬ match colored_cells d !! Z.of_nat c, read ncc (Z.of_nat c) with
        | Some cells, Some count => count ≤ Z.of_nat (length cells)
        | _, _ => False
        end.
Proof.
  induction nc as [|nc IH]; intros Hn. { destruct Hn. constructor. }
  destruct (decide (counts_fit_below d ncc (Z.of_nat nc))) as [Hfit|Hnfit].
  - exists nc. split_and!; [lia|done|]. intros Hc. by apply Hn, counts_fit_below_S.
  - destruct (IH Hnfit) as (c & ? & ? & ?). exists c. split_and!; [lia|done|done].
Qed.

Lemma counts_fit_below_lookup d ncc (nc c : nat) :
  Forall (λ count, 0 ≤ count) ncc →
  counts_fit_below d ncc (Z.of_nat nc) → (c < nc)%nat →
  ∃ cells count, colored_cells d !! Z.of_nat c = Some cells
                 ∧ read ncc (Z.of_nat c) = Some count
                 ∧ 0 ≤ count ≤ Z.of_nat (length cells).
Proof.
  intros Hnonneg Hfit Hc. unfold counts_fit_below in Hfit. rewrite Forall_forall in Hfit.
  specialize (Hfit (Z.of_nat c)). rewrite elem_of_seqZ in Hfit. specialize (Hfit ltac:(lia)).
  destruct (colored_cells d !! Z.of_nat c) as [cells|]; [|done].
  destruct (read ncc (Z.of_nat c)) as [count|] eqn:Hcount; [|done].
  exists cells, count. split_and!; [done|done| |done].
  rewrite read_of_nat in Hcount. rewrite Forall_forall in Hnonneg.
  by eapply Hnonneg, list_elem_of_lookup_2.
Qed.

(** Lines 129-134 for a colour whose recorded count is larger than its
    list, after colours whose counts were not: line 131 writes behind the
    end of the list. *)
Lemma update_color_over d0 ncc (c : nat) s cells colors0 count :
  undercount_inv d0 ncc colors0 c s →
  colored_cells d0 !! Z.of_nat c = Some cells →
  read ncc (Z.of_nat c) = Some count →
  Z.of_nat (length cells) < count →
  (length (cells_before d0 (Z.of_nat (S c))) ≤ length colors0)%nat →
  Z.of_nat (length (cells_before d0 (Z.of_nat (S c)))) < 2 ^ 32 →
  update_color ncc s (Z.of_nat c) = Undefined.
Proof.
  intros Hinv Hcells Hcount Hover Hroom Hlt. destruct s as [d cur].
  pose proof (un_current _ _ _ _ _ Hinv) as Hcur.
  pose proof (un_room _ _ _ _ _ Hinv) as Hstart.
  pose proof (un_labels _ _ _ _ _ Hinv) as Hlabels.
  pose proof (un_colors _ _ _ _ _ Hinv) as Hcolors.
  simpl in Hcur, Hcolors.
  rewrite cells_before_S, length_app in Hroom, Hlt.
  unfold color_cells in Hroom, Hlt. rewrite Hcells in Hroom, Hlt.
  simpl in Hroom, Hlt.
  set (start := Z.to_nat (first_cell ncc (Z.of_nat c))) in *.
  assert (first_cell ncc (Z.of_nat c) = Z.of_nat start) as Hfirst by (unfold start; lia).
  rewrite Hfirst in Hcur, Hlabels, Hstart. apply Nat2Z.inj in Hlabels.
  assert (colored_cells d !! Z.of_nat c = Some cells) as Hcells'.
  { rewrite <-Hcells. apply (un_todo _ _ _ _ _ Hinv). lia. }
  set (colors := color_labels ncc (Z.of_nat c) ++ drop start colors0) in *.
  assert (length colors = length colors0) as Hlen.
  { unfold colors. rewrite length_app, length_drop, <-Hlabels. lia. }
  pose proof (update_cells_spec (Z.of_nat c) d start cells colors (length cells)
                Hcells' Hcolors) as Hloop.
  rewrite <-Hcur in Hloop. specialize (Hloop ltac:(lia) ltac:(lia) ltac:(lia)).
  unfold update_color. rewrite Hcount.
  replace count with (Z.of_nat (length cells) + (count - Z.of_nat (length cells))) by lia.
  rewrite seqZ_app, for_each_app, Hloop by lia.
  rewrite (seqZ_cons (0 + _)) by lia. cbn [for_each]. unfold update_cell.
  cbn [colored_cells cell_colors]. rewrite lookup_insert_eq.
  unfold write at 1. rewrite decide_False; [done|].
  rewrite length_app, length_seqZ, length_drop. lia.
Qed.

(** X3.  On a well-formed coloured mesh whose recorded counts are not
    negative the run ends in one of three ways, with assertions compiled
    out, as in every build of the file, and also with the assertions of
    lines 69 and 76 in place.  When some vertex belongs to no listed cell
    it fails at the completeness check and leaves the cleaned input.
    When every vertex belongs to a listed cell and no count is larger
    than the list of its colour, it ends normally.  When every vertex
    belongs to a listed cell and some count is larger than the list of
    its colour, it is undefined: line 131 writes behind the end of the
    list. *)
Theorem wf_mesh_outcomes nd ju jd m ncc :
  wf_colored_mesh m →
  num_colored_cells (data m) = Some ncc →
  Forall (λ count, 0 ≤ count) ncc →
  (¬ all_vertices_referenced m
   ∧ renumber_by_color nd ju jd m = Failed error_not_all_renumbered (clean m))
  ∨ (all_vertices_referenced m
     ∧ counts_fit_below (data m) ncc (mesh_num_colors (data m))
     ∧ ∃ m', renumber_by_color nd ju jd m = Done m')
  ∨ (all_vertices_referenced m
     ∧ ¬ counts_fit_below (data m) ncc (mesh_num_colors (data m))
     ∧ renumber_by_color nd ju jd m = Undefined).
Proof.
  intros Hwf Hncc Hnonneg.
  destruct (renumber_by_color_wf nd ju jd m Hwf) as (st & ncc' & Hncc' & _ & Hinv & ->).
  rewrite Hncc in Hncc'. injection Hncc' as <-.
  pose proof Hwf as (Hg & _).
  pose proof (all_renumbered_spec (clean m) st _ Hg Hinv) as Hcheck.
  change (Forall _ _) with (all_vertices_referenced m) in Hcheck.
  destruct (decide (all_vertices_referenced m)) as [Hall|Hnall].
  2: { left. split; [done|]. destruct (all_renumbered st); [|done].
       destruct Hnall. by apply Hcheck. }
  right. rewrite (proj2 Hcheck Hall).
  pose proof (sweep_cells_length_le m Hwf) as Hle.
  destruct Hwf as (_ & (Hnc & _) & (Hcols & _ & _ & Hlists & _)).
  destruct (cell_colors (data m)) as [colors0|] eqn:Hcolors0; [|done].
  simpl in Hcols. injection Hcols as Hcols.
  unfold sweep_cells in Hle. fold (cells_before (data m) (mesh_num_colors (data m))) in Hle.
  assert (Z.to_nat (mesh_num_colors (data m)) ≤ length ncc)%nat as Hlen.
  { rewrite (mesh_num_colors_eq _ _ Hncc).
    pose proof (to_uint_le (Z.of_nat (length ncc))). lia. }
  pose proof (mesh_num_colors_nat (data m)) as Hnat.
  set (nc := Z.to_nat (mesh_num_colors (data m))) in *. clearbody nc.
  rewrite <-Hnat in Hlists, Hle |- *.
  unfold update_renumbering_data. cbn [data committed set_coordinates set_connections clean].
  destruct (decide (counts_fit_below (data m) ncc (Z.of_nat nc))) as [Hfit|Hnfit].
  - left. split_and!; [done|done|].
    destruct (update_colors_under (data m) ncc colors0 nc Hcolors0)
      as (s & -> & _); [|lia|lia|eauto].
    intros c Hc. by apply (counts_fit_below_lookup _ _ nc).
  - right. split_and!; [done|done|].
    destruct (first_unfit _ _ _ Hnfit) as (c & Hc & Hfit & Hover).
    rewrite Forall_forall in Hlists.
    destruct (Hlists (Z.of_nat c)) as [cells Hcells]; [apply elem_of_seqZ; lia|].
    destruct (lookup_lt_is_Some_2 ncc c ltac:(lia)) as [count Hcount].
    rewrite <-read_of_nat in Hcount. rewrite Hcells, Hcount in Hover.
    destruct (cells_before_app (data m) (S c) nc ltac:(lia)) as [rest1 Hrest1].
    destruct (cells_before_app (data m) c (S c) ltac:(lia)) as [rest0 Hrest0].
    rewrite Hrest1, length_app in Hle. pose proof Hle as Hle0.
    rewrite Hrest0, length_app in Hle0.
    replace (Z.of_nat nc) with (Z.of_nat c + Z.of_nat (nc - c)) by lia.
    rewrite seqZ_app, for_each_app by lia.
    destruct (update_colors_under (data m) ncc colors0 c Hcolors0)
      as (s & -> & Hinvs); [|lia|lia|].
    { intros c' Hc'. by apply (counts_fit_below_lookup _ _ c). }
    rewrite seqZ_cons by lia. cbn [for_each]. rewrite Z.add_0_l.
    rewrite (update_color_over (data m) ncc c s cells colors0 count); try done; lia.
Qed.

Lemma wf_mesh_outcomes_witness :
  (¬ all_vertices_referenced miscounted_mesh
   ∧ renumber_by_color true (λ _, 0) (λ _, 0) miscounted_mesh
     = Failed error_not_all_renumbered (clean miscounted_mesh))
  ∨ (all_vertices_referenced miscounted_mesh
     ∧ counts_fit_below (data miscounted_mesh) [2; 2]
         (mesh_num_colors (data miscounted_mesh))
     ∧ ∃ m', renumber_by_color true (λ _, 0) (λ _, 0) miscounted_mesh = Done m')
  ∨ (all_vertices_referenced miscounted_mesh
     ∧ ¬ counts_fit_below (data miscounted_mesh) [2; 2]
           (mesh_num_colors (data miscounted_mesh))
     ∧ renumber_by_color true (λ _, 0) (λ _, 0) miscounted_mesh = Undefined).
Proof.
  apply (wf_mesh_outcomes true (λ _, 0) (λ _, 0) miscounted_mesh [2; 2]).
  - by_computation.
  - reflexivity.
  - by_computation.
Defined.

(** X13.  Without assertions, a mesh that has colour labels and an array
    of counts, but no colour, is caught by the completeness check as soon
    as it has a vertex: the sweep does nothing, and no vertex has a new
    index. *)
Theorem no_colors_without_assertions ju jd m :
  is_Some (cell_colors (data m)) →
  is_Some (num_colored_cells (data m)) →
  mesh_num_colors (data m) = 0 →
  0 < num_vertices (topology m) →
  renumber_vertices true ju jd (clean m) 0 = Done (allocate ju jd (clean m))
  ∧ renumber_by_color true ju jd m = Failed error_not_all_renumbered (clean m).
Proof.
  intros [colors Hcolors] [ncc Hncc] Hnone Hpos. split; [done|].
  unfold renumber_by_color. rewrite Hcolors. cbn [data clean]. rewrite Hncc.
  rewrite (mesh_num_colors_eq _ _ Hncc) in Hnone. rewrite Hnone.
  cbn [negb andb]. change (renumber_vertices true ju jd (clean m) 0)
    with (Done (S := scratch) (allocate ju jd (clean m))).
  cbv iota beta. unfold all_renumbered, allocate.
  cbn [new_vertex_indices topology clean num_vertices].
  rewrite bool_decide_eq_false_2; [done|]. intros Hnin. apply Hnin.
  destruct (Z.to_nat (num_vertices (topology m))) eqn:Hn; [lia|]. left.
Qed.

Lemma no_colors_without_assertions_witness :
  renumber_vertices true (λ _, 0) (λ _, 0) (clean zero_colors_mesh) 0
  = Done (allocate (λ _, 0) (λ _, 0) (clean zero_colors_mesh))
  ∧ renumber_by_color true (λ _, 0) (λ _, 0) zero_colors_mesh
    = Failed error_not_all_renumbered (clean zero_colors_mesh).
Proof.
  apply (no_colors_without_assertions (λ _, 0) (λ _, 0) zero_colors_mesh).
  - eexists. reflexivity.
  - eexists. reflexivity.
  - reflexivity.
  - simpl. lia.
Defined.

(** ** The order of the vertices *)

(** X14.  In the mesh that a normal run on a valid coloured mesh leaves,
    the sweep reads the connectivity buffer from front to back, and it
    meets the vertices in the order of their numbers. *)
Theorem vertices_in_order_of_use nd ju jd m m' :
  valid_colored_mesh m →
  renumber_by_color nd ju jd m = Done m' →
  sweep_vertices m' = connections (cell_vertex (topology m'))
  ∧ first_seen (sweep_vertices m') = seqZ 0 (num_vertices (topology m')).
Proof.
  intros Hvalid Hdone.
  destruct (renumber_by_color_valid_Done nd ju jd m m' Hvalid Hdone)
    as (st & ncc & s & Hncc & Hinv & Hall & Hui & ->).
  destruct (renumbered_mesh_facts m st ncc s Hvalid Hncc Hinv Hall Hui) as (_ & _ & Hsv).
  destruct (renumbered_connections m st Hvalid Hinv Hall) as (_ & _ & _ & Hfirst & _).
  rewrite Hsv. split; [done|]. exact Hfirst.
Qed.

Lemma vertices_in_order_of_use_witness :
  sweep_vertices scale_mesh_renumbered
  = connections (cell_vertex (topology scale_mesh_renumbered))
  ∧ first_seen (sweep_vertices scale_mesh_renumbered)
    = seqZ 0 (num_vertices (topology scale_mesh_renumbered)).
Proof.
  apply (vertices_in_order_of_use false (λ _, 0) (λ _, 0) scale_mesh).
  - by_computation.
  - vm_compute. reflexivity.
Defined.

(** ** What a normal end takes *)

Lemma renumber_vertex_indices_length m st v :
  match renumber_vertex m st v with
  | Done st' | Failed _ st' =>
      length (new_vertex_indices st') = length (new_vertex_indices st)
  | Undefined => True
  end.
Proof.
  unfold renumber_vertex.
  destruct (read (new_vertex_indices st) v) as [old|]; [|done]. cbv zeta.
  match goal with
  | |- context [if decide (old = -1) then ?a else ?b] =>
      destruct (if decide (old = -1) then a else b) as [st1|] eqn:Hst1
  end; [|done].
  assert (length (new_vertex_indices st1) = length (new_vertex_indices st)) as Hlen.
  { revert Hst1. case_decide; [|by intros [= <-]].
    destruct (std_copy _ _ _ _ _); [|done].
    destruct (write _ _ _) as [nvi|] eqn:Hw; [|done].
    intros [= <-]. by apply write_length in Hw. }
  destruct (new_vertex_index st1 v) as [x|]; [|done].
  destruct (write _ _ x); [exact Hlen|done].
Qed.

(** A vertex that lines 91-106 get through is a vertex of the mesh. *)
Lemma renumber_vertex_Done_range m st v st' :
  length (new_vertex_indices st) = Z.to_nat (num_vertices (topology m)) →
  renumber_vertex m st v = Done st' →
  0 ≤ v < num_vertices (topology m).
Proof.
  intros Hlen. unfold renumber_vertex.
  destruct (read (new_vertex_indices st) v) as [old|] eqn:Hread; [|done].
  intros _. apply read_Some in Hread as [Hv Hold%lookup_lt_Some]. lia.
Qed.

(** The cells that a sweep that ends normally has been through lie in the
    connectivity buffer, slot by slot, and their vertices are vertices of
    the mesh. *)
Lemma renumber_vertices_Done_range nd ju jd m nc st :
  renumber_vertices nd ju jd m nc = Done st →
  Forall (λ color,
      ∃ cells, colored_cells (data m) !! color = Some cells
               ∧ Forall (λ cell,
                     Forall (λ j,
                         ∃ v, cell_vertices (cell_vertex (topology m)) cell j = Some v
                              ∧ 0 ≤ v < num_vertices (topology m))
                       (seqZ 0 (num_entities (cell_vertex (topology m))))) cells)
    (seqZ 0 nc).
Proof.
  set (P := λ st : scratch,
              length (new_vertex_indices st) = Z.to_nat (num_vertices (topology m))).
  assert (∀ s v, P s → match renumber_vertex m s v with
                       | Done s' | Failed _ s' => P s'
                       | Undefined => True
                       end) as Hvertex.
  { intros s v Hs. pose proof (renumber_vertex_indices_length m s v) as Hlen.
    unfold P. destruct (renumber_vertex m s v); congruence. }
  assert (∀ s cell, P s → match renumber_cell m s cell with
                          | Done s' | Failed _ s' => P s'
                          | Undefined => True
                          end) as Hcell.
  { intros s cell Hs. unfold renumber_cell. apply for_each_keeps; [|done].
    intros s1 j Hs1. destruct (cell_vertices _ _ _); [|done]. by apply Hvertex. }
  assert (∀ s color, P s → match renumber_color nd m s color with
                           | Done s' | Failed _ s' => P s'
                           | Undefined => True
                           end) as Hcolor.
  { intros s color Hs. unfold renumber_color.
    destruct (colored_cells (data m) !! color); [|by destruct nd].
    by apply for_each_keeps. }
  unfold renumber_vertices.
  apply (for_each_Done_all _ P); [done| |].
  2: { unfold P, allocate. cbn [new_vertex_indices]. apply length_replicate. }
  intros s color s' Hs. unfold renumber_color.
  destruct (colored_cells (data m) !! color) as [cells|]; [|by destruct nd].
  intros Hcells. exists cells. split; [done|]. revert Hcells.
  apply (for_each_Done_all _ P); [done| |done].
  clear s s' Hs. intros s cell s' Hs. unfold renumber_cell.
  apply (for_each_Done_all _ P); [|clear s s' Hs|done].
  { intros s1 j Hs1. destruct (cell_vertices _ _ _); [|done]. by apply Hvertex. }
  intros s j s' Hs. destruct (cell_vertices _ _ _) as [v|]; [|done].
  intros Hv. exists v. split; [done|]. by eapply renumber_vertex_Done_range.
Qed.

(** X15.  On any mesh, a run ends normally only when the colour data is
    there and the listed cells are cells of the mesh: the mesh has colour
    labels and an array of counts, with assertions enabled it has a
    colour, every colour has a list, every slot of every listed cell lies
    in the connectivity buffer, and the vertex in it is a vertex of the
    mesh. *)
Theorem normal_end_in_range nd ju jd m m' :
  renumber_by_color nd ju jd m = Done m' →
  is_Some (cell_colors (data m))
  ∧ is_Some (num_colored_cells (data m))
  ∧ (nd = false → 0 < mesh_num_colors (data m))
  ∧ ∀ color,
      0 ≤ color < mesh_num_colors (data m) →
      ∃ cells,
        colored_cells (data m) !! color = Some cells
        ∧ ∀ cell j,
            cell ∈ cells → 0 ≤ j < num_entities (cell_vertex (topology m)) →
            ∃ v, cell_vertices (cell_vertex (topology m)) cell j = Some v
                 ∧ 0 ≤ v < num_vertices (topology m).
Proof.
  unfold renumber_by_color, mesh_num_colors.
  destruct (cell_colors (data m)) as [colors|]; [|done]. cbn [data clean].
  destruct (num_colored_cells (data m)) as [ncc|]; [|by destruct nd].
  destruct (negb nd && _) eqn:Hassert; [done|].
  destruct (renumber_vertices _ _ _ _ _) as [st|f st|] eqn:Hpass; [|done|done].
  intros _. split_and!; [eauto|eauto| |].
  - intros ->. cbn [negb andb] in Hassert. by case_bool_decide.
  - apply renumber_vertices_Done_range in Hpass. rewrite Forall_forall in Hpass.
    intros color Hcolor.
    destruct (Hpass color) as (cells & Hcells & Hrange); [apply elem_of_seqZ; lia|].
    exists cells. split; [done|]. intros cell j Hcell Hj.
    rewrite Forall_forall in Hrange. specialize (Hrange cell Hcell).
    rewrite Forall_forall in Hrange. apply Hrange, elem_of_seqZ.
    cbn [topology clean cell_vertex]. lia.
Qed.

Lemma normal_end_in_range_witness :
  is_Some (cell_colors (data partial_partition_mesh))
  ∧ is_Some (num_colored_cells (data partial_partition_mesh))
  ∧ (false = false → 0 < mesh_num_colors (data partial_partition_mesh))
  ∧ ∀ color,
      0 ≤ color < mesh_num_colors (data partial_partition_mesh) →
      ∃ cells,
        colored_cells (data partial_partition_mesh) !! color = Some cells
        ∧ ∀ cell j,
            cell ∈ cells →
            0 ≤ j < num_entities (cell_vertex (topology partial_partition_mesh)) →
            ∃ v, cell_vertices (cell_vertex (topology partial_partition_mesh)) cell j
                 = Some v
                 ∧ 0 ≤ v < num_vertices (topology partial_partition_mesh).
Proof.
  eapply (normal_end_in_range false (λ _, 0) (λ _, 0) partial_partition_mesh).
  vm_compute. reflexivity.
Defined.

(** X8.  With assertions compiled out, a mesh that has colour labels but
    no array of counts, or no list for one of its colours, makes the run
    undefined: lines 68 and 79 dereference the null pointer. *)
Theorem missing_data_undefined ju jd m :
  is_Some (cell_colors (data m)) →
  num_colored_cells (data m) = None
  ∨ (∃ color, 0 ≤ color < mesh_num_colors (data m)
              ∧ colored_cells (data m) !! color = None) →
  renumber_by_color true ju jd m = Undefined.
Proof.
  intros [colors Hcolors] Hmissing. unfold renumber_by_color. rewrite Hcolors.
  cbn [data clean]. unfold mesh_num_colors in Hmissing.
  destruct (num_colored_cells (data m)) as [ncc|]; [|done].
  destruct Hmissing as [?|(color & Hcolor & Hnone)]; [done|].
  cbn [negb andb].
  destruct (renumber_vertices _ _ _ _ _) as [st|f st|] eqn:Hpass; [| |done].
  - apply renumber_vertices_Done_range in Hpass. rewrite Forall_forall in Hpass.
    destruct (Hpass color) as (cells & Hcells & _); [by apply elem_of_seqZ|].
    cbn [data clean] in Hcells. congruence.
  - by apply renumber_vertices_Failed in Hpass as (? & _).
Qed.

Lemma missing_data_undefined_witness :
  renumber_by_color true (λ _, 0) (λ _, 0) missing_list_mesh = Undefined.
Proof.
  apply (missing_data_undefined (λ _, 0) (λ _, 0) missing_list_mesh).
  - eexists. reflexivity.
  - right. exists 1. split; [|reflexivity].
    vm_compute. split; [discriminate|reflexivity].
Defined.
